(** * dbdicom: the record / index synchronisation layer

    A shallow embedding of [src/dbdicom/classes/record.py]: the tabular
    index (a pandas dataframe whose index labels are relative file paths),
    the files below the database folder, and the [Record] operations that
    stage, commit and roll back changes ([remove], [save], [restore]),
    copy and move records ([copy_to], [move_to], [merge_with]), navigate
    ([children]) and guard array writes ([set_array]).

    Conventions of the embedding.
    - A dataframe is the list of its rows in positional order; every row
      carries its index label ([file]).  [df.loc[labels, c] = v] and
      [df.drop(labels)] act on every row whose label occurs in [labels],
      as pandas does.
    - The disk is a finite map from relative paths (below [folder.path])
      to decoded datasets; [os.remove(os.path.join(path, p))] is the
      deletion of [p], [ds.save_as(os.path.join(path, p))] the insertion
      at [p].
    - [pydicom.uid.generate_uid] and [folder.new_file] are oracles: a
      stream of values and a counter kept in the folder state.
    - Progress and dialog reporting ([status], [dialog]) carry no state of
      the index or the disk and are left out. *)

From stdpp Require Import gmap strings list fin_maps pretty.

Open Scope string_scope.
Open Scope list_scope.
Open Scope nat_scope.

(** ** Python outcomes *)

Inductive exn := TypeError | ValueError | FileNotFoundError | IndexError | AxisError.

Inductive result (A : Type) :=
| Ok (a : A)
| Raise (e : exn).
Arguments Ok {A} a.
Arguments Raise {A} e.

(** ** Data model *)

(** A decoded DICOM dataset: keyword ↦ value. *)
Abbreviation Dataset := (gmap string string).

(** One row of [folder.dataframe]. [cached] holds the descriptive columns
    [_columns[4:]]. *)
Record Row := mkRow {
  file : string;
  PatientID : string;
  StudyInstanceUID : string;
  SeriesInstanceUID : string;
  SOPInstanceUID : string;
  cached : gmap string string;
  removed : bool;
  created : bool
}.

#[global] Instance Row_eq_dec : EqDecision Row.
Proof. solve_decision. Defined.

Record Folder := mkFolder {
  path : option string;
  dataframe : list Row;
  disk : gmap string Dataset;
  uid_count : nat;
  file_count : nat
}.

(** A [Record] object: its UID tuple and its placeholder attributes. *)
Record DbRecord := mkRecord {
  UID : list string;
  attributes : list (string * string)
}.

Definition generation (r : DbRecord) : nat := length (UID r).

(** What a navigation method returns: [None], a list of records, or one
    record. *)
Inductive pyvalue := PyNone | PyList (l : list DbRecord) | PyObj (o : DbRecord).

Definition key_columns : list string :=
  ["PatientID"; "StudyInstanceUID"; "SeriesInstanceUID"; "SOPInstanceUID"].

(** [Record.key] *)
Definition key (r : DbRecord) : list string := take (generation r) key_columns.

(** Column access by keyword, [row[k]]. *)
Definition get_col (k : string) (row : Row) : option string :=
  if decide (k = "PatientID") then Some (PatientID row)
  else if decide (k = "StudyInstanceUID") then Some (StudyInstanceUID row)
  else if decide (k = "SeriesInstanceUID") then Some (SeriesInstanceUID row)
  else if decide (k = "SOPInstanceUID") then Some (SOPInstanceUID row)
  else cached row !! k.

Definition set_file (p : string) (row : Row) : Row :=
  mkRow p (PatientID row) (StudyInstanceUID row) (SeriesInstanceUID row)
        (SOPInstanceUID row) (cached row) (removed row) (created row).

Definition set_removed (b : bool) (row : Row) : Row :=
  mkRow (file row) (PatientID row) (StudyInstanceUID row) (SeriesInstanceUID row)
        (SOPInstanceUID row) (cached row) b (created row).

Definition set_created (b : bool) (row : Row) : Row :=
  mkRow (file row) (PatientID row) (StudyInstanceUID row) (SeriesInstanceUID row)
        (SOPInstanceUID row) (cached row) (removed row) b.

Definition set_cached (k v : string) (row : Row) : Row :=
  mkRow (file row) (PatientID row) (StudyInstanceUID row) (SeriesInstanceUID row)
        (SOPInstanceUID row) (<[k:=v]> (cached row)) (removed row) (created row).

(** Column assignment by keyword, [row[k] = v]. *)
Definition set_col (k v : string) (row : Row) : Row :=
  if decide (k = "PatientID") then
    mkRow (file row) v (StudyInstanceUID row) (SeriesInstanceUID row)
          (SOPInstanceUID row) (cached row) (removed row) (created row)
  else if decide (k = "StudyInstanceUID") then
    mkRow (file row) (PatientID row) v (SeriesInstanceUID row)
          (SOPInstanceUID row) (cached row) (removed row) (created row)
  else if decide (k = "SeriesInstanceUID") then
    mkRow (file row) (PatientID row) (StudyInstanceUID row) v
          (SOPInstanceUID row) (cached row) (removed row) (created row)
  else if decide (k = "SOPInstanceUID") then
    mkRow (file row) (PatientID row) (StudyInstanceUID row) (SeriesInstanceUID row)
          v (cached row) (removed row) (created row)
  else set_cached k v row.

Definition set_dataframe (df : list Row) (f : Folder) : Folder :=
  mkFolder (path f) df (disk f) (uid_count f) (file_count f).

(** ** Dataframe primitives *)

(** [df.loc[labels, c] = v]: [upd] is applied to every row whose label is
    listed. *)
Definition loc_set (labels : list string) (upd : Row → Row) (df : list Row) : list Row :=
  (λ row, if decide (file row ∈ labels) then upd row else row) <$> df.

(** [df.drop(labels)] for labels taken from [df] itself. *)
Definition drop_rows (labels : list string) (df : list Row) : list Row :=
  filter (λ row, file row ∉ labels) df.

(** [for file in files: if os.path.exists(file): os.remove(file)] *)
Definition delete_files (labels : list string) (d : gmap string Dataset) : gmap string Dataset :=
  foldl (λ acc p, delete p acc) d labels.

(** ** Record.data *)

Definition data (f : Folder) (r : DbRecord) : list Row :=
  match path f with
  | None => dataframe f
  | Some _ =>
      let current := filter (λ row, removed row = false) (dataframe f) in
      match last (UID r), last (key r) with
      | Some u, Some k => filter (λ row, get_col k row = Some u) current
      | _, _ => current
      end
  end.

(** The rows selected at the head of [save] and [restore]:
    [dataframe] at generation 0, else
    [dataframe[dataframe[key[-1]] == UID[-1]]]. *)
Definition in_scope (r : DbRecord) (row : Row) : Prop :=
  match last (UID r), last (key r) with
  | Some u, Some k => get_col k row = Some u
  | _, _ => True
  end.

#[global] Instance in_scope_dec r row : Decision (in_scope r row).
Proof. unfold in_scope. destruct (last (UID r)), (last (key r)); apply _. Defined.

Definition scope (f : Folder) (r : DbRecord) : list Row :=
  filter (in_scope r) (dataframe f).

(** ** Record.remove *)

Definition remove (f : Folder) (r : DbRecord) : Folder * result unit :=
  let labels := file <$> data f r in
  match path f, labels with
  | None, _ :: _ => (f, Raise TypeError)          (* os.path.join(None, p) *)
  | _, [] => (f, Ok tt)                           (* files == [] *)
  | Some _, _ => (set_dataframe (loc_set labels (set_removed true) (dataframe f)) f, Ok tt)
  end.

(** ** Record.save *)

Definition save (f : Folder) (r : DbRecord) : Folder * result unit :=
  let data := scope f r in
  let created_idx := file <$> filter (λ row, created row = true) data in
  let removed_idx := file <$> filter (λ row, removed row = true) data in
  match path f, removed_idx with
  | None, _ :: _ => (f, Raise TypeError)
  | _, _ =>
      (mkFolder (path f)
         (drop_rows removed_idx (loc_set created_idx (set_created false) (dataframe f)))
         (delete_files removed_idx (disk f))
         (uid_count f) (file_count f), Ok tt)
  end.

(** ** Record.restore *)

Definition restore (f : Folder) (r : DbRecord) : Folder * result DbRecord :=
  let data := scope f r in
  let created_idx := file <$> filter (λ row, created row = true) data in
  let removed_idx := file <$> filter (λ row, removed row = true) data in
  match path f, created_idx with
  | None, _ :: _ => (f, Raise TypeError)
  | _, _ =>
      (mkFolder (path f)
         (drop_rows created_idx (loc_set removed_idx (set_removed false) (dataframe f)))
         (delete_files created_idx (disk f))
         (uid_count f) (file_count f), Ok r)
  end.

(** ** pandas [Series.unique]: distinct values in order of first appearance *)

Fixpoint unique_aux {A} `{EqDecision A} (seen l : list A) : list A :=
  match l with
  | [] => []
  | x :: t => if decide (x ∈ seen) then unique_aux seen t
              else x :: unique_aux (x :: seen) t
  end.

Definition unique {A} `{EqDecision A} (l : list A) : list A := unique_aux [] l.

(** Position of the first occurrence of [x] in [l]. *)
Definition first_index {A} `{EqDecision A} (x : A) (l : list A) : option nat :=
  fst <$> list_find (λ y, y = x) l.

(** ** Copying, merging and moving *)

Section Oracles.
(** Modelled from the spec: [folder.new_uid], [folder.new_file] and
    [folder._columns] are not in the sources.  [new_uid(n)] "generates n
    globally-unique identifiers" and is taken to draw from the stream behind
    [pydicom.uid.generate_uid()], as [Record.new_uid] does; [new_file()]
    "allocates a fresh relative path" from a stream of its own; the first
    four columns are the identifiers of [Record.key], followed by the
    descriptive columns.  Both streams and the descriptive column names
    are parameters. *)
Variable generate_uid : nat → string.
Variable new_file_name : nat → string.
Variable desc_columns : list string.

Definition _columns : list string := key_columns ++ desc_columns.

(** [Record.new_uid] *)
Definition new_uid (f : Folder) : Folder * string :=
  (mkFolder (path f) (dataframe f) (disk f) (S (uid_count f)) (file_count f),
   generate_uid (uid_count f)).

(** The loop of [Record.__init__]:
    [while generation > len(objUID): objUID.append(generate_uid())];
    [missing] is [generation - len(objUID)]. *)
Fixpoint fill_uid (missing c : nat) (objUID : list string) : nat * list string :=
  match missing with
  | 0 => (c, objUID)
  | S m => fill_uid m (S c) (objUID ++ [generate_uid c])
  end.

(** [Record.__init__(folder, UID, generation, **attributes)] *)
Definition init (f : Folder) (uid : list string) (gen : nat)
    (attrs : list (string * string)) : Folder * DbRecord :=
  let '(c, objUID) := fill_uid (gen - length uid) (uid_count f) uid in
  (mkFolder (path f) (dataframe f) (disk f) c (file_count f), mkRecord objUID attrs).

(** [df.loc[label, cols] = values] on one row. *)
Definition set_cols (cols vals : list string) (row : Row) : Row :=
  foldl (λ r kv, set_col kv.1 kv.2 r) row (zip cols vals).

(** The inner loop of [_merge_with] for one column:
    [for id in df[key].unique(): uid = new_uid(); rows = df[key] == id;
     df.loc[rows.index, key] = uid].
    [rows] is a boolean column over the whole of [df], so [rows.index] is
    the full list of labels of [df]. *)
Definition rekey_column (k : string) (st : nat * list Row) : nat * list Row :=
  foldl (λ (acc : nat * list Row) (_ : option string),
           (S acc.1, loc_set (file <$> acc.2) (set_col k (generate_uid acc.1)) acc.2))
        st (unique (get_col k <$> st.2)).

(** Modelled from the spec: [utilities._initialize(ds, UID=...)] is not in
    the sources; the copy algorithm "rewrite[s] the file's hierarchy
    identifiers accordingly", so the four identifiers are stamped on the
    dataset. *)
Definition _initialize (ds : Dataset) (uid : list string) : Dataset :=
  foldl (λ d kv, <[kv.1 := kv.2]> d) ds (zip key_columns uid).

(** Modelled from the spec: [utilities._set_tags(ds, key, value)] is not in
    the sources; it sets one data element of the dataset. *)
Definition _set_tags (ds : Dataset) (k v : string) : Dataset := <[k:=v]> ds.

(** [df.loc[file, _columns[:4]].values.tolist()] *)
Definition uid_of_row (row : Row) : list string :=
  [PatientID row; StudyInstanceUID row; SeriesInstanceUID row; SOPInstanceUID row].

(** [for key, value in obj.attributes.items(): ...] on one copied file. *)
Definition stamp_attributes (p : string) (attrs : list (string * string))
    (st : Dataset * list Row) : Dataset * list Row :=
  foldl (λ (acc : Dataset * list Row) kv,
           (_set_tags acc.1 kv.1 kv.2,
            if decide (kv.1 ∈ drop 4 _columns)
            then loc_set [p] (set_cached kv.1 kv.2) acc.2 else acc.2))
        st attrs.

(** The second loop of [_merge_with]: [todo] pairs each copy's label with
    its source file.  The result carries the disk as left behind, also
    when an exception ends the loop.

    [df.loc[file, _columns[:4]].values.tolist()] is the list of the four
    identifiers when one row carries the label.  When several rows carry
    it, it is a list of rows, which [_initialize] cannot take for the
    four identifiers: the loop ends there in an exception, taken to be an
    [IndexError].  No property below depends on which exception it is. *)
Fixpoint write_copies (G : nat) (obj : DbRecord) (todo : list (string * string))
    (df : list Row) (d : gmap string Dataset) : gmap string Dataset * result (list Row) :=
  match todo with
  | [] => (d, Ok df)
  | (p, source) :: rest =>
      let cols := take G _columns in
      if decide (length cols = length (UID obj)) then
        let df1 := loc_set [p] (set_cols cols (UID obj)) df in
        match d !! source with
        | None => (d, Raise FileNotFoundError)
        | Some ds =>
            match filter (λ row, file row = p) df1 with
            | [row] =>
                let st := stamp_attributes p (attributes obj)
                            (_initialize ds (uid_of_row row), df1) in
                write_copies G obj rest st.2 (<[p := st.1]> d)
            | _ => (d, Raise IndexError)
            end
        end
      else (d, Raise ValueError)
  end.

(** [Record._merge_with] *)
Definition _merge_with (f : Folder) (self obj : DbRecord)
    : Folder * result (option DbRecord) :=
  let dfsource := data f self in
  match path f, dfsource with
  | None, _ :: _ => (f, Raise TypeError)
  | _, _ =>
      let n := length dfsource in
      let labels := new_file_name <$> seq (file_count f) n in
      let df := zip_with set_file labels dfsource in
      let st := foldl (λ acc k, rekey_column k acc) (uid_count f, df)
                      (drop (generation self) (take 3 _columns)) in
      let df2 := zip_with (set_col "SOPInstanceUID") (generate_uid <$> seq st.1 n) st.2 in
      let df3 := (λ row, set_created true (set_removed false row)) <$> df2 in
      let out := write_copies (generation self) obj
                   (zip labels (file <$> dfsource)) df3 (disk f) in
      match out.2 with
      | Ok df4 =>
          (mkFolder (path f) (dataframe f ++ df4) out.1 (st.1 + n) (file_count f + n),
           Ok (Some obj))
      | Raise e =>
          (mkFolder (path f) (dataframe f) out.1 (st.1 + n) (file_count f + n), Raise e)
      end
  end.

(** [Record.merge_with] *)
Definition merge_with (f : Folder) (self obj : DbRecord)
    : Folder * result (option DbRecord) :=
  if decide (generation self = 0) then (f, Ok None) else _merge_with f self obj.

(** [Record.copy_to].

    Modelled from the spec: [self.__class__] is one of the subclasses
    Patient, Study, Series, Instance, which are not in the sources; a
    record of generation G is "identified by a UID tuple of length G", so
    the subclass constructor is [Record.__init__] at the generation of
    [self]. *)
Definition copy_to (f : Folder) (self ancestor : DbRecord)
    : Folder * result (option DbRecord) :=
  if decide (generation self = 0) then (f, Ok None)
  else
    let fc := init f (UID ancestor) (generation self) [] in
    _merge_with fc.1 self fc.2.

(** [Record.move_to] *)
Definition move_to (f : Folder) (self ancestor : DbRecord)
    : Folder * result (option DbRecord) :=
  let c := copy_to f self ancestor in
  match c.2 with
  | Raise e => (c.1, Raise e)
  | Ok copy =>
      let r := remove c.1 self in
      match r.2 with
      | Raise e => (r.1, Raise e)
      | Ok _ => (r.1, Ok copy)
      end
  end.

(** *** Navigation *)

(** The keyword filter [**kwargs] of [children] and [records], as the
    predicate it decides on a record. *)
Variable matches : Folder → DbRecord → bool.

(** Modelled from the spec: [utilities._filter(objects, **kwargs)] is not
    in the sources; it keeps the objects that satisfy every predicate. *)
Definition _filter (f : Folder) (objects : list DbRecord) : list DbRecord :=
  List.filter (matches f) objects.

(** Modelled from the spec: [dicm.object(folder, row, generation)] is not
    in the sources; the record of that generation the row belongs to,
    "identified by a UID tuple of length G". *)
Definition object (row : Row) (gen : nat) : DbRecord :=
  mkRecord (take gen (uid_of_row row)) [].

(** [Record.records] *)
Definition records (f : Folder) (self : DbRecord) (gen : nat) (index : option nat)
    : result pyvalue :=
  let finish (objects : list DbRecord) : result pyvalue :=
    let objects := _filter f objects in
    match index with
    | None => Ok (PyList objects)
    | Some _ => match objects with
                | o :: _ => Ok (PyObj o)
                | [] => Raise IndexError
                end
    end in
  match gen with
  | 0 => finish [mkRecord [] []]
  | S _ =>
      let data := data f self in
      match data with
      | [] => match index with None => Ok (PyList []) | Some _ => Ok PyNone end
      | _ :: _ =>
          match last (take gen _columns) with
          | None => Raise IndexError
          | Some k =>
              let rec_list := unique (get_col k <$> data) in
              let build (recs : list (option string)) : result pyvalue :=
                finish (omap (λ rec, (λ row, object row gen) <$>
                                       head (filter (λ row, get_col k row = rec) data))
                             recs) in
              match index with
              | None => build rec_list
              | Some i => match rec_list !! i with
                          | Some rec => build [rec]
                          | None => Raise IndexError
                          end
              end
          end
      end
  end.

(** [Record.children] *)
Definition children (f : Folder) (self : DbRecord) (index : option nat) : result pyvalue :=
  if decide (generation self = 4) then Ok (PyList [])
  else records f self (generation self + 1) index.

(** *** Record.set_array

    Arrays are represented by their shapes: the guard of [set_array]
    reads nothing else.  What follows the guard ([new_series], [db.copy],
    [Instance.set_array]) is not in the sources and is a parameter. *)
Variable write_slices :
  Folder → DbRecord → list nat → list nat → bool → Folder * result DbRecord.

(** [np.moveaxis(array, 0, -1)] on the shape. *)
Definition moveaxis_0_last (shape : list nat) : result (list nat) :=
  match shape with
  | [] => Raise AxisError
  | d :: t => Ok (t ++ [d])
  end.

(** [np.prod(shape)] *)
Definition prod (shape : list nat) : nat := foldr Nat.mul 1 shape.

(** [if pixels_first: array = np.moveaxis(array, 0, -1)], twice. *)
Definition pixels_last (pixels_first : bool) (array : list nat) : result (list nat) :=
  if pixels_first then
    match moveaxis_0_last array with
    | Ok a => moveaxis_0_last a
    | Raise e => Raise e
    end
  else Ok array.

(** [if dataset is None: dataset = self.dataset()]: one header per row of
    [self.data()]. *)
Definition header_shape (f : Folder) (self : DbRecord) (dataset : option (list nat))
    : list nat :=
  match dataset with
  | Some d => d
  | None => [length (data f self)]
  end.

(** [np.prod(array.shape[:-2])] *)
Definition nr_of_slices (array : list nat) : nat :=
  prod (take (length array - 2) array).

Definition set_array (f : Folder) (self : DbRecord) (array : list nat)
    (dataset : option (list nat)) (pixels_first inplace : bool)
    : Folder * result DbRecord :=
  match pixels_last pixels_first array with
  | Raise e => (f, Raise e)
  | Ok array =>
      let dataset := header_shape f self dataset in
      if decide (nr_of_slices array ≠ prod dataset) then (f, Raise ValueError)
      else write_slices f self array dataset inplace
  end.

End Oracles.

(** * Traversal, reading and creation *)

(** A call that recurses through the tree is given a bound on the depth
    of the recursion; [None] says that the bound was reached, or that the
    call left the part of Python that is followed here. *)
Fixpoint for_each {A B} (g : A → option (result B)) (l : list A)
    : option (result (list B)) :=
  match l with
  | [] => Some (Ok [])
  | x :: rest =>
      match g x with
      | None => None
      | Some (Raise e) => Some (Raise e)
      | Some (Ok b) =>
          match for_each g rest with
          | None => None
          | Some (Raise e) => Some (Raise e)
          | Some (Ok bs) => Some (Ok (b :: bs))
          end
      end
  end.

(** ** The DataSet class *)

Unset Elimination Schemes.
(** [_ds] is [None], a pydicom dataset, or a list of DataSet objects. *)
Inductive DataSet :=
| DsNone (parent : option DbRecord)
| DsInstance (parent : option DbRecord) (_ds : Dataset)
| DsList (parent : option DbRecord) (_ds : list DataSet).
Set Elimination Schemes.

(** [child_dataset.parent = self] *)
Definition set_parent (p : DbRecord) (d : DataSet) : DataSet :=
  match d with
  | DsNone _ => DsNone (Some p)
  | DsInstance _ ds => DsInstance (Some p) ds
  | DsList _ l => DsList (Some p) l
  end.

(** [DataSet.generation]: [None] when empty, 4 for an instance, else one
    less than the generation of the first element. *)
Fixpoint dataset_generation (d : DataSet) : result (option Z) :=
  match d with
  | DsNone _ => Ok None
  | DsInstance _ _ => Ok (Some 4%Z)
  | DsList _ [] => Raise IndexError                 (* self._ds[0] *)
  | DsList _ (first :: _) =>
      match dataset_generation first with
      | Ok (Some g) => Ok (Some (g - 1)%Z)
      | Ok None => Raise TypeError                  (* None - 1 *)
      | Raise e => Raise e
      end
  end.

(** ** Record._copy_attributes_to, on the pydicom dataset of an instance *)

Definition _copy_attributes_to (self : DbRecord) (ds : Dataset) : Dataset :=
  let ds :=
    match UID self with
    | [] => ds
    | [patient] => <["PatientID" := patient]> ds
    | [patient; study] =>
        <["StudyInstanceUID" := study]> (<["PatientID" := patient]> ds)
    | [patient; study; series] =>
        <["SeriesInstanceUID" := series]>
          (<["StudyInstanceUID" := study]> (<["PatientID" := patient]> ds))
    | [patient; study; series; sop] =>
        <["SOPInstanceUID" := sop]>
          (<["SeriesInstanceUID" := series]>
             (<["StudyInstanceUID" := study]> (<["PatientID" := patient]> ds)))
    | _ => ds                                       (* no branch for generation > 4 *)
    end in
  foldl (λ d kv, _set_tags d kv.1 kv.2) ds (attributes self).

(** ** Record._read_instance

    The disk is keyed by the path relative to the root, the label of the
    row; [self.file] is the first of [self.files].  Whatever
    [pydicom.dcmread] raises is caught and an empty DataSet returned. *)
Definition _read_instance (f : Folder) (self : DbRecord) : result DataSet :=
  match path f, data f self with
  | None, _ :: _ => Raise TypeError               (* os.path.join(None, p) *)
  | _, [] => Ok (DsNone None)                     (* file is None *)
  | Some _, row :: _ =>
      match disk f !! file row with
      | Some ds => Ok (DsInstance None ds)
      | None => Ok (DsNone None)
      end
  end.

Section Traversal.
Variable desc_columns : list string.

(** [self.children()], without index or keywords. *)
Definition all_children (f : Folder) (self : DbRecord) : result pyvalue :=
  children desc_columns (λ _ _, true) f self None.

(** The loop that [instances], [studies] and [series] share:
    [for child in self.children(): inst = child.walk( **kwargs);
     objects.extend(inst)], then the selection by [index].
    [extend] raises [TypeError] on [None]; on a record it would iterate
    through [Record.__getitem__], which is not followed: [None]. *)
Definition gather (walk : DbRecord → option (result pyvalue)) (kids : result pyvalue)
    (index : option nat) : option (result pyvalue) :=
  match kids with
  | Raise e => Some (Raise e)
  | Ok (PyList kids) =>
      match for_each (λ child,
                        match walk child with
                        | Some (Ok (PyList inst)) => Some (Ok inst)
                        | Some (Ok PyNone) => Some (Raise TypeError)
                        | Some (Ok (PyObj _)) => None
                        | Some (Raise e) => Some (Raise e)
                        | None => None
                        end) kids with
      | None => None
      | Some (Raise e) => Some (Raise e)
      | Some (Ok found) =>
          let found := concat found in
          match index with
          | None => Some (Ok (PyList found))
          | Some i =>
              match found !! i with
              | Some o => Some (Ok (PyObj o))
              | None => Some (Ok PyNone)            (* index >= len(objects) *)
              end
          end
      end
  | Ok PyNone => Some (Raise TypeError)
  | Ok (PyObj _) => None
  end.

(** ** DbDicom.instances, as inherited by Record

    [matches] is the keyword filter [**kwargs]. *)
Fixpoint instances (fuel : nat) (matches : Folder → DbRecord → bool)
    (f : Folder) (self : DbRecord) (index : option nat) : option (result pyvalue) :=
  match fuel with
  | 0 => None
  | S fuel =>
      if decide (generation self = 4) then Some (Ok PyNone)
      else if decide (generation self = 3)
      then Some (children desc_columns matches f self index)
      else gather (λ child, instances fuel matches f child None)
                  (all_children f self) index
  end.

(** ** Record.read *)
Fixpoint read (fuel : nat) (f : Folder) (self : DbRecord) : option (result DataSet) :=
  match fuel with
  | 0 => None
  | S fuel =>
      if decide (generation self = 4) then Some (_read_instance f self)
      else
        match all_children f self with
        | Raise e => Some (Raise e)
        | Ok (PyList []) => Some (Ok (DsNone None))
        | Ok (PyList kids) =>
            match for_each (read fuel f) kids with
            | None => None
            | Some (Raise e) => Some (Raise e)
            | Some (Ok datasets) => Some (Ok (DsList None (set_parent self <$> datasets)))
            end
        | Ok _ => Some (Raise TypeError)            (* not reached: no index given *)
        end
  end.

End Traversal.

(** ** Record.patients, Record.studies and Record.series

    [self.parent] is [dicm.parent(self)], which is not in the sources:
    a parameter. *)
Module Nav.
Section Levels.
Variable desc_columns : list string.
Variable dicm_parent : Folder → DbRecord → DbRecord.

(** [Record.patients].  At generation 2 [self.parent] is evaluated and
    dropped, and the call goes on to the last line. *)
Definition patients (matches : Folder → DbRecord → bool)
    (f : Folder) (self : DbRecord) (index : option nat) : result pyvalue :=
  if decide (generation self = 4)
  then Ok (PyObj (dicm_parent f (dicm_parent f (dicm_parent f self))))
  else if decide (generation self = 3)
  then Ok (PyObj (dicm_parent f (dicm_parent f self)))
  else if decide (generation self = 1) then Ok PyNone
  else children desc_columns matches f self index.

(** [Record.studies] *)
Fixpoint studies (fuel : nat) (matches : Folder → DbRecord → bool)
    (f : Folder) (self : DbRecord) (index : option nat) : option (result pyvalue) :=
  match fuel with
  | 0 => None
  | S fuel =>
      if decide (generation self = 4)
      then Some (Ok (PyObj (dicm_parent f (dicm_parent f self))))
      else if decide (generation self = 3) then Some (Ok (PyObj (dicm_parent f self)))
      else if decide (generation self = 2) then Some (Ok PyNone)
      else if decide (generation self = 1)
      then Some (children desc_columns matches f self index)
      else gather (λ child, studies fuel matches f child None)
                  (all_children desc_columns f self) index
  end.

(** [Record.series] *)
Fixpoint series (fuel : nat) (matches : Folder → DbRecord → bool)
    (f : Folder) (self : DbRecord) (index : option nat) : option (result pyvalue) :=
  match fuel with
  | 0 => None
  | S fuel =>
      if decide (generation self = 4) then Some (Ok (PyObj (dicm_parent f self)))
      else if decide (generation self = 3) then Some (Ok PyNone)
      else if decide (generation self = 2)
      then Some (children desc_columns matches f self index)
      else gather (λ child, series fuel matches f child None)
                  (all_children desc_columns f self) index
  end.

End Levels.
End Nav.

(** ** Record.array: the layout of the result

    As for [set_array], arrays are represented by their shapes.
    [np.moveaxis(array, -1, 0)] on the shape: *)
Definition moveaxis_last_0 (shape : list nat) : result (list nat) :=
  match last shape with
  | None => Raise AxisError
  | Some d => Ok (d :: removelast shape)
  end.

(** [if pixels_first: array = np.moveaxis(array, -1, 0)], twice: the
    last step of [array], on the stacked array. *)
Definition pixels_first_layout (pixels_first : bool) (array : list nat)
    : result (list nat) :=
  if pixels_first then
    match moveaxis_last_0 array with
    | Ok a => moveaxis_last_0 a
    | Raise e => Raise e
    end
  else Ok array.

(** ** Creating relatives

    [dicm.new_child] and [dicm.parent] are not in the sources; they are
    parameters.  [new_child] allocates identifiers and may stage rows, so
    it passes the folder on. *)
Section Relatives.
Variable dicm_new_child :
  Folder → DbRecord → list (string * string) → Folder * DbRecord.
Variable dicm_parent : Folder → DbRecord → DbRecord.

(** [Record.new_sibling] *)
Definition new_sibling (f : Folder) (self : DbRecord) (attrs : list (string * string))
    : Folder * option DbRecord :=
  if decide (generation self = 0) then (f, None)
  else
    let c := dicm_new_child f (dicm_parent f self) attrs in (c.1, Some c.2).

(** [Record.new_pibling] *)
Definition new_pibling (f : Folder) (self : DbRecord) (attrs : list (string * string))
    : Folder * option DbRecord :=
  if decide (generation self ≤ 1) then (f, None)
  else new_sibling f (dicm_parent f self) attrs.

(** [Record.new_series] *)
Fixpoint new_series (fuel : nat) (f : Folder) (self : DbRecord)
    (attrs : list (string * string)) : option (Folder * option DbRecord) :=
  match fuel with
  | 0 => None
  | S fuel =>
      if decide (generation self ≤ 1) then
        let c := dicm_new_child f self [] in new_series fuel c.1 c.2 attrs
      else if decide (generation self = 2) then
        let c := dicm_new_child f self attrs in Some (c.1, Some c.2)
      else if decide (generation self = 3) then Some (new_sibling f self attrs)
      else if decide (generation self = 4) then Some (new_pibling f self attrs)
      else Some (f, None)
  end.

End Relatives.

(** ** Record.copy: a copy in the same parent

    [dicm.parent] is not in the sources and is a parameter. *)
Section Copy.
Variable generate_uid : nat → string.
Variable new_file_name : nat → string.
Variable desc_columns : list string.
Variable dicm_parent : Folder → DbRecord → DbRecord.

Definition copy (f : Folder) (self : DbRecord) : Folder * result (option DbRecord) :=
  copy_to generate_uid new_file_name desc_columns f self (dicm_parent f self).

End Copy.

(** * Vocabulary of the properties *)

(** What [save] does to one row that stays in the index. *)
Definition commit_row (r : DbRecord) (row : Row) : Row :=
  if decide (in_scope r row ∧ created row = true) then set_created false row else row.

(** What [restore] does to one row that stays in the index. *)
Definition rollback_row (r : DbRecord) (row : Row) : Row :=
  if decide (in_scope r row ∧ removed row = true) then set_removed false row else row.

(** What [remove] does to one row. *)
Definition stage_removal (r : DbRecord) (row : Row) : Row :=
  if decide (removed row = false ∧ in_scope r row) then set_removed true row else row.

(** The dimensions of the array that are not pixel dimensions, in the
    words of the docstring: the leading ones, or with [pixels_first] the
    trailing ones. *)
Definition non_pixel_dims (pixels_first : bool) (array : list nat) : list nat :=
  if pixels_first then drop 2 array else take (length array - 2) array.

(** No row is staged created and staged removed at once. *)
Definition staging_exclusive (f : Folder) : Prop :=
  Forall (λ row, ¬ (created row = true ∧ removed row = true)) (dataframe f).

(** Modelled from the spec: the [new_*] writers and [folder._add] are not in
    the sources; "[new_*()] writers set [created=True] on insert", so the
    rows they add enter the index staged created and not removed. *)
Definition stage_created (rows : list Row) (f : Folder) : Folder :=
  set_dataframe
    (dataframe f ++ ((λ row, set_created true (set_removed false row)) <$> rows)) f.

(** The rows that [remove] marks, those carrying the label of a current
    row of the record, are not staged created. *)
Definition removal_guard (f : Folder) (r : DbRecord) : Prop :=
  ∀ row, row ∈ dataframe f → file row ∈ file <$> data f r → created row = false.

(** No row in the record's scope carries a staging flag. *)
Definition scope_committed (f : Folder) (r : DbRecord) : Prop :=
  ∀ row, row ∈ dataframe f → in_scope r row → created row = false ∧ removed row = false.

(** No two rows share a SOPInstanceUID. *)
Definition sop_unique (f : Folder) : Prop := NoDup (SOPInstanceUID <$> dataframe f).

(** No two rows share a (PatientID, StudyInstanceUID, SeriesInstanceUID,
    SOPInstanceUID) tuple. *)
Definition tuples_unique (f : Folder) : Prop := NoDup (uid_of_row <$> dataframe f).

Section Vocabulary.
Variable generate_uid : nat → string.
Variable new_file_name : nat → string.
Variable desc_columns : list string.

Local Abbreviation copy_to' := (copy_to generate_uid new_file_name desc_columns).
Local Abbreviation move_to' := (move_to generate_uid new_file_name desc_columns).
Local Abbreviation merge_with' := (merge_with generate_uid new_file_name desc_columns).

(** The attribute stamps that reach the index, on one row. *)
Definition stamp_cached (attrs : list (string * string)) (row : Row) : Row :=
  foldl (λ r kv, if decide (kv.1 ∈ drop 4 (_columns desc_columns))
                 then set_cached kv.1 kv.2 r else r) row attrs.

(** What one pass of the loop does to the rows carrying its label. *)
Definition stamp (G : nat) (obj : DbRecord) (row : Row) : Row :=
  stamp_cached (attributes obj)
    (set_cols (take G (_columns desc_columns)) (UID obj) row).

(** The labels drawn from [new_file] for the copies. *)
Definition copy_labels (f : Folder) (self : DbRecord) : list string :=
  new_file_name <$> seq (file_count f) (length (data f self)).

(** The copies after the re-keying loop, with the UID counter. *)
Definition rekeyed (f : Folder) (self : DbRecord) : nat * list Row :=
  foldl (λ acc k, rekey_column generate_uid k acc)
        (uid_count f, zip_with set_file (copy_labels f self) (data f self))
        (drop (generation self) (take 3 (_columns desc_columns))).

(** The copies as they enter the writing loop. *)
Definition staged_copies (f : Folder) (self : DbRecord) : list Row :=
  (λ row, set_created true (set_removed false row)) <$>
    zip_with (set_col "SOPInstanceUID")
             (generate_uid <$> seq (rekeyed f self).1 (length (data f self)))
             (rekeyed f self).2.

(** The copy built by [copy_to]: the destination's UID, filled up with
    fresh components to the generation of the source. *)
Definition copy_record (f : Folder) (self ancestor : DbRecord) : DbRecord :=
  mkRecord (UID ancestor ++
            (generate_uid <$> seq (uid_count f) (generation self - generation ancestor))) [].

(** The folder after the constructor of the copy has run. *)
Definition after_init (f : Folder) (self ancestor : DbRecord) : Folder :=
  mkFolder (path f) (dataframe f) (disk f)
           (uid_count f + (generation self - generation ancestor)) (file_count f).

(** The folders a session can reach from [f0]. [remove], also as the
    second half of [move_to], is taken on records none of whose marked
    rows is staged created. *)
Inductive reachable (f0 : Folder) : Folder → Prop :=
| reach_start : reachable f0 f0
| reach_new f rows : reachable f0 f → reachable f0 (stage_created rows f)
| reach_copy_to f self ancestor :
    reachable f0 f → reachable f0 (copy_to' f self ancestor).1
| reach_merge_with f self obj :
    reachable f0 f → reachable f0 (merge_with' f self obj).1
| reach_save f r : reachable f0 f → reachable f0 (save f r).1
| reach_restore f r : reachable f0 f → reachable f0 (restore f r).1
| reach_remove f r :
    reachable f0 f → removal_guard f r → reachable f0 (remove f r).1
| reach_move_to f self ancestor :
    reachable f0 f → removal_guard (copy_to' f self ancestor).1 self →
    reachable f0 (move_to' f self ancestor).1.

(** The generator has not issued, and from the current counter on will
    not issue, the SOPInstanceUID of a row of the index. *)
Definition generator_fresh (f : Folder) : Prop :=
  ∀ j row, uid_count f ≤ j → row ∈ dataframe f → SOPInstanceUID row ≠ generate_uid j.

(** The runs of the uniqueness property: [new_uid], [copy_to] of a
    record of generation at most 3, or of an Instance below a record of
    a higher level, and [merge_with] of a record of generation at most
    3. *)
Inductive uid_run (f0 : Folder) : Folder → Prop :=
| run_start : uid_run f0 f0
| run_new_uid f : uid_run f0 f → uid_run f0 (new_uid generate_uid f).1
| run_copy_to f self ancestor :
    uid_run f0 f →
    generation self ≤ 3 ∨ (generation self = 4 ∧ generation ancestor < 4) →
    uid_run f0 (copy_to' f self ancestor).1
| run_merge_with f self obj :
    uid_run f0 f → generation self ≤ 3 → uid_run f0 (merge_with' f self obj).1.

End Vocabulary.

(** The children of a record before the keyword filter: for each distinct
    value of the generation-(G+1) identifier among the record's rows, in
    order of first appearance, the record built from the first row
    carrying it. *)
Definition offspring (f : Folder) (self : DbRecord) : list DbRecord :=
  match key_columns !! generation self with
  | None => []
  | Some k =>
      omap (λ rec, (λ row, object row (generation self + 1)) <$>
                     head (filter (λ row, get_col k row = rec) (data f self)))
           (unique (get_col k <$> data f self))
  end.


(** File labels are pairwise distinct, and [new_file] will not issue a
    label that the index holds. *)
Definition labels_fresh (new_file_name : nat → string) (f : Folder) : Prop :=
  NoDup (file <$> dataframe f) ∧
  ∀ k row, file_count f ≤ k → row ∈ dataframe f → file row ≠ new_file_name k.

Section Sessions.
Variable generate_uid : nat → string.
Variable new_file_name : nat → string.
Variable desc_columns : list string.

(** The folders reached by copies, merges, moves, removals, saves and
    restores, whether they return or raise. *)
Inductive session (f0 : Folder) : Folder → Prop :=
| session_start : session f0 f0
| session_copy_to f self ancestor :
    session f0 f →
    session f0 (copy_to generate_uid new_file_name desc_columns f self ancestor).1
| session_merge_with f self obj :
    session f0 f →
    session f0 (merge_with generate_uid new_file_name desc_columns f self obj).1
| session_move_to f self ancestor :
    session f0 f →
    session f0 (move_to generate_uid new_file_name desc_columns f self ancestor).1
| session_remove f r : session f0 f → session f0 (remove f r).1
| session_save f r : session f0 f → session f0 (save f r).1
| session_restore f r : session f0 f → session f0 (restore f r).1.

End Sessions.

(** * A small database *)

Module Demo.

(** UIDs as pydicom issues them: a fixed root and a running suffix. *)
Definition demo_uid (n : nat) : string := "1.2.826.0.1.3680043.8.498." +:+ pretty n.

Definition demo_file (n : nat) : string := "dbdicom/" +:+ pretty n +:+ ".dcm".

Definition header (patient study series sop : string) : Dataset :=
  {[ "PatientID" := patient; "StudyInstanceUID" := study;
     "SeriesInstanceUID" := series; "SOPInstanceUID" := sop ]}.

Definition row_a : Row := mkRow "a.dcm" "P1" "ST1" "SE1" "I1" ∅ false false.
Definition row_b : Row := mkRow "b.dcm" "P1" "ST1" "SE1" "I2" ∅ false false.
(** A row staged created and never saved. *)
Definition row_c : Row := mkRow "c.dcm" "P1" "ST1" "SE1" "I3" ∅ false true.
(** A row of another series. *)
Definition row_d : Row := mkRow "d.dcm" "P1" "ST1" "SE2" "I4" ∅ true false.

(** One patient, one study, one series, two committed instances. *)
Definition demo : Folder :=
  mkFolder (Some "/data") [row_a; row_b]
    {[ "a.dcm" := header "P1" "ST1" "SE1" "I1"; "b.dcm" := header "P1" "ST1" "SE1" "I2" ]}
    0 0.

(** The same series with a staged-created instance. *)
Definition demo_staged : Folder :=
  mkFolder (Some "/data") [row_a; row_c]
    {[ "a.dcm" := header "P1" "ST1" "SE1" "I1"; "c.dcm" := header "P1" "ST1" "SE1" "I3" ]}
    0 0.

(** Two series, with staged changes in both. *)
Definition demo_mixed : Folder :=
  mkFolder (Some "/data") [row_a; row_c; row_d]
    {[ "a.dcm" := header "P1" "ST1" "SE1" "I1"; "c.dcm" := header "P1" "ST1" "SE1" "I3";
       "d.dcm" := header "P1" "ST1" "SE2" "I4" ]}
    0 0.

Definition patient : DbRecord := mkRecord ["P1"] [].
Definition study : DbRecord := mkRecord ["P1"; "ST1"] [].
Definition series : DbRecord := mkRecord ["P1"; "ST1"; "SE1"] [].
Definition instance_a : DbRecord := mkRecord ["P1"; "ST1"; "SE1"; "I1"] [].
Definition instance_b : DbRecord := mkRecord ["P1"; "ST1"; "SE1"; "I2"] [].
(** A destination study of another patient, and that patient. *)
Definition study2 : DbRecord := mkRecord ["P2"; "ST2"] [].
Definition patient2 : DbRecord := mkRecord ["P2"] [].

(** The record of generation 0: the whole database. *)
Definition database : DbRecord := mkRecord [] [].

(** The demo database after the file of the second instance was lost. *)
Definition demo_lost : Folder :=
  mkFolder (Some "/data") [row_a; row_b]
    {[ "a.dcm" := header "P1" "ST1" "SE1" "I1" ]} 0 0.

(** A second series in the study of the first. *)
Definition row_e : Row := mkRow "e.dcm" "P1" "ST1" "SE2" "I5" ∅ false false.

Definition demo_two_series : Folder :=
  mkFolder (Some "/data") [row_a; row_e]
    {[ "a.dcm" := header "P1" "ST1" "SE1" "I1"; "e.dcm" := header "P1" "ST1" "SE2" "I5" ]}
    0 0.

(** A target series with a pending attribute. *)
Definition series_named : DbRecord :=
  mkRecord ["P2"; "ST2"; "SE9"] [("SeriesDescription", "copy")].

(** A child one level down with a fresh last identifier, and the parent
    one level up. *)
Definition demo_new_child (f : Folder) (r : DbRecord) (attrs : list (string * string))
    : Folder * DbRecord :=
  init demo_uid f (UID r) (generation r + 1) attrs.

Definition demo_parent (f : Folder) (r : DbRecord) : DbRecord :=
  mkRecord (take (generation r - 1) (UID r)) [].

(** Labels for new files with a running suffix. *)
Definition copy_file (n : nat) : string := "copy/" +:+ pretty n.

End Demo.

Import Demo.

(** Decidable facts on the demo database are settled by evaluation. *)
Ltac by_evaluation := apply (bool_decide_unpack _); vm_compute; exact I.
Ltac refute_by_evaluation :=
  let H := fresh in intros H; apply (bool_decide_pack _) in H; vm_compute in H; exact H.

(** * Properties *)

(** ** Dataframe primitives *)

Lemma lookup_delete_files (labels : list string) (d : gmap string Dataset) (q : string) :
  delete_files labels d !! q = if decide (q ∈ labels) then None else d !! q.
Proof.
  unfold delete_files. revert d.
  induction labels as [|p labels IH]; intros d; simpl.
  - destruct (decide (q ∈ [])) as [H|H]; [by apply elem_of_nil in H | done].
  - rewrite IH. destruct (decide (q ∈ labels)) as [Hin|Hnin].
    + rewrite decide_True; [done | by right].
    + destruct (decide (q = p)) as [->|Hne].
      * rewrite decide_True; [|by left]. apply lookup_delete_eq.
      * rewrite decide_False; [by apply lookup_delete_ne|].
        intros [?|?]%elem_of_cons; congruence.
Qed.

Lemma label_unique (df : list Row) (r1 r2 : Row) :
  NoDup (file <$> df) → r1 ∈ df → r2 ∈ df → file r1 = file r2 → r1 = r2.
Proof.
  induction df as [|r df IH]; intros Hnd H1 H2 Heq.
  - by apply elem_of_nil in H1.
  - rewrite fmap_cons in Hnd. apply NoDup_cons in Hnd as [Hnin Hnd].
    apply elem_of_cons in H1 as [->|H1]; apply elem_of_cons in H2 as [->|H2]; auto.
    + exfalso. apply Hnin. rewrite Heq. by apply list_elem_of_fmap_2.
    + exfalso. apply Hnin. rewrite <- Heq. by apply list_elem_of_fmap_2.
Qed.

Lemma label_in_filter (P : Row → Prop) `{∀ row, Decision (P row)} (df : list Row) (row : Row) :
  NoDup (file <$> df) → row ∈ df →
  file row ∈ file <$> filter P df ↔ P row.
Proof.
  intros Hnd Hin. split.
  - intros (row' & Heq & [HP Hin']%list_elem_of_filter)%list_elem_of_fmap.
    by rewrite (label_unique df row row' Hnd Hin Hin' Heq).
  - intros HP. apply list_elem_of_fmap_2. by apply list_elem_of_filter.
Qed.

Lemma fmap_ext_in {A B} (g h : A → B) (l : list A) :
  (∀ x, x ∈ l → g x = h x) → g <$> l = h <$> l.
Proof.
  induction l as [|x l IH]; intros Hext; [done|].
  rewrite !fmap_cons. f_equal; [apply Hext; by left|].
  apply IH. intros y Hy. apply Hext. by right.
Qed.

Lemma filter_ext_in {A} (P Q : A → Prop) `{∀ x, Decision (P x)} `{∀ x, Decision (Q x)}
    (l : list A) :
  (∀ x, x ∈ l → P x ↔ Q x) → filter P l = filter Q l.
Proof.
  induction l as [|x l IH]; intros Hext; [done|].
  rewrite !filter_cons.
  assert (filter P l = filter Q l) as ->.
  { apply IH. intros y Hy. apply Hext. by right. }
  destruct (decide (P x)) as [HP|HP], (decide (Q x)) as [HQ|HQ]; try done.
  - exfalso. apply HQ, Hext; [by left | done].
  - exfalso. apply HP, Hext; [by left | done].
Qed.

Lemma filter_all {A} (P : A → Prop) `{∀ x, Decision (P x)} (l : list A) :
  (∀ x, x ∈ l → P x) → filter P l = l.
Proof.
  induction l as [|x l IH]; intros Hall; [done|].
  rewrite filter_cons, decide_True; [|apply Hall; by left].
  f_equal. apply IH. intros y Hy. apply Hall. by right.
Qed.

Lemma filter_none {A} (P : A → Prop) `{∀ x, Decision (P x)} (l : list A) :
  (∀ x, x ∈ l → ¬ P x) → filter P l = [].
Proof.
  induction l as [|x l IH]; intros Hall; [done|].
  rewrite filter_cons, decide_False; [|apply Hall; by left].
  apply IH. intros y Hy. apply Hall. by right.
Qed.

Lemma filter_label_own (df : list Row) (row : Row) :
  NoDup (file <$> df) → row ∈ df → filter (λ r, file r = file row) df = [row].
Proof.
  intros Hnd Hin. induction df as [|z df IH]; [by apply elem_of_nil in Hin|].
  rewrite fmap_cons in Hnd. apply NoDup_cons in Hnd as [Hz Hnd].
  rewrite filter_cons. apply elem_of_cons in Hin as [-> | Hin].
  - rewrite decide_True by done. f_equal. apply filter_none.
    intros y Hy Heq. apply Hz. rewrite <- Heq. by apply list_elem_of_fmap_2.
  - rewrite decide_False; [by apply IH|].
    intros Heq. apply Hz. rewrite Heq. by apply list_elem_of_fmap_2.
Qed.

(** With pairwise distinct labels, assignment through the labels of a
    selection is assignment on the selected rows. *)
Lemma loc_set_selection (P : Row → Prop) `{∀ row, Decision (P row)}
    (upd : Row → Row) (df : list Row) :
  NoDup (file <$> df) →
  loc_set (file <$> filter P df) upd df
  = (λ row, if decide (P row) then upd row else row) <$> df.
Proof.
  intros Hnd. unfold loc_set. apply fmap_ext_in. intros row Hin.
  destruct (decide (P row)) as [HP|HP].
  - rewrite decide_True; [done|]. by apply label_in_filter.
  - rewrite decide_False; [done|]. by rewrite label_in_filter.
Qed.

Lemma drop_rows_selection (P : Row → Prop) `{∀ row, Decision (P row)} (df : list Row) :
  NoDup (file <$> df) →
  drop_rows (file <$> filter P df) df = filter (λ row, ¬ P row) df.
Proof.
  intros Hnd. unfold drop_rows. apply filter_ext_in. intros row Hin.
  by rewrite label_in_filter.
Qed.

Lemma loc_set_labels (labels : list string) (upd : Row → Row) (df : list Row) :
  (∀ row, file (upd row) = file row) →
  file <$> loc_set labels upd df = file <$> df.
Proof.
  intros Hupd. unfold loc_set. rewrite <- list_fmap_compose.
  apply fmap_ext_in. intros row _. simpl. by case_decide.
Qed.

Lemma drop_rows_fmap (labels : list string) (g : Row → Row) (df : list Row) :
  (∀ row, file (g row) = file row) →
  drop_rows labels (g <$> df) = g <$> drop_rows labels df.
Proof.
  intros Hg. unfold drop_rows. induction df as [|row df IH]; [done|].
  rewrite fmap_cons, !filter_cons, Hg, IH.
  by destruct (decide (file row ∉ labels)).
Qed.

Lemma filter_filter_and {A} (P Q : A → Prop) `{∀ x, Decision (P x)} `{∀ x, Decision (Q x)}
    (l : list A) :
  filter P (filter Q l) = filter (λ x, Q x ∧ P x) l.
Proof.
  induction l as [|x l IH]; [done|].
  rewrite !filter_cons. destruct (decide (Q x)) as [HQ|HQ].
  - rewrite filter_cons, IH. destruct (decide (P x)) as [HP|HP].
    + by rewrite decide_True.
    + rewrite decide_False; [done | tauto].
  - rewrite IH. rewrite decide_False; [done | tauto].
Qed.

(** ** save *)

Lemma save_rowwise (f : Folder) (r : DbRecord) :
  NoDup (file <$> dataframe f) →
  drop_rows (file <$> filter (λ row, removed row = true) (scope f r))
    (loc_set (file <$> filter (λ row, created row = true) (scope f r))
       (set_created false) (dataframe f))
  = commit_row r <$> filter (λ row, ¬ (in_scope r row ∧ removed row = true)) (dataframe f).
Proof.
  intros Hnd. unfold scope. rewrite !filter_filter_and.
  rewrite (loc_set_selection _ _ _ Hnd).
  rewrite drop_rows_fmap; [|intros row; by case_decide].
  by rewrite (drop_rows_selection _ _ Hnd).
Qed.

Lemma restore_rowwise (f : Folder) (r : DbRecord) :
  NoDup (file <$> dataframe f) →
  drop_rows (file <$> filter (λ row, created row = true) (scope f r))
    (loc_set (file <$> filter (λ row, removed row = true) (scope f r))
       (set_removed false) (dataframe f))
  = rollback_row r <$> filter (λ row, ¬ (in_scope r row ∧ created row = true)) (dataframe f).
Proof.
  intros Hnd. unfold scope. rewrite !filter_filter_and.
  rewrite (loc_set_selection _ _ _ Hnd).
  rewrite drop_rows_fmap; [|intros row; by case_decide].
  by rewrite (drop_rows_selection _ _ Hnd).
Qed.

Lemma in_scope_set_removed r b row : in_scope r (set_removed b row) ↔ in_scope r row.
Proof. unfold in_scope. by destruct (last (UID r)), (last (key r)). Qed.

Lemma in_scope_set_created r b row : in_scope r (set_created b row) ↔ in_scope r row.
Proof. unfold in_scope. by destruct (last (UID r)), (last (key r)). Qed.

(** The record's own identifier column: for a record of generation 1 to 4
    the rows in scope are those whose generation-G identifier is the last
    component of the record's UID. *)
Lemma in_scope_own_column (r : DbRecord) (row : Row) :
  1 ≤ generation r ≤ 4 →
  in_scope r row ↔ uid_of_row row !! (generation r - 1) = last (UID r).
Proof.
  unfold in_scope, key, generation. intros Hg.
  destruct (UID r) as [|a [|b [|c [|d [|e l]]]]]; simpl in *; try lia; try done.
Qed.

Lemma data_selection (f : Folder) (r : DbRecord) (root : string) :
  path f = Some root →
  data f r = filter (λ row, removed row = false ∧ in_scope r row) (dataframe f).
Proof.
  intros Hp. rewrite <- filter_filter_and. unfold data. rewrite Hp.
  destruct (last (UID r)) as [u|] eqn:Eu; [destruct (last (key r)) as [k|] eqn:Ek|].
  - apply filter_ext_in. intros row _. unfold in_scope. by rewrite Eu, Ek.
  - symmetry. apply filter_all. intros row _. unfold in_scope. by rewrite Eu, Ek.
  - symmetry. apply filter_all. intros row _. unfold in_scope. by rewrite Eu.
Qed.

Lemma folder_eta (f : Folder) :
  mkFolder (path f) (dataframe f) (disk f) (uid_count f) (file_count f) = f.
Proof. by destruct f. Qed.

Lemma save_spec (f : Folder) (r : DbRecord) (root : string) :
  path f = Some root →
  NoDup (file <$> dataframe f) →
  save f r =
    (mkFolder (path f)
       (commit_row r <$> filter (λ row, ¬ (in_scope r row ∧ removed row = true)) (dataframe f))
       (delete_files (file <$> filter (λ row, in_scope r row ∧ removed row = true) (dataframe f))
                     (disk f))
       (uid_count f) (file_count f), Ok tt).
Proof.
  intros Hp Hnd. unfold save. rewrite Hp, (save_rowwise f r Hnd).
  unfold scope. by rewrite !filter_filter_and.
Qed.

Lemma restore_spec (f : Folder) (r : DbRecord) (root : string) :
  path f = Some root →
  NoDup (file <$> dataframe f) →
  restore f r =
    (mkFolder (path f)
       (rollback_row r <$> filter (λ row, ¬ (in_scope r row ∧ created row = true)) (dataframe f))
       (delete_files (file <$> filter (λ row, in_scope r row ∧ created row = true) (dataframe f))
                     (disk f))
       (uid_count f) (file_count f), Ok r).
Proof.
  intros Hp Hnd. unfold restore. rewrite Hp, (restore_rowwise f r Hnd).
  unfold scope. by rewrite !filter_filter_and.
Qed.

(** C2. [save] on a folder with a root path and pairwise distinct file
    labels: the rows of the record's scope flagged [removed] leave the
    index and their files leave the disk, no other file is deleted; the
    rows of the scope flagged [created] that stay get [created = False];
    rows carrying neither flag are unchanged, and so is every row outside
    the scope. *)
Theorem save_commits_staged (f : Folder) (r : DbRecord) (root : string) :
  path f = Some root →
  NoDup (file <$> dataframe f) →
  ∃ f', save f r = (f', Ok tt) ∧
    dataframe f' =
      commit_row r <$> filter (λ row, ¬ (in_scope r row ∧ removed row = true)) (dataframe f) ∧
    (∀ row, row ∈ dataframe f → in_scope r row → removed row = true →
       (file row ∉ file <$> dataframe f') ∧ disk f' !! file row = None) ∧
    (∀ q, (∀ row, row ∈ dataframe f → in_scope r row → removed row = true → file row ≠ q) →
       disk f' !! q = disk f !! q) ∧
    (∀ row, row ∈ dataframe f → in_scope r row → created row = true → removed row = false →
       set_created false row ∈ dataframe f') ∧
    (∀ row, row ∈ dataframe f → created row = false → removed row = false →
       row ∈ dataframe f') ∧
    (∀ row, row ∈ dataframe f → ¬ in_scope r row → row ∈ dataframe f').
Proof.
  intros Hp Hnd. eexists. split; [by apply (save_spec f r root)|]. simpl.
  split; [done|].
  assert (∀ row, row ∈ dataframe f → ¬ (in_scope r row ∧ removed row = true) →
            commit_row r row ∈
              (commit_row r <$>
                 filter (λ row, ¬ (in_scope r row ∧ removed row = true)) (dataframe f)))
    as Hkeep.
  { intros row Hin Hn. apply list_elem_of_fmap_2. by apply list_elem_of_filter. }
  repeat split.
  - intros (row1 & Heq & Hin1)%list_elem_of_fmap.
    apply list_elem_of_fmap in Hin1 as (row' & -> & [Hn Hin']%list_elem_of_filter).
    assert (file row' = file row) as Hlab.
    { rewrite Heq. unfold commit_row. by case_decide. }
    apply Hn. by rewrite (label_unique _ _ _ Hnd Hin' H Hlab).
  - rewrite lookup_delete_files. rewrite decide_True; [done|].
    apply list_elem_of_fmap_2. by apply list_elem_of_filter.
  - intros q Hq. rewrite lookup_delete_files. rewrite decide_False; [done|].
    intros (row & -> & [[Hs Hr] Hin]%list_elem_of_filter)%list_elem_of_fmap.
    by apply (Hq row).
  - intros row Hin Hs Hc Hr.
    assert (commit_row r row = set_created false row) as <-.
    { unfold commit_row. by rewrite decide_True. }
    apply Hkeep; [done|]. intros [_ ?]; congruence.
  - intros row Hin Hc Hr.
    assert (commit_row r row = row) as Heq.
    { unfold commit_row. rewrite decide_False; [done|]. intros [_ ?]; congruence. }
    rewrite <- Heq at 1. apply Hkeep; [done|]. intros [_ ?]; congruence.
  - intros row Hin Hs.
    assert (commit_row r row = row) as Heq.
    { unfold commit_row. rewrite decide_False; [done|]. tauto. }
    rewrite <- Heq at 1. apply Hkeep; [done|]. tauto.
Qed.

(** ** The frame of save and restore *)

Lemma save_state (f : Folder) (r : DbRecord) :
  NoDup (file <$> dataframe f) →
  (save f r).1 = f ∨
  (save f r).1 =
    mkFolder (path f)
      (commit_row r <$> filter (λ row, ¬ (in_scope r row ∧ removed row = true)) (dataframe f))
      (delete_files (file <$> filter (λ row, in_scope r row ∧ removed row = true) (dataframe f))
                    (disk f))
      (uid_count f) (file_count f).
Proof.
  intros Hnd. unfold save. rewrite (save_rowwise f r Hnd).
  unfold scope. rewrite !filter_filter_and.
  destruct (path f);
    destruct (file <$> filter (λ x, in_scope r x ∧ removed x = true) (dataframe f));
    auto.
Qed.

Lemma restore_state (f : Folder) (r : DbRecord) :
  NoDup (file <$> dataframe f) →
  (restore f r).1 = f ∨
  (restore f r).1 =
    mkFolder (path f)
      (rollback_row r <$> filter (λ row, ¬ (in_scope r row ∧ created row = true)) (dataframe f))
      (delete_files (file <$> filter (λ row, in_scope r row ∧ created row = true) (dataframe f))
                    (disk f))
      (uid_count f) (file_count f).
Proof.
  intros Hnd. unfold restore. rewrite (restore_rowwise f r Hnd).
  unfold scope. rewrite !filter_filter_and.
  destruct (path f);
    destruct (file <$> filter (λ x, in_scope r x ∧ created x = true) (dataframe f));
    auto.
Qed.

Lemma frame_rows (g : Row → Row) (P Q : Row → Prop)
    `{∀ row, Decision (P row)} `{∀ row, Decision (Q row)} (df : list Row) :
  (∀ row, Q row → P row ∧ g row = row) →
  (∀ row, ¬ Q row → ¬ Q (g row)) →
  filter Q (g <$> filter P df) = filter Q df.
Proof.
  intros HQ HnQ. induction df as [|row df IH]; [done|].
  rewrite !filter_cons. destruct (decide (P row)) as [HP|HP].
  - rewrite fmap_cons, filter_cons, IH. destruct (decide (Q row)) as [Hq|Hq].
    + destruct (HQ row Hq) as [_ ->]. by rewrite decide_True.
    + rewrite decide_False; [done | by apply HnQ].
  - rewrite IH, decide_False; [done|]. intros Hq. by destruct (HQ row Hq).
Qed.

(** C10. For a record of generation 1 to 4 and pairwise distinct file
    labels, [save] and [restore] leave alone every row whose generation-G
    identifier differs from the record's last UID component: the rows
    outside the scope are the same rows, with the same flags, in the same
    order, and the disk holds the same content at each of their files. *)
Theorem save_restore_frame (f : Folder) (r : DbRecord) :
  1 ≤ generation r ≤ 4 →
  NoDup (file <$> dataframe f) →
  let outside := λ row, uid_of_row row !! (generation r - 1) ≠ last (UID r) in
  filter outside (dataframe (save f r).1) = filter outside (dataframe f) ∧
  filter outside (dataframe (restore f r).1) = filter outside (dataframe f) ∧
  ∀ row, row ∈ dataframe f → outside row →
    disk (save f r).1 !! file row = disk f !! file row ∧
    disk (restore f r).1 !! file row = disk f !! file row.
Proof.
  intros Hg Hnd outside.
  assert (∀ row, outside row ↔ ¬ in_scope r row) as Hout.
  { intros row. unfold outside. by rewrite (in_scope_own_column r row Hg). }
  assert (∀ row (P : Row → Prop) `{∀ x, Decision (P x)},
            row ∈ dataframe f → outside row →
            delete_files (file <$> filter (λ x, in_scope r x ∧ P x) (dataframe f)) (disk f)
              !! file row = disk f !! file row) as Hdisk.
  { intros row P HP Hin Ho. rewrite lookup_delete_files, decide_False; [done|].
    rewrite (label_in_filter _ _ _ Hnd Hin). apply Hout in Ho. tauto. }
  split; [|split].
  - destruct (save_state f r Hnd) as [-> | ->]; [done|]. simpl.
    apply frame_rows.
    + intros row Ho%Hout. split; [tauto|].
      unfold commit_row. rewrite decide_False; [done | tauto].
    + intros row Hn Ho. apply Hn, Hout. apply Hout in Ho.
      unfold commit_row in Ho. case_decide; [|done].
      by rewrite in_scope_set_created in Ho.
  - destruct (restore_state f r Hnd) as [-> | ->]; [done|]. simpl.
    apply frame_rows.
    + intros row Ho%Hout. split; [tauto|].
      unfold rollback_row. rewrite decide_False; [done | tauto].
    + intros row Hn Ho. apply Hn, Hout. apply Hout in Ho.
      unfold rollback_row in Ho. case_decide; [|done].
      by rewrite in_scope_set_removed in Ho.
  - intros row Hin Ho. split.
    + destruct (save_state f r Hnd) as [-> | ->]; [done|]. simpl.
      by apply (Hdisk row (λ x, removed x = true) _).
    + destruct (restore_state f r Hnd) as [-> | ->]; [done|]. simpl.
      by apply (Hdisk row (λ x, created x = true) _).
Qed.

(** ** remove *)

Lemma remove_spec (f : Folder) (r : DbRecord) (root : string) :
  path f = Some root →
  NoDup (file <$> dataframe f) →
  remove f r = (set_dataframe (stage_removal r <$> dataframe f) f, Ok tt).
Proof.
  intros Hp Hnd. unfold remove. rewrite Hp, (data_selection f r root Hp).
  rewrite (loc_set_selection _ _ _ Hnd).
  destruct (file <$> filter (λ row, removed row = false ∧ in_scope r row) (dataframe f))
    as [|l ls] eqn:E; [|done].
  f_equal. unfold set_dataframe. rewrite <- (folder_eta f) at 1. f_equal.
  symmetry. rewrite <- (list_fmap_id (dataframe f)) at 2.
  apply fmap_ext_in. intros row Hin. unfold stage_removal.
  rewrite decide_False; [done|]. intros HP.
  apply (proj2 (label_in_filter (λ x, removed x = false ∧ in_scope r x) _ _ Hnd Hin)) in HP.
  rewrite E in HP.
  by apply elem_of_nil in HP.
Qed.

(** C5 (as the code has it). On a folder with a root path and pairwise
    distinct file labels, [remove] sets [removed = True] on every row of
    the record not yet flagged removed, whether or not it is flagged
    created, and touches nothing else: no row leaves the index, [created]
    is left as it was, and the disk is unchanged.  A staged-created row of
    the record stays in the index carrying both flags. *)
Theorem remove_stages_every_row (f : Folder) (r : DbRecord) (root : string) :
  path f = Some root →
  NoDup (file <$> dataframe f) →
  ∃ f', remove f r = (f', Ok tt) ∧
    dataframe f' = stage_removal r <$> dataframe f ∧
    disk f' = disk f ∧
    file <$> dataframe f' = file <$> dataframe f ∧
    created <$> dataframe f' = created <$> dataframe f ∧
    (∀ row, row ∈ dataframe f → in_scope r row → removed row = false →
       set_removed true row ∈ dataframe f').
Proof.
  intros Hp Hnd. eexists. split; [by apply (remove_spec f r root)|]. simpl.
  repeat split.
  - rewrite <- list_fmap_compose. apply fmap_ext_in. intros row _. simpl.
    unfold stage_removal. by case_decide.
  - rewrite <- list_fmap_compose. apply fmap_ext_in. intros row _. simpl.
    unfold stage_removal. by case_decide.
  - intros row Hin Hs Hr.
    assert (stage_removal r row = set_removed true row) as <-.
    { unfold stage_removal. by rewrite decide_True. }
    by apply list_elem_of_fmap_2.
Qed.

(** C3 (as the code has it). When no row in the record's scope carries a
    staging flag (and the folder has a root path and pairwise distinct file
    labels), [remove] followed by [restore] gives back the folder as it
    was: the same rows with the same flags, the same disk. *)
Theorem remove_restore_committed (f : Folder) (r : DbRecord) (root : string) :
  path f = Some root →
  NoDup (file <$> dataframe f) →
  (∀ row, row ∈ dataframe f → in_scope r row → created row = false ∧ removed row = false) →
  ∃ f1, remove f r = (f1, Ok tt) ∧ restore f1 r = (f, Ok r).
Proof.
  intros Hp Hnd Hclean. eexists. split; [by apply (remove_spec f r root)|].
  set (f1 := set_dataframe (stage_removal r <$> dataframe f) f).
  assert (file <$> dataframe f1 = file <$> dataframe f) as Hlab.
  { simpl. rewrite <- list_fmap_compose. apply fmap_ext_in. intros row _. simpl.
    unfold stage_removal. by case_decide. }
  assert (NoDup (file <$> dataframe f1)) as Hnd1 by by rewrite Hlab.
  rewrite (restore_spec f1 r root Hp Hnd1). f_equal.
  assert (∀ row, row ∈ dataframe f →
            ¬ (in_scope r (stage_removal r row) ∧ created (stage_removal r row) = true))
    as Hnc.
  { intros row Hin [Hs Hc]. unfold stage_removal in Hs, Hc. case_decide as Hd.
    - rewrite in_scope_set_removed in Hs. destruct (Hclean row Hin Hs). simpl in Hc. congruence.
    - destruct (Hclean row Hin Hs). congruence. }
  assert (filter (λ row, in_scope r row ∧ created row = true) (dataframe f1) = []) as Hnone.
  { apply filter_none. intros row' (row & -> & Hin)%list_elem_of_fmap.
    by apply Hnc. }
  rewrite Hnone. simpl.
  rewrite filter_all.
  2:{ intros row' (row & -> & Hin)%list_elem_of_fmap. by apply Hnc. }
  rewrite <- list_fmap_compose.
  etrans; [|apply folder_eta]. unfold delete_files. simpl. f_equal.
  rewrite <- (list_fmap_id (dataframe f)) at 2.
  apply fmap_ext_in. intros row Hin. simpl.
  unfold stage_removal, rollback_row.
  destruct (decide (in_scope r row)) as [Hs|Hs].
  - destruct (Hclean row Hin Hs) as [Hc Hr].
    rewrite (decide_True (P := removed row = false ∧ in_scope r row)); [|done].
    rewrite decide_True; [|by rewrite in_scope_set_removed].
    destruct row; simpl in *; by subst.
  - rewrite (decide_False (P := removed row = false ∧ in_scope r row)); [|tauto].
    rewrite decide_False; [done | tauto].
Qed.

(** ** set_array *)

Lemma pixels_last_slices (pixels_first : bool) (array moved : list nat) :
  pixels_last pixels_first array = Ok moved →
  nr_of_slices moved = prod (non_pixel_dims pixels_first array).
Proof.
  unfold pixels_last, nr_of_slices, non_pixel_dims.
  destruct pixels_first; [|by intros [= ->]].
  destruct array as [|d1 [|d2 t]]; simpl; [done| by intros [= <-] |].
  intros [= <-]. f_equal.
  rewrite !length_app. simpl.
  replace (length t + 1 + 1 - 2) with (length t) by lia.
  rewrite <- (assoc_L (++)). by rewrite take_app_length.
Qed.

(** C9. When the product of the array's non-pixel dimensions differs from
    the number of header datasets, [set_array] raises an exception and
    hands back the folder it was given: index, disk and counters are
    untouched, and the writing stage is never entered. *)
Theorem set_array_shape_guard
    (write_slices :
       Folder → DbRecord → list nat → list nat → bool → Folder * result DbRecord)
    (f : Folder) (self : DbRecord) (array : list nat) (dataset : option (list nat))
    (pixels_first inplace : bool) :
  prod (non_pixel_dims pixels_first array) ≠ prod (header_shape f self dataset) →
  ∃ e, set_array write_slices f self array dataset pixels_first inplace = (f, Raise e).
Proof.
  intros Hne. unfold set_array.
  destruct (pixels_last pixels_first array) as [moved|e] eqn:E; [|by exists e].
  rewrite (pixels_last_slices _ _ _ E).
  exists ValueError. by rewrite decide_True.
Qed.

(** ** unique: distinct values in order of first appearance *)

Section Unique.
Context {A : Type} `{EqDecision A}.
Implicit Types (l seen : list A) (x y : A).

Lemma elem_of_unique_aux seen l x :
  x ∈ unique_aux seen l ↔ x ∈ l ∧ x ∉ seen.
Proof.
  revert seen. induction l as [|z l IH]; intros seen; simpl.
  - rewrite !elem_of_nil. tauto.
  - destruct (decide (z ∈ seen)) as [Hz|Hz].
    + rewrite IH, elem_of_cons. split; [tauto|].
      intros [[->|?] ?]; tauto.
    + rewrite elem_of_cons, IH, !elem_of_cons. split.
      * intros [->|[? ?]]; tauto.
      * intros [[->|?] ?]; [tauto|].
        destruct (decide (x = z)); tauto.
Qed.

Lemma NoDup_unique_aux seen l : NoDup (unique_aux seen l).
Proof.
  revert seen. induction l as [|z l IH]; intros seen; simpl; [constructor|].
  destruct (decide (z ∈ seen)); [apply IH|].
  constructor; [|apply IH].
  rewrite elem_of_unique_aux, elem_of_cons. tauto.
Qed.

Lemma elem_of_unique l x : x ∈ unique l ↔ x ∈ l.
Proof. unfold unique. rewrite elem_of_unique_aux, elem_of_nil. tauto. Qed.

Lemma NoDup_unique l : NoDup (unique l).
Proof. apply NoDup_unique_aux. Qed.

Lemma first_index_head x l : first_index x (x :: l) = Some 0.
Proof. unfold first_index. simpl. by rewrite decide_True. Qed.

Lemma first_index_tail x z l :
  x ≠ z → first_index x (z :: l) = S <$> first_index x l.
Proof.
  intros Hne. unfold first_index. simpl. rewrite decide_False; [|congruence].
  by destruct (list_find (λ y, y = x) l) as [[n y]|].
Qed.

Lemma first_index_elem x l : x ∈ l → is_Some (first_index x l).
Proof.
  induction l as [|z l IH]; [by intros ?%elem_of_nil|].
  intros Hin. destruct (decide (x = z)) as [->|Hne].
  - rewrite first_index_head. eauto.
  - rewrite first_index_tail; [|done].
    apply elem_of_cons in Hin as [?|Hin]; [done|].
    destruct (IH Hin) as [n ->]. eauto.
Qed.

(** The order of [unique l] is the order of first occurrences in [l]. *)
Lemma unique_aux_order seen l i j x y :
  i < j →
  unique_aux seen l !! i = Some x →
  unique_aux seen l !! j = Some y →
  ∃ a b, first_index x l = Some a ∧ first_index y l = Some b ∧ a < b.
Proof.
  revert seen i j. induction l as [|z l IH]; intros seen i j Hij Hi Hj; [done|].
  simpl in Hi, Hj. destruct (decide (z ∈ seen)) as [Hz|Hz].
  - destruct (IH seen i j Hij Hi Hj) as (a & b & Ha & Hb & Hab).
    apply list_elem_of_lookup_2, elem_of_unique_aux in Hi as [_ Hxs].
    apply list_elem_of_lookup_2, elem_of_unique_aux in Hj as [_ Hys].
    exists (S a), (S b). rewrite !first_index_tail, Ha, Hb by congruence.
    repeat split; simpl; [done..|lia].
  - destruct j as [|j]; [lia|]. simpl in Hj.
    pose proof Hj as Hy.
    apply list_elem_of_lookup_2, elem_of_unique_aux in Hy as [Hyl Hys].
    assert (y ≠ z) as Hyz by (intros ->; apply Hys; by left).
    destruct i as [|i]; simpl in Hi.
    + injection Hi as <-.
      destruct (first_index_elem y l Hyl) as [b Hb].
      exists 0, (S b). rewrite first_index_head, first_index_tail, Hb by done.
      repeat split; simpl; [done..|lia].
    + pose proof Hi as Hx.
      apply list_elem_of_lookup_2, elem_of_unique_aux in Hx as [_ Hxs].
      assert (x ≠ z) as Hxz by (intros ->; apply Hxs; by left).
      destruct (IH (z :: seen) i j ltac:(lia) Hi Hj) as (a & b & Ha & Hb & Hab).
      exists (S a), (S b). rewrite !first_index_tail, Ha, Hb by done.
      repeat split; simpl; [done..|lia].
Qed.
End Unique.

Lemma omap_total {A B} (F : A → option B) (l : list A) :
  (∀ x, x ∈ l → is_Some (F x)) →
  length (omap F l) = length l ∧
  ∀ i x, l !! i = Some x → ∃ o, omap F l !! i = Some o ∧ F x = Some o.
Proof.
  induction l as [|z l IH]; intros Htot; [done|].
  destruct (Htot z ltac:(by left)) as [o Ho].
  destruct IH as [IHlen IHlook]; [intros x Hx; apply Htot; by right|].
  simpl. rewrite Ho. simpl. split; [f_equal; exact IHlen|].
  intros [|i] x Hx; simpl in *.
  - injection Hx as <-. eauto.
  - by apply IHlook.
Qed.

(** ** children *)

Lemma object_own_column (row : Row) (g : nat) (k : string) :
  key_columns !! g = Some k →
  generation (object row (g + 1)) = g + 1 ∧
  last (UID (object row (g + 1))) = get_col k row.
Proof. destruct g as [|[|[|[|g]]]]; simpl; intros [= <-]; done. Qed.

Lemma last_columns (desc_columns : list string) (g : nat) (k : string) :
  key_columns !! g = Some k →
  last (take (g + 1) (_columns desc_columns)) = Some k.
Proof. destruct g as [|[|[|[|g]]]]; simpl; intros [= <-]; done. Qed.

Lemma head_filter_Some {A} (P : A → Prop) `{∀ x, Decision (P x)} (l : list A) (x : A) :
  head (filter P l) = Some x → x ∈ l ∧ P x.
Proof.
  intros Hh. assert (x ∈ filter P l) as Hin.
  { destruct (filter P l) as [|y t]; [done|]. injection Hh as ->. by left. }
  apply list_elem_of_filter in Hin. tauto.
Qed.

Lemma head_filter_is_Some {A} (P : A → Prop) `{∀ x, Decision (P x)} (l : list A) (x : A) :
  x ∈ l → P x → is_Some (head (filter P l)).
Proof.
  intros Hin HP. assert (x ∈ filter P l) as Hf by by apply list_elem_of_filter.
  destruct (filter P l) as [|y t]; [by apply elem_of_nil in Hf | by eexists].
Qed.

(** C8. For a record of generation G ≤ 3 in a folder with a root path,
    [children()] without an index returns, after the keyword filter, one
    record of generation G+1 per distinct value of the generation-(G+1)
    identifier among the record's non-removed rows: [ids] are those values
    without repetition and in the order of their first appearance in the
    index, and [kids] holds for each of them the record built from a row
    carrying it. *)
Theorem children_first_appearance
    (desc_columns : list string) (matches : Folder → DbRecord → bool)
    (f : Folder) (self : DbRecord) (root : string) :
  path f = Some root →
  generation self ≤ 3 →
  ∃ k ids kids,
    let rows := filter (λ row, removed row = false ∧ in_scope self row) (dataframe f) in
    let column := get_col k <$> rows in
    key_columns !! generation self = Some k ∧
    NoDup ids ∧
    (∀ v, v ∈ ids ↔ v ∈ column) ∧
    (∀ i j x y, i < j → ids !! i = Some x → ids !! j = Some y →
       ∃ a b, first_index x column = Some a ∧ first_index y column = Some b ∧ a < b) ∧
    length kids = length ids ∧
    (∀ i v, ids !! i = Some v →
       ∃ o row, kids !! i = Some o ∧ row ∈ rows ∧
         o = object row (generation self + 1) ∧
         generation o = generation self + 1 ∧ last (UID o) = v) ∧
    children desc_columns matches f self None = Ok (PyList (List.filter (matches f) kids)).
Proof.
  intros Hp Hg.
  assert (∃ k, key_columns !! generation self = Some k) as [k Hk].
  { apply lookup_lt_is_Some. simpl. lia. }
  set (rows := filter (λ row, removed row = false ∧ in_scope self row) (dataframe f)).
  set (column := get_col k <$> rows).
  set (F := λ rec : option string,
              (λ row, object row (generation self + 1)) <$>
                head (filter (λ row, get_col k row = rec) rows)).
  exists k, (unique column), (omap F (unique column)). simpl.
  fold rows. fold column.
  assert (∀ v, v ∈ unique column → is_Some (F v)) as Htot.
  { intros v (row & -> & Hin)%elem_of_unique%list_elem_of_fmap. unfold F.
    destruct (head_filter_is_Some (λ x, get_col k x = get_col k row) rows row Hin eq_refl)
      as [row' ->]. by eexists. }
  destruct (omap_total F (unique column) Htot) as [Hlen Hlook].
  split; [done|]. split; [apply NoDup_unique|].
  split; [intros v; apply elem_of_unique|].
  split; [intros i j x y; apply unique_aux_order|].
  split; [done|]. split.
  - intros i v Hi. destruct (Hlook i v Hi) as (o & Ho & HF). unfold F in HF.
    destruct (head (filter (λ row, get_col k row = v) rows)) as [row|] eqn:Hh; [|done].
    injection HF as <-. apply head_filter_Some in Hh as [Hin Hv].
    destruct (object_own_column row _ k Hk) as [Hgen Hlast].
    exists (object row (generation self + 1)), row.
    repeat split; [done..|]. by rewrite Hlast.
  - unfold children. rewrite decide_False by lia.
    unfold records. rewrite (data_selection f self root Hp). fold rows.
    replace (generation self + 1) with (S (generation self)) at 1 by lia.
    destruct rows as [|row0 rows0] eqn:Erows; [done|].
    rewrite (last_columns desc_columns _ k Hk). done.
Qed.

(** ** Rows under column assignment *)

Lemma file_set_col k v row : file (set_col k v row) = file row.
Proof. unfold set_col. by repeat case_decide. Qed.

Lemma created_set_col k v row : created (set_col k v row) = created row.
Proof. unfold set_col. by repeat case_decide. Qed.

Lemma removed_set_col k v row : removed (set_col k v row) = removed row.
Proof. unfold set_col. by repeat case_decide. Qed.

Lemma set_col_twice k v1 v2 row : set_col k v2 (set_col k v1 row) = set_col k v2 row.
Proof.
  unfold set_col. repeat case_decide; try done.
  unfold set_cached. simpl. by rewrite insert_insert_eq.
Qed.

Lemma set_cols_preserves (Q : Row → Prop) (cols vals : list string) (row : Row) :
  (∀ k v r, k ∈ cols → Q r → Q (set_col k v r)) →
  Q row → Q (set_cols cols vals row).
Proof.
  unfold set_cols. revert vals row.
  induction cols as [|k cols IH]; intros vals row Hstep HQ; [done|].
  destruct vals as [|v vals]; [done|]. simpl.
  apply IH.
  - intros k' v' r Hk'. apply Hstep. by right.
  - apply Hstep; [by left | done].
Qed.

Lemma file_set_cols cols vals row : file (set_cols cols vals row) = file row.
Proof.
  apply (set_cols_preserves (λ r, file r = file row)); [|done].
  intros k v r _ <-. apply file_set_col.
Qed.

Lemma flags_set_cols cols vals row :
  created (set_cols cols vals row) = created row ∧
  removed (set_cols cols vals row) = removed row.
Proof.
  apply (set_cols_preserves (λ r, created r = created row ∧ removed r = removed row)); [|done].
  intros k v r _ [<- <-]. by rewrite created_set_col, removed_set_col.
Qed.

(** The identifier columns after [df.loc[file, _columns[0:G]] = obj.UID],
    for a UID tuple of length G ≤ 4: the first G identifiers are those of
    the tuple, the others are kept. *)
Lemma uid_of_row_set_cols (desc_columns : list string) (uid : list string) (row : Row) (l : nat) :
  length uid ≤ 4 →
  uid_of_row (set_cols (take (length uid) (_columns desc_columns)) uid row) !! l
  = if decide (l < length uid) then uid !! l else uid_of_row row !! l.
Proof.
  intros Hlen.
  destruct uid as [|a [|b [|c [|d [|e uid]]]]]; simpl in Hlen; try lia;
    destruct l as [|[|[|[|l]]]]; done.
Qed.

(** [df.loc[labels, c] = v] with every label of [df] listed reaches every
    row. *)
Lemma loc_set_all (labels : list string) (upd : Row → Row) (df : list Row) :
  (∀ row, row ∈ df → file row ∈ labels) →
  loc_set labels upd df = upd <$> df.
Proof.
  intros Hall. unfold loc_set. apply fmap_ext_in. intros row Hin.
  by rewrite decide_True by by apply Hall.
Qed.

Lemma loc_set_own_labels (upd : Row → Row) (df : list Row) :
  loc_set (file <$> df) upd df = upd <$> df.
Proof. apply loc_set_all. intros row Hin. by apply list_elem_of_fmap_2. Qed.

Lemma loc_set_compose (labels : list string) (u1 u2 : Row → Row) (df : list Row) :
  (∀ row, file (u1 row) = file row) →
  loc_set labels u2 (loc_set labels u1 df) = loc_set labels (u2 ∘ u1) df.
Proof.
  intros Hu1. unfold loc_set. rewrite <- list_fmap_compose.
  apply fmap_ext_in. intros row _. simpl.
  destruct (decide (file row ∈ labels)) as [Hin|Hnin].
  - by rewrite decide_True by by rewrite Hu1.
  - by rewrite decide_False.
Qed.

Section CopyLemmas.
Variable generate_uid : nat → string.
Variable new_file_name : nat → string.
Variable desc_columns : list string.

Lemma fill_uid_spec (missing c : nat) (uid : list string) :
  fill_uid generate_uid missing c uid
  = (c + missing, uid ++ (generate_uid <$> seq c missing)).
Proof.
  revert c uid. induction missing as [|m IH]; intros c uid; simpl.
  - by rewrite Nat.add_0_r, app_nil_r.
  - rewrite IH. rewrite <- (assoc_L (++)). simpl. f_equal. lia.
Qed.

Lemma init_spec (f : Folder) (uid : list string) (gen : nat) (attrs : list (string * string)) :
  init generate_uid f uid gen attrs
  = (mkFolder (path f) (dataframe f) (disk f) (uid_count f + (gen - length uid))
              (file_count f),
     mkRecord (uid ++ (generate_uid <$> seq (uid_count f) (gen - length uid))) attrs).
Proof. unfold init. by rewrite fill_uid_spec. Qed.

(** One column of the re-keying loop: every distinct value draws a UID,
    and every draw is written on all rows, so the last draw stays. *)
Lemma rekey_column_spec (k : string) (c : nat) (df : list Row) :
  rekey_column generate_uid k (c, df)
  = let m := length (unique (get_col k <$> df)) in
    (c + m, match m with
            | 0 => df
            | S m' => set_col k (generate_uid (c + m')) <$> df
            end).
Proof.
  unfold rekey_column. cbn [fst snd].
  generalize (unique (get_col k <$> df)) as ids. intros ids.
  revert c df. induction ids as [|i ids IH]; intros c df.
  - simpl. by rewrite Nat.add_0_r.
  - cbn [foldl fst snd]. rewrite loc_set_own_labels, IH. cbn zeta.
    cbn [length]. f_equal; [lia|].
    destruct (length ids) as [|m'].
    + by rewrite Nat.add_0_r.
    + rewrite <- list_fmap_compose.
      replace (S c + m') with (c + S m') by lia.
      apply fmap_ext_in. intros row _. simpl. apply set_col_twice.
Qed.

End CopyLemmas.

(** ** The writing loop of _merge_with *)

Section WriteCopies.
Variable desc_columns : list string.

Lemma stamp_cached_preserves (Q : Row → Prop) attrs row :
  (∀ k v r, Q r → Q (set_cached k v r)) → Q row → Q (stamp_cached desc_columns attrs row).
Proof.
  intros Hstep. unfold stamp_cached. revert row.
  induction attrs as [|kv attrs IH]; intros row HQ; [done|].
  simpl. apply IH. case_decide; [by apply Hstep | done].
Qed.

Lemma file_stamp G obj row : file (stamp desc_columns G obj row) = file row.
Proof.
  unfold stamp.
  apply (stamp_cached_preserves (λ r, file r = file row)); [by intros k v r <-|].
  apply file_set_cols.
Qed.

Lemma flags_stamp G obj row :
  created (stamp desc_columns G obj row) = created row ∧
  removed (stamp desc_columns G obj row) = removed row.
Proof.
  unfold stamp.
  apply (stamp_cached_preserves
           (λ r, created r = created row ∧ removed r = removed row)); [done|].
  apply flags_set_cols.
Qed.

Lemma uid_of_row_stamp_cached attrs row :
  uid_of_row (stamp_cached desc_columns attrs row) = uid_of_row row.
Proof.
  apply (stamp_cached_preserves (λ r, uid_of_row r = uid_of_row row)); [|done].
  by intros k v r <-.
Qed.

Lemma stamp_attributes_spec (p : string) (attrs : list (string * string))
    (ds : Dataset) (df : list Row) :
  stamp_attributes desc_columns p attrs (ds, df)
  = (foldl (λ d kv, _set_tags d kv.1 kv.2) ds attrs,
     loc_set [p] (stamp_cached desc_columns attrs) df).
Proof.
  unfold stamp_attributes. revert ds df.
  induction attrs as [|kv attrs IH]; intros ds df.
  - simpl. f_equal. unfold loc_set. rewrite <- (list_fmap_id df) at 1.
    apply fmap_ext_in. intros row _. by case_decide.
  - cbn [foldl fst snd]. rewrite IH. f_equal.
    destruct (decide (kv.1 ∈ drop 4 (_columns desc_columns))) as [Hk|Hk].
    + rewrite loc_set_compose by done.
      unfold loc_set. apply fmap_ext_in. intros row _.
      case_decide; [|done]. unfold stamp_cached. simpl. by rewrite decide_True.
    + unfold loc_set. apply fmap_ext_in. intros row _.
      case_decide; [|done]. unfold stamp_cached. simpl. by rewrite decide_False.
Qed.

(** When the loop ends normally every pass has stamped the rows of its
    label, and the UID tuple had as many components as there are columns
    to fill. *)
Lemma write_copies_rows (G : nat) (obj : DbRecord) (todo : list (string * string))
    (df df' : list Row) (d d' : gmap string Dataset) :
  write_copies desc_columns G obj todo df d = (d', Ok df') →
  df' = foldl (λ acc p, loc_set [p] (stamp desc_columns G obj) acc) df todo.*1 ∧
  (todo ≠ [] → length (take G (_columns desc_columns)) = length (UID obj)).
Proof.
  revert df d. induction todo as [|[p src] todo IH]; intros df d Hw.
  - simpl in Hw. injection Hw as <- <-. done.
  - cbn [write_copies] in Hw.
    destruct (decide (length (take G (_columns desc_columns)) = length (UID obj)))
      as [Hlen|Hlen]; [|done].
    destruct (d !! src) as [ds|]; [|done].
    destruct (filter _ _) as [|row [|row' others]]; [done| |done].
    rewrite stamp_attributes_spec in Hw. cbn [fst snd] in Hw.
    rewrite loc_set_compose in Hw by apply file_set_cols.
    apply IH in Hw as [-> _]. done.
Qed.

(** The loop writes at the labels of the copies only. *)
Lemma write_copies_disk_other (G : nat) (obj : DbRecord) (todo : list (string * string))
    (df : list Row) (d : gmap string Dataset) (q : string) :
  q ∉ todo.*1 →
  (write_copies desc_columns G obj todo df d).1 !! q = d !! q.
Proof.
  revert df d. induction todo as [|[p src] todo IH]; intros df d Hq; [done|].
  cbn [write_copies].
  rewrite fmap_cons, not_elem_of_cons in Hq. destruct Hq as [Hqp Hq].
  case_decide; [|done].
  destruct (d !! src) as [ds|]; [|done].
  destruct (filter _ _) as [|row [|row' others]]; [done| |done].
  rewrite IH by done. by apply lookup_insert_ne.
Qed.

(** Rows under repeated stamping by label. *)
Lemma foldl_loc_set_iter (u : Row → Row) (ps : list string) (df : list Row) :
  (∀ row, file (u row) = file row) →
  let df' := foldl (λ acc p, loc_set [p] u acc) df ps in
  length df' = length df ∧
  ∀ i row, df !! i = Some row →
    ∃ n, df' !! i = Some (Nat.iter n u row) ∧
         (file row ∈ ps → 1 ≤ n) ∧ (file row ∉ ps → n = 0).
Proof.
  intros Hu. revert df. induction ps as [|p ps IH]; intros df; simpl.
  - split; [done|]. intros i row Hi. exists 0. split; [done|].
    split; [by intros ?%elem_of_nil | done].
  - destruct (IH (loc_set [p] u df)) as [Hlen Hrows].
    split; [rewrite Hlen; unfold loc_set; by rewrite length_fmap|].
    intros i row Hi.
    assert (loc_set [p] u df !! i
            = Some (if decide (file row ∈ [p]) then u row else row)) as Hi1.
    { unfold loc_set. by rewrite list_lookup_fmap, Hi. }
    destruct (Hrows i _ Hi1) as (n & Hn & Hge & Hzero).
    destruct (decide (file row ∈ [p])) as [Hp|Hp].
    + exists (S n). rewrite Nat.iter_succ_r. split; [done|].
      split; [lia|]. intros Hnin. exfalso. apply Hnin.
      apply list_elem_of_singleton in Hp. rewrite Hp. by left.
    + exists n. split; [done|]. rewrite list_elem_of_singleton in Hp. split.
      * intros [?|?]%elem_of_cons; [done | auto].
      * intros Hnin. apply Hzero. intros ?. apply Hnin. by right.
Qed.

Lemma iter_preserves (Q : Row → Prop) (u : Row → Row) (n : nat) (row : Row) :
  (∀ r, Q r → Q (u r)) → Q row → Q (Nat.iter n u row).
Proof. intros Hu HQ. induction n as [|n IH]; simpl; auto. Qed.

End WriteCopies.

(** ** _merge_with, stage by stage *)

Section MergeLemmas.
Variable generate_uid : nat → string.
Variable new_file_name : nat → string.
Variable desc_columns : list string.

Local Abbreviation labels' := (copy_labels new_file_name).
Local Abbreviation rekeyed' := (rekeyed generate_uid new_file_name desc_columns).
Local Abbreviation staged' := (staged_copies generate_uid new_file_name desc_columns).

Lemma _merge_with_unfold (f : Folder) (self obj : DbRecord) :
  _merge_with generate_uid new_file_name desc_columns f self obj
  = match path f, data f self with
    | None, _ :: _ => (f, Raise TypeError)
    | _, _ =>
        let n := length (data f self) in
        let out := write_copies desc_columns (generation self) obj
                     (zip (labels' f self) (file <$> data f self))
                     (staged' f self) (disk f) in
        match out.2 with
        | Ok df4 =>
            (mkFolder (path f) (dataframe f ++ df4) out.1
                      ((rekeyed' f self).1 + n) (file_count f + n), Ok (Some obj))
        | Raise e =>
            (mkFolder (path f) (dataframe f) out.1
                      ((rekeyed' f self).1 + n) (file_count f + n), Raise e)
        end
    end.
Proof. reflexivity. Qed.

Lemma foldl_rekey_inv (keys : list string) (c : nat) (df : list Row) :
  let st := foldl (λ acc k, rekey_column generate_uid k acc) (c, df) keys in
  c ≤ st.1 ∧ length st.2 = length df ∧ file <$> st.2 = file <$> df.
Proof.
  revert c df. induction keys as [|k keys IH]; intros c df; [done|].
  cbn [foldl]. rewrite rekey_column_spec. cbn zeta.
  set (m := length (unique (get_col k <$> df))).
  destruct (IH (c + m) (match m with
                        | 0 => df
                        | S m' => set_col k (generate_uid (c + m')) <$> df
                        end)) as (Hc & Hlen & Hfile).
  split; [lia|]. rewrite Hlen, Hfile. destruct m; [done|].
  rewrite length_fmap, <- list_fmap_compose. split; [done|].
  apply fmap_ext_in. intros row _. apply file_set_col.
Qed.

Lemma length_copy_labels f self : length (labels' f self) = length (data f self).
Proof. unfold copy_labels. by rewrite length_fmap, length_seq. Qed.

Lemma rekeyed_inv (f : Folder) (self : DbRecord) :
  uid_count f ≤ (rekeyed' f self).1 ∧
  length (rekeyed' f self).2 = length (data f self) ∧
  file <$> (rekeyed' f self).2 = labels' f self.
Proof.
  unfold rekeyed.
  destruct (foldl_rekey_inv (drop (generation self) (take 3 (_columns desc_columns)))
              (uid_count f) (zip_with set_file (labels' f self) (data f self)))
    as (Hc & Hlen & Hfile).
  split; [done|]. rewrite Hlen, Hfile.
  pose proof (length_copy_labels f self) as Hl.
  revert Hl. generalize (labels' f self) as ls. generalize (data f self) as rows.
  induction rows as [|row rows IH]; intros [|l ls] Hl; simpl in *; try done.
  destruct (IH ls ltac:(lia)) as [H1 H2]. split; by f_equal.
Qed.

Lemma length_staged_copies f self : length (staged' f self) = length (data f self).
Proof.
  unfold staged_copies. rewrite length_fmap, length_zip_with, length_fmap, length_seq.
  destruct (rekeyed_inv f self) as (_ & -> & _). lia.
Qed.

(** Label, flags and SOPInstanceUID of the i-th copy before the writing
    loop. *)
Lemma staged_copies_lookup (f : Folder) (self : DbRecord) (i : nat) (row : Row) :
  staged' f self !! i = Some row →
  file row = new_file_name (file_count f + i) ∧
  created row = true ∧ removed row = false ∧
  SOPInstanceUID row = generate_uid ((rekeyed' f self).1 + i) ∧
  ∃ r0, (rekeyed' f self).2 !! i = Some r0 ∧
        row = set_created true (set_removed false
                (set_col "SOPInstanceUID" (generate_uid ((rekeyed' f self).1 + i)) r0)).
Proof.
  unfold staged_copies. rewrite list_lookup_fmap.
  destruct (zip_with _ _ _ !! i) as [r1|] eqn:Hz; [|done].
  intros [= <-].
  apply lookup_zip_with_Some in Hz as (u & r0 & -> & Hu & Hr0).
  rewrite list_lookup_fmap in Hu.
  destruct (seq _ _ !! i) as [j|] eqn:Hj; [|done].
  apply lookup_seq in Hj as [-> Hi]. injection Hu as <-.
  destruct (rekeyed_inv f self) as (_ & _ & Hfile).
  assert (labels' f self !! i = Some (file r0)) as Hlab.
  { rewrite <- Hfile, list_lookup_fmap, Hr0. done. }
  unfold copy_labels in Hlab. rewrite list_lookup_fmap in Hlab.
  destruct (seq (file_count f) _ !! i) as [j|] eqn:Hj; [|done].
  apply lookup_seq in Hj as [-> _]. injection Hlab as Hlab.
  repeat split; [by simpl|by eexists].
Qed.

Lemma file_staged_copies f self : file <$> staged' f self = labels' f self.
Proof.
  unfold staged_copies. destruct (rekeyed_inv f self) as (_ & Hlen & <-).
  rewrite <- list_fmap_compose.
  revert Hlen. generalize (rekeyed' f self).2 as rows.
  generalize (rekeyed' f self).1 as c.
  generalize (length (data f self)) as n.
  intros n c rows. revert n c.
  induction rows as [|row rows IH]; intros [|n] c Hlen; simpl in *; try done.
  f_equal. apply (IH n (S c)). lia.
Qed.

Lemma fst_todo f self :
  (zip (labels' f self) (file <$> data f self)).*1 = labels' f self.
Proof. apply fst_zip. by rewrite length_copy_labels, length_fmap. Qed.

Lemma written_copies (f : Folder) (self obj : DbRecord)
    (d' : gmap string Dataset) (df4 : list Row) :
  write_copies desc_columns (generation self) obj
    (zip (labels' f self) (file <$> data f self))
    (staged' f self) (disk f) = (d', Ok df4) →
  length df4 = length (data f self) ∧
  (data f self ≠ [] →
     length (take (generation self) (_columns desc_columns)) = length (UID obj)) ∧
  ∀ i row3, staged' f self !! i = Some row3 →
    ∃ n, df4 !! i = Some (Nat.iter n (stamp desc_columns (generation self) obj) row3) ∧
         1 ≤ n.
Proof.
  intros Hw. apply write_copies_rows in Hw as [Hdf Hlen].
  rewrite fst_todo in Hdf.
  destruct (foldl_loc_set_iter (stamp desc_columns (generation self) obj)
              (labels' f self) (staged' f self)
              (file_stamp desc_columns (generation self) obj)) as [Hl Hrows].
  rewrite <- Hdf in Hl, Hrows.
  split; [by rewrite Hl, length_staged_copies|]. split.
  - intros Hne. apply Hlen. intros Hz.
    apply (f_equal length) in Hz.
    rewrite length_zip, length_copy_labels, length_fmap in Hz. simpl in Hz.
    destruct (data f self); [done | simpl in Hz; lia].
  - intros i row3 Hi. destruct (Hrows i row3 Hi) as (n & Hn & Hge & _).
    exists n. split; [done|]. apply Hge.
    rewrite <- file_staged_copies. apply list_elem_of_fmap_2.
    by eapply list_elem_of_lookup_2.
Qed.

(** [_merge_with] ending normally: the index grows by the stamped
    copies; the source rows are as they were. *)
Lemma merge_with_Ok (f f' : Folder) (self obj : DbRecord) (res : option DbRecord) :
  _merge_with generate_uid new_file_name desc_columns f self obj = (f', Ok res) →
  res = Some obj ∧ path f' = path f ∧
  uid_count f' = (rekeyed' f self).1 + length (data f self) ∧
  file_count f' = file_count f + length (data f self) ∧
  disk f' = (write_copies desc_columns (generation self) obj
               (zip (labels' f self) (file <$> data f self))
               (staged' f self) (disk f)).1 ∧
  ∃ df4, dataframe f' = dataframe f ++ df4 ∧
    length df4 = length (data f self) ∧
    (data f self ≠ [] →
       length (take (generation self) (_columns desc_columns)) = length (UID obj)) ∧
    ∀ i row3, staged' f self !! i = Some row3 →
      ∃ n, df4 !! i = Some (Nat.iter n (stamp desc_columns (generation self) obj) row3) ∧
           1 ≤ n.
Proof.
  rewrite _merge_with_unfold. intros Hm.
  destruct (write_copies desc_columns (generation self) obj
              (zip (labels' f self) (file <$> data f self))
              (staged' f self) (disk f)) as [d' [df4|e]] eqn:Hw.
  - pose proof (written_copies f self obj d' df4 Hw) as Hcopies.
    assert ((f', (Ok res : result (option DbRecord)))
            = (mkFolder (path f) (dataframe f ++ df4) d'
                        ((rekeyed' f self).1 + length (data f self))
                        (file_count f + length (data f self)), Ok (Some obj))) as Heq.
    { rewrite <- Hm. destruct (path f); destruct (data f self) eqn:Hd; done. }
    injection Heq as -> ->. simpl. repeat (split; [done|]).
    exists df4. by split.
  - exfalso. cbn [fst snd] in Hm.
    destruct (path f); destruct (data f self); done.
Qed.

(** [_merge_with] ending in an exception leaves the index as it was. *)
Lemma merge_with_Raise (f f' : Folder) (self obj : DbRecord) (e : exn) :
  _merge_with generate_uid new_file_name desc_columns f self obj = (f', Raise e) →
  dataframe f' = dataframe f ∧ path f' = path f ∧ uid_count f ≤ uid_count f'.
Proof.
  rewrite _merge_with_unfold. destruct (rekeyed_inv f self) as (Hc & _ & _).
  destruct (path f) as [root|] eqn:Hp; destruct (data f self) as [|r0 rows] eqn:Hd;
    cbn zeta; try (intros [= <- <-]; by rewrite Hp);
    destruct (write_copies _ _ _ _ _ _) as [d' [df4|e']] eqn:Hw; cbn [fst snd];
    try done; intros [= <- <-]; simpl; (repeat split; [done..|lia]).
Qed.

(** Whatever the outcome, files at labels other than those of the copies
    are as they were. *)
Lemma merge_with_disk_other (f : Folder) (self obj : DbRecord) (q : string) :
  q ∉ labels' f self →
  disk (_merge_with generate_uid new_file_name desc_columns f self obj).1 !! q
  = disk f !! q.
Proof.
  intros Hq. rewrite _merge_with_unfold.
  pose proof (write_copies_disk_other desc_columns (generation self) obj
                (zip (labels' f self) (file <$> data f self))
                (staged' f self) (disk f) q) as Hw.
  rewrite fst_todo in Hw. specialize (Hw Hq).
  destruct (path f); destruct (data f self); cbn zeta; try done;
    destruct (write_copies _ _ _ _ _ _) as [d' [df4|e']]; by simpl in *.
Qed.

End MergeLemmas.

(** ** copy_to *)

Section CopyTo.
Variable generate_uid : nat → string.
Variable new_file_name : nat → string.
Variable desc_columns : list string.

Local Abbreviation stamp' := (stamp desc_columns).
Local Abbreviation staged' := (staged_copies generate_uid new_file_name desc_columns).
Local Abbreviation copy_to' := (copy_to generate_uid new_file_name desc_columns).
Local Abbreviation merge' := (_merge_with generate_uid new_file_name desc_columns).

Lemma copy_to_unfold (f : Folder) (self ancestor : DbRecord) :
  generation self ≠ 0 →
  copy_to' f self ancestor
  = merge' (after_init f self ancestor) self (copy_record generate_uid f self ancestor).
Proof.
  intros Hg. unfold copy_to. rewrite decide_False by done.
  by rewrite init_spec.
Qed.

Lemma stamp_uid (G : nat) (obj : DbRecord) (row : Row) (l : nat) :
  length (UID obj) = G → G ≤ 4 →
  uid_of_row (stamp' G obj row) !! l
  = if decide (l < G) then UID obj !! l else uid_of_row row !! l.
Proof.
  intros <- Hle. unfold stamp.
  rewrite uid_of_row_stamp_cached. by apply uid_of_row_set_cols.
Qed.

Lemma iter_stamp_uid (G : nat) (obj : DbRecord) (row : Row) (n l : nat) :
  length (UID obj) = G → G ≤ 4 →
  uid_of_row (Nat.iter n (stamp' G obj) row) !! l
  = if decide (l < G ∧ 1 ≤ n) then UID obj !! l else uid_of_row row !! l.
Proof.
  intros Hlen Hle. induction n as [|n IH]; simpl.
  - rewrite decide_False; [done | lia].
  - rewrite stamp_uid by done. destruct (decide (l < G)) as [Hl|Hl].
    + rewrite decide_True; [done | lia].
    + rewrite IH. by rewrite !decide_False by lia.
Qed.

Lemma iter_stamp_flags (G : nat) (obj : DbRecord) (row : Row) (n : nat) :
  file (Nat.iter n (stamp' G obj) row) = file row ∧
  created (Nat.iter n (stamp' G obj) row) = created row ∧
  removed (Nat.iter n (stamp' G obj) row) = removed row.
Proof.
  apply (iter_preserves
           (λ r, file r = file row ∧ created r = created row ∧ removed r = removed row));
    [|done].
  intros r (<- & <- & <-). rewrite file_stamp.
  destruct (flags_stamp desc_columns G obj r) as [-> ->]. done.
Qed.

(** The rows that a successful [_merge_with] appends, for a target UID
    of the source's generation (at most 4). *)
Lemma merge_with_new_rows (f f' : Folder) (self obj : DbRecord) (res : option DbRecord) :
  generation self ≤ 4 →
  merge' f self obj = (f', Ok res) →
  uid_count f' = (rekeyed generate_uid new_file_name desc_columns f self).1
                 + length (data f self) ∧
  uid_count f ≤ (rekeyed generate_uid new_file_name desc_columns f self).1 ∧
  path f' = path f ∧
  ∃ new, dataframe f' = dataframe f ++ new ∧
    length new = length (data f self) ∧
    ∀ i row, new !! i = Some row →
      generation obj = generation self ∧
      file row = new_file_name (file_count f + i) ∧
      created row = true ∧ removed row = false ∧
      (∀ l, l < generation self → uid_of_row row !! l = UID obj !! l) ∧
      ∃ row3, staged' f self !! i = Some row3 ∧
        ∀ l, generation self ≤ l → uid_of_row row !! l = uid_of_row row3 !! l.
Proof.
  intros Hle Hm.
  apply merge_with_Ok in Hm as (_ & Hp & Hcount & _ & _ & new & Hdf & Hlen & Hcols & Hrows).
  split; [done|]. split; [apply rekeyed_inv|]. split; [done|].
  exists new. split; [done|]. split; [done|].
  intros i row Hi.
  assert (i < length (staged' f self)) as Hlt.
  { rewrite length_staged_copies, <- Hlen. by eapply lookup_lt_Some. }
  apply lookup_lt_is_Some in Hlt as [row3 H3].
  destruct (Hrows i row3 H3) as (n & Hn & Hge).
  rewrite Hi in Hn. injection Hn as ->.
  assert (length (UID obj) = generation self) as HG.
  { rewrite <- Hcols.
    - rewrite length_take. unfold _columns. rewrite length_app. simpl. lia.
    - intros Hnil. rewrite Hnil in Hlen. destruct new; [done | simpl in Hlen; lia]. }
  destruct (staged_copies_lookup _ _ _ f self i row3 H3) as (Hfile & Hc & Hr & _).
  destruct (iter_stamp_flags (generation self) obj row3 n) as (-> & -> & ->).
  repeat split; try done.
  - intros l Hl. rewrite iter_stamp_uid by done. by rewrite decide_True.
  - exists row3. split; [done|]. intros l Hl. rewrite iter_stamp_uid by done.
    rewrite decide_False; [done | lia].
Qed.

(** The rows that a successful [copy_to] appends, for a source of
    generation 1 to 4 and a destination of a higher level. *)
Lemma copy_to_new_rows (f f1 : Folder) (self ancestor : DbRecord)
    (copy : option DbRecord) :
  1 ≤ generation self ≤ 4 →
  generation ancestor < generation self →
  copy_to' f self ancestor = (f1, Ok copy) →
  path f1 = path f ∧
  uid_count f + (generation self - generation ancestor)
    ≤ (rekeyed generate_uid new_file_name desc_columns
         (after_init f self ancestor) self).1 ∧
  uid_count f1 = (rekeyed generate_uid new_file_name desc_columns
                    (after_init f self ancestor) self).1 + length (data f self) ∧
  ∃ new, dataframe f1 = dataframe f ++ new ∧
    length new = length (data f self) ∧
    ∀ i row, new !! i = Some row →
      file row = new_file_name (file_count f + i) ∧
      created row = true ∧ removed row = false ∧
      (∀ l u, UID ancestor !! l = Some u → uid_of_row row !! l = Some u) ∧
      (∀ l, generation ancestor ≤ l < generation self →
         uid_of_row row !! l
         = Some (generate_uid (uid_count f + (l - generation ancestor)))) ∧
      ∃ row3, staged' (after_init f self ancestor) self !! i = Some row3 ∧
        ∀ l, generation self ≤ l → uid_of_row row !! l = uid_of_row row3 !! l.
Proof.
  intros HG Ha Hc. rewrite copy_to_unfold in Hc by lia.
  apply merge_with_new_rows in Hc as (Hcount & Hc1 & Hp & new & Hdf & Hlen & Hrows);
    [|lia].
  split; [done|]. split; [done|]. split; [done|].
  exists new. split; [done|]. split; [done|].
  intros i row Hi.
  destruct (Hrows i row Hi) as (_ & Hfile & Hcr & Hrm & Hobj & row3 & H3 & Hkeep).
  repeat split; try done.
  - intros l u Hl. rewrite Hobj by (apply lookup_lt_Some in Hl; unfold generation in *; lia).
    simpl. by rewrite lookup_app_l_Some with (x := u).
  - intros l Hl. rewrite Hobj by lia. simpl. unfold generation in *.
    rewrite lookup_app_r by lia.
    by rewrite list_lookup_fmap, lookup_seq_lt by lia.
  - by exists row3.
Qed.

End CopyTo.

(** ** Staging flags along runs *)

Lemma loc_set_rows (labels : list string) (upd : Row → Row) (df : list Row) (row : Row) :
  row ∈ loc_set labels upd df →
  ∃ row0, row0 ∈ df ∧
    ((file row0 ∈ labels ∧ row = upd row0) ∨ ((file row0 ∉ labels) ∧ row = row0)).
Proof.
  unfold loc_set. intros (row0 & -> & Hin)%list_elem_of_fmap.
  exists row0. split; [done|]. case_decide; auto.
Qed.

Lemma drop_rows_subset (labels : list string) (df : list Row) (row : Row) :
  row ∈ drop_rows labels df → row ∈ df.
Proof. unfold drop_rows. by intros [_ ?]%list_elem_of_filter. Qed.

Lemma remove_rows (f : Folder) (r : DbRecord) (row : Row) :
  row ∈ dataframe (remove f r).1 →
  row ∈ dataframe f ∨
  ∃ row0, row0 ∈ dataframe f ∧ (file row0 ∈ file <$> data f r) ∧ row = set_removed true row0.
Proof.
  unfold remove.
  destruct (path f); destruct (file <$> data f r) as [|l ls] eqn:E; simpl; auto.
  intros (row0 & Hin & [[Hl ->] | [_ ->]])%loc_set_rows; [|auto].
  right. by exists row0.
Qed.

Lemma save_rows (f : Folder) (r : DbRecord) (row : Row) :
  row ∈ dataframe (save f r).1 →
  ∃ row0, row0 ∈ dataframe f ∧ (row = row0 ∨ row = set_created false row0).
Proof.
  unfold save.
  destruct (path f);
    destruct (file <$> filter (λ row, removed row = true) (scope f r)); simpl;
    try (intros Hin; exists row; by auto);
    intros (row0 & Hin & [[_ ->] | [_ ->]])%drop_rows_subset%loc_set_rows; eauto.
Qed.

Lemma restore_rows (f : Folder) (r : DbRecord) (row : Row) :
  row ∈ dataframe (restore f r).1 →
  ∃ row0, row0 ∈ dataframe f ∧ (row = row0 ∨ row = set_removed false row0).
Proof.
  unfold restore.
  destruct (path f);
    destruct (file <$> filter (λ row, created row = true) (scope f r)); simpl;
    try (intros Hin; exists row; by auto);
    intros (row0 & Hin & [[_ ->] | [_ ->]])%drop_rows_subset%loc_set_rows; eauto.
Qed.

Section Runs.
Variable generate_uid : nat → string.
Variable new_file_name : nat → string.
Variable desc_columns : list string.

Local Abbreviation copy_to' := (copy_to generate_uid new_file_name desc_columns).
Local Abbreviation move_to' := (move_to generate_uid new_file_name desc_columns).
Local Abbreviation merge_with' := (merge_with generate_uid new_file_name desc_columns).
Local Abbreviation merge' := (_merge_with generate_uid new_file_name desc_columns).

(** Every row that [_merge_with] adds is staged created and not removed;
    the rows already there are kept as they were. *)
Lemma merge_rows (f : Folder) (self obj : DbRecord) (row : Row) :
  row ∈ dataframe (merge' f self obj).1 →
  row ∈ dataframe f ∨ (created row = true ∧ removed row = false).
Proof.
  destruct (merge' f self obj) as [f' [res|e]] eqn:Hm; simpl.
  - apply merge_with_Ok in Hm as (_ & _ & _ & _ & _ & new & -> & Hlen & _ & Hrows).
    intros [?|Hin]%elem_of_app; [by left | right].
    apply list_elem_of_lookup in Hin as [i Hi].
    assert (i < length (staged_copies generate_uid new_file_name desc_columns f self))
      as Hlt.
    { rewrite length_staged_copies, <- Hlen. by eapply lookup_lt_Some. }
    apply lookup_lt_is_Some in Hlt as [row3 H3].
    destruct (Hrows i row3 H3) as (n & Hn & _).
    rewrite Hi in Hn. injection Hn as ->.
    destruct (staged_copies_lookup _ _ _ f self i row3 H3) as (_ & Hc & Hr & _).
    destruct (iter_stamp_flags desc_columns (generation self) obj row3 n)
      as (_ & -> & ->). done.
  - apply merge_with_Raise in Hm as (-> & _). by left.
Qed.

Lemma copy_to_rows (f : Folder) (self ancestor : DbRecord) (row : Row) :
  row ∈ dataframe (copy_to' f self ancestor).1 →
  row ∈ dataframe f ∨ (created row = true ∧ removed row = false).
Proof.
  unfold copy_to. case_decide; [by left|]. rewrite init_spec. cbn [fst snd].
  intros Hin. by apply merge_rows in Hin.
Qed.

Lemma merge_with_rows (f : Folder) (self obj : DbRecord) (row : Row) :
  row ∈ dataframe (merge_with' f self obj).1 →
  row ∈ dataframe f ∨ (created row = true ∧ removed row = false).
Proof. unfold merge_with. case_decide; [by left|]. apply merge_rows. Qed.

(** [move_to] is [copy_to] followed, when the copy succeeds, by
    [remove]. *)
Lemma move_to_state (f : Folder) (self ancestor : DbRecord) :
  (move_to' f self ancestor).1 = (copy_to' f self ancestor).1 ∨
  (move_to' f self ancestor).1 = (remove (copy_to' f self ancestor).1 self).1.
Proof.
  unfold move_to. destruct (copy_to' f self ancestor) as [f1 [copy|e]]; simpl; [|by left].
  right. by destruct (remove f1 self) as [f2 [[]|e]].
Qed.

Lemma remove_exclusive (f : Folder) (r : DbRecord) :
  removal_guard f r → staging_exclusive f → staging_exclusive (remove f r).1.
Proof.
  unfold staging_exclusive. rewrite !Forall_forall. intros Hguard Hinv row Hin.
  apply remove_rows in Hin as [Hin | (row0 & Hin & Hl & ->)]; [by apply Hinv|].
  simpl. rewrite (Hguard row0 Hin Hl). by intros [? _].
Qed.

Lemma added_exclusive (f f' : Folder) :
  (∀ row, row ∈ dataframe f' →
     row ∈ dataframe f ∨ (created row = true ∧ removed row = false)) →
  staging_exclusive f → staging_exclusive f'.
Proof.
  unfold staging_exclusive. rewrite !Forall_forall. intros Hrows Hinv row Hin.
  destruct (Hrows row Hin) as [Hold | [_ Hr]]; [by apply Hinv|].
  rewrite Hr. by intros [_ ?].
Qed.

End Runs.

(** C4 (as the code has it). From a folder in which no row carries both
    flags, every folder reached by [new_*] insertions, [copy_to],
    [merge_with], [save], [restore], and by [remove] or [move_to] taken on
    records whose marked rows are not staged created, has no row with
    [created] and [removed] both set. *)
Theorem staging_exclusive_reachable
    (generate_uid new_file_name : nat → string) (desc_columns : list string)
    (f0 f : Folder) :
  staging_exclusive f0 →
  reachable generate_uid new_file_name desc_columns f0 f →
  staging_exclusive f.
Proof.
  intros H0 Hreach. induction Hreach as
    [ | f rows _ IH | f self ancestor _ IH | f self obj _ IH | f r _ IH | f r _ IH
      | f r _ IH Hguard | f self ancestor _ IH Hguard ].
  - done.
  - unfold staging_exclusive, stage_created in *. simpl.
    apply Forall_app. split; [done|].
    apply Forall_fmap, Forall_forall. intros row _. simpl. by intros [_ ?].
  - eapply added_exclusive; [|exact IH]. apply copy_to_rows.
  - eapply added_exclusive; [|exact IH]. apply merge_with_rows.
  - unfold staging_exclusive in *. rewrite Forall_forall in *. intros row Hin.
    apply save_rows in Hin as (row0 & Hin & [-> | ->]); [by apply IH|].
    simpl. by intros [? _].
  - unfold staging_exclusive in *. rewrite Forall_forall in *. intros row Hin.
    apply restore_rows in Hin as (row0 & Hin & [-> | ->]); [by apply IH|].
    simpl. by intros [_ ?].
  - by apply remove_exclusive.
  - assert (staging_exclusive
              (copy_to generate_uid new_file_name desc_columns f self ancestor).1) as Hc.
    { eapply added_exclusive; [|exact IH]. apply copy_to_rows. }
    destruct (move_to_state generate_uid new_file_name desc_columns f self ancestor)
      as [-> | ->]; [done|].
    by apply remove_exclusive.
Qed.

(** ** Uniqueness of identifiers *)

Lemma sop_unique_tuples (f : Folder) : sop_unique f → tuples_unique f.
Proof.
  unfold sop_unique, tuples_unique. intros Hnd.
  apply (NoDup_fmap_1 (λ t : list string, t !! 3)).
  rewrite <- list_fmap_compose.
  rewrite (fmap_ext_in ((λ t : list string, t !! 3) ∘ uid_of_row) (Some ∘ SOPInstanceUID))
    by done.
  rewrite list_fmap_compose. by apply (NoDup_fmap_2 Some).
Qed.

Lemma filter_NoDup_le_1 {A B} `{EqDecision B} (g : A → B) (P : A → Prop)
    `{∀ x, Decision (P x)} (v : B) (l : list A) :
  NoDup (g <$> l) → (∀ x, P x → g x = v) → length (filter P l) ≤ 1.
Proof.
  intros Hnd HP. induction l as [|x l IH]; [simpl; lia|].
  rewrite fmap_cons in Hnd. apply NoDup_cons in Hnd as [Hx Hnd].
  rewrite filter_cons. destruct (decide (P x)) as [Hpx|Hpx]; [|by apply IH].
  rewrite filter_none; [simpl; lia|].
  intros y Hy Hpy. apply Hx. rewrite (HP x Hpx), <- (HP y Hpy).
  by apply list_elem_of_fmap_2.
Qed.

Section Uniqueness.
Variable generate_uid : nat → string.
Variable new_file_name : nat → string.
Variable desc_columns : list string.
Hypothesis generate_uid_inj : ∀ i j, generate_uid i = generate_uid j → i = j.

Local Abbreviation copy_to' := (copy_to generate_uid new_file_name desc_columns).
Local Abbreviation merge_with' := (merge_with generate_uid new_file_name desc_columns).
Local Abbreviation merge' := (_merge_with generate_uid new_file_name desc_columns).

Lemma new_rows_unique (f f' : Folder) (new : list Row) (sops : list string) :
  sop_unique f →
  dataframe f' = dataframe f ++ new →
  SOPInstanceUID <$> new = sops →
  NoDup sops →
  (∀ u, u ∈ sops → u ∉ SOPInstanceUID <$> dataframe f) →
  sop_unique f'.
Proof.
  unfold sop_unique. intros Hnd -> <- Hnew Hdisj.
  rewrite fmap_app. apply NoDup_app. split; [done|]. split; [|done].
  intros u Hu Hu'. by apply (Hdisj u).
Qed.

(** [_merge_with] on a record of generation at most 3: every copy gets a
    SOPInstanceUID drawn for it. *)
Lemma merge_unique_upto_series (f : Folder) (self obj : DbRecord) :
  generation self ≤ 3 →
  sop_unique f ∧ generator_fresh generate_uid f →
  sop_unique (merge' f self obj).1 ∧ generator_fresh generate_uid (merge' f self obj).1.
Proof.
  intros HG [Hnd Hfresh].
  destruct (merge' f self obj) as [f' [res|e]] eqn:Hm; simpl.
  - apply merge_with_new_rows in Hm as (Hcount & Hc1 & _ & new & Hdf & Hlen & Hrows); [|lia].
    set (c1 := (rekeyed generate_uid new_file_name desc_columns f self).1) in *.
    assert (∀ i row, new !! i = Some row → SOPInstanceUID row = generate_uid (c1 + i))
      as Hsop.
    { intros i row Hi.
      destruct (Hrows i row Hi) as (_ & _ & _ & _ & _ & row3 & H3 & Hkeep).
      destruct (staged_copies_lookup _ _ _ f self i row3 H3) as (_ & _ & _ & Hs & _).
      specialize (Hkeep 3 ltac:(lia)). simpl in Hkeep. injection Hkeep as ->.
      exact Hs. }
    assert (SOPInstanceUID <$> new = generate_uid <$> seq c1 (length (data f self)))
      as Hsops.
    { apply list_eq. intros i. rewrite !list_lookup_fmap.
      destruct (new !! i) as [row|] eqn:Hi; simpl.
      - rewrite (Hsop i row Hi).
        assert (i < length (data f self)) as Hlt
          by (rewrite <- Hlen; by eapply lookup_lt_Some).
        by rewrite lookup_seq_lt.
      - apply lookup_ge_None in Hi. rewrite lookup_seq_ge; [done | lia]. }
    split.
    + eapply new_rows_unique; [exact Hnd | exact Hdf | exact Hsops | |].
      * apply NoDup_fmap_2_strong; [|apply NoDup_seq].
        intros ? ? _ _. apply generate_uid_inj.
      * intros u (j & -> & [Hj _]%elem_of_seq)%list_elem_of_fmap
                 (row & Heq & Hin)%list_elem_of_fmap.
        apply (Hfresh j row); [lia | done | done].
    + intros j row Hj. rewrite Hdf. intros [Hin|Hin]%elem_of_app.
      * apply Hfresh; [lia | done].
      * apply list_elem_of_lookup in Hin as [i Hi]. rewrite (Hsop i row Hi).
        intros Heq%generate_uid_inj.
        apply lookup_lt_Some in Hi. lia.
  - apply merge_with_Raise in Hm as (Hdf & _ & Hc).
    unfold sop_unique. rewrite Hdf. split; [done|].
    intros j row Hj. rewrite Hdf. apply Hfresh. lia.
Qed.

(** An Instance record selects at most one row when SOPInstanceUIDs are
    unique, unless the in-memory branch of [data] hands out the whole
    index. *)
Lemma instance_rows (f : Folder) (self : DbRecord) (root : string) :
  path f = Some root → generation self = 4 → sop_unique f →
  length (data f self) ≤ 1.
Proof.
  intros Hp HG Hnd. rewrite (data_selection f self root Hp).
  destruct (last (UID self)) as [u|] eqn:Hu.
  - apply (filter_NoDup_le_1 SOPInstanceUID _ u); [done|].
    intros row [_ Hs]. apply in_scope_own_column in Hs; [|lia].
    rewrite HG, Hu in Hs. simpl in Hs. congruence.
  - apply last_None in Hu. unfold generation in HG. by rewrite Hu in HG.
Qed.

(** [_merge_with] on an Instance record towards a target whose
    SOPInstanceUID is new to the index and out of the generator's
    future. *)
Lemma merge_unique_instance (f : Folder) (self obj : DbRecord) (u : string) :
  generation self = 4 →
  UID obj !! 3 = Some u →
  u ∉ SOPInstanceUID <$> dataframe f →
  (∀ j, uid_count f ≤ j → generate_uid j ≠ u) →
  sop_unique f ∧ generator_fresh generate_uid f →
  sop_unique (merge' f self obj).1 ∧ generator_fresh generate_uid (merge' f self obj).1.
Proof.
  intros HG Hu Hnew Hfuture [Hnd Hfresh].
  destruct (merge' f self obj) as [f' [res|e]] eqn:Hm; simpl.
  - assert (length (data f self) ≤ 1) as Hone.
    { destruct (path f) as [root|] eqn:Hp; [by eapply instance_rows|].
      rewrite _merge_with_unfold, Hp in Hm.
      destruct (data f self); [simpl; lia | done]. }
    apply merge_with_new_rows in Hm as (Hcount & Hc1 & _ & new & Hdf & Hlen & Hrows); [|lia].
    assert (∀ i row, new !! i = Some row → SOPInstanceUID row = u) as Hsop.
    { intros i row Hi. destruct (Hrows i row Hi) as (_ & _ & _ & _ & Hobj & _).
      specialize (Hobj 3 ltac:(lia)). simpl in Hobj. congruence. }
    split.
    + eapply new_rows_unique; [exact Hnd | exact Hdf | reflexivity | |].
      * destruct new as [|r1 [|r2 new]]; simpl in *; [constructor | | lia].
        apply NoDup_singleton.
      * intros u' (row & -> & Hin)%list_elem_of_fmap.
        apply list_elem_of_lookup in Hin as [i Hi]. by rewrite (Hsop i row Hi).
    + intros j row Hj. rewrite Hdf. intros [Hin|Hin]%elem_of_app.
      * apply Hfresh; [lia | done].
      * apply list_elem_of_lookup in Hin as [i Hi]. rewrite (Hsop i row Hi).
        intros Heq. apply (Hfuture j); [lia | done].
  - apply merge_with_Raise in Hm as (Hdf & _ & Hc).
    unfold sop_unique. rewrite Hdf. split; [done|].
    intros j row Hj. rewrite Hdf. apply Hfresh. lia.
Qed.

Lemma uid_run_invariant (f0 f : Folder) :
  sop_unique f0 → generator_fresh generate_uid f0 →
  uid_run generate_uid new_file_name desc_columns f0 f →
  sop_unique f ∧ generator_fresh generate_uid f.
Proof.
  intros Hnd Hfresh Hrun.
  induction Hrun as [ | f _ IH | f self ancestor _ IH HG | f self obj _ IH HG ].
  - done.
  - destruct IH as [IHnd IHfresh]. split; [done|].
    intros j row Hj Hin. apply IHfresh; [simpl in Hj; lia | done].
  - unfold copy_to. case_decide as Hz; [done|]. rewrite init_spec. cbn [fst snd].
    destruct IH as [IHnd IHfresh].
    set (fi := mkFolder _ _ _ _ _).
    assert (sop_unique fi ∧ generator_fresh generate_uid fi) as Hfi.
    { split; [done|]. intros j row Hj Hin. apply IHfresh; [simpl in Hj; lia | done]. }
    destruct HG as [HG | [HG Ha]]; [by apply merge_unique_upto_series|].
    apply (merge_unique_instance fi self _
             (generate_uid (uid_count f + (3 - generation ancestor)))); try done.
    + simpl. unfold generation in *. rewrite lookup_app_r by lia.
      rewrite list_lookup_fmap, lookup_seq_lt by lia. simpl. do 2 f_equal; lia.
    + intros (row & Heq & Hin)%list_elem_of_fmap.
      apply (IHfresh (uid_count f + (3 - generation ancestor)) row); [lia | done | done].
    + intros j Hj Heq%generate_uid_inj. subst fi. simpl in Hj.
      unfold generation in *. lia.
  - unfold merge_with. case_decide; [done|]. by apply merge_unique_upto_series.
Qed.

End Uniqueness.

(** C6 (as the code has it). With a UID generator that never repeats
    itself and never issues a SOPInstanceUID of the index, and from an
    index whose rows have pairwise distinct SOPInstanceUIDs: after any run
    of [new_uid], [copy_to] (of a record of generation at most 3, or of an
    Instance below a higher-level record) and [merge_with] on records of
    generation at most 3, no two rows share a SOPInstanceUID, hence none
    share the four-identifier tuple. *)
Theorem uid_uniqueness
    (generate_uid new_file_name : nat → string) (desc_columns : list string)
    (f0 f : Folder) :
  (∀ i j, generate_uid i = generate_uid j → i = j) →
  generator_fresh generate_uid f0 →
  sop_unique f0 →
  uid_run generate_uid new_file_name desc_columns f0 f →
  sop_unique f ∧ tuples_unique f.
Proof.
  intros Hinj Hfresh Hnd Hrun.
  destruct (uid_run_invariant generate_uid new_file_name desc_columns Hinj f0 f
              Hnd Hfresh Hrun) as [Hs _].
  split; [done | by apply sop_unique_tuples].
Qed.

(** ** What copy_to writes *)

Lemma _initialize_tags (ds : Dataset) (row : Row) (l : nat) (k : string) :
  key_columns !! l = Some k →
  _initialize ds (uid_of_row row) !! k = uid_of_row row !! l.
Proof.
  unfold _initialize, uid_of_row. destruct l as [|[|[|[|l]]]]; simpl; intros [= <-];
    by simplify_map_eq.
Qed.

Lemma unique_nil {A} `{EqDecision A} (l : list A) : unique l = [] → l = [].
Proof.
  destruct l as [|x l]; [done|]. unfold unique. cbn [unique_aux].
  destruct (decide (x ∈ [])) as [H|H]; [by apply elem_of_nil in H | done].
Qed.

Section Content.
Variable generate_uid : nat → string.
Variable new_file_name : nat → string.
Variable desc_columns : list string.

Local Abbreviation merge' := (_merge_with generate_uid new_file_name desc_columns).
Local Abbreviation copy_to' := (copy_to generate_uid new_file_name desc_columns).
Local Abbreviation rekeyed' := (rekeyed generate_uid new_file_name desc_columns).
Local Abbreviation staged' := (staged_copies generate_uid new_file_name desc_columns).
Local Abbreviation labels' := (copy_labels new_file_name).

(** Without target attributes, and with pairwise distinct labels, the
    file written for a copy carries the four identifiers of its row. *)
Lemma write_copies_content (G : nat) (obj : DbRecord) (todo : list (string * string))
    (df df' : list Row) (d d' : gmap string Dataset) :
  attributes obj = [] →
  NoDup todo.*1 →
  NoDup (file <$> df) →
  write_copies desc_columns G obj todo df d = (d', Ok df') →
  ∀ row', row' ∈ df' → file row' ∈ todo.*1 →
    ∃ ds, d' !! file row' = Some ds ∧
      ∀ l k, key_columns !! l = Some k → ds !! k = uid_of_row row' !! l.
Proof.
  intros Hattr. revert df d.
  induction todo as [|[p src] todo IH]; intros df d Hnd Hndf Hw row' Hin Hlab.
  { by apply elem_of_nil in Hlab. }
  rewrite fmap_cons in Hnd. apply NoDup_cons in Hnd as [Hp Hnd]. simpl in Hp.
  cbn [write_copies] in Hw.
  destruct (decide (length (take G (_columns desc_columns)) = length (UID obj)))
    as [Hlen|Hlen]; [|done].
  destruct (d !! src) as [ds0|]; [|done].
  set (df1 := loc_set [p] (set_cols (take G (_columns desc_columns)) (UID obj)) df) in *.
  destruct (filter (λ row, file row = p) df1) as [|row1 [|row2 others]] eqn:Hsel;
    [done| |done].
  assert (head (filter (λ row, file row = p) df1) = Some row1) as Hh by by rewrite Hsel.
  rewrite Hattr in Hw. cbn [stamp_attributes foldl fst snd] in Hw.
  assert (NoDup (file <$> df1)) as Hndf1.
  { unfold df1. rewrite loc_set_labels; [done | apply file_set_cols]. }
  rewrite fmap_cons in Hlab. simpl in Hlab.
  destruct (decide (file row' ∈ todo.*1)) as [Hrest|Hrest].
  { by apply (IH df1 _ Hnd Hndf1 Hw). }
  apply elem_of_cons in Hlab as [Hlab|Hlab]; [|done].
  pose proof (write_copies_disk_other desc_columns G obj todo df1
                (<[p:=_initialize ds0 (uid_of_row row1)]> d) (file row') Hrest) as Hd.
  rewrite Hw in Hd. simpl in Hd. rewrite Hlab, lookup_insert_eq in Hd.
  exists (_initialize ds0 (uid_of_row row1)). rewrite Hlab. split; [done|].
  assert (row' = row1) as ->; [|intros l k; apply _initialize_tags].
  apply write_copies_rows in Hw as [-> _].
  destruct (foldl_loc_set_iter (stamp desc_columns G obj) todo.*1 df1
              (file_stamp desc_columns G obj)) as [Hl Hrows].
  apply list_elem_of_lookup in Hin as [i Hi].
  assert (i < length df1) as Hlt by (rewrite <- Hl; by eapply lookup_lt_Some).
  apply lookup_lt_is_Some in Hlt as [rowi Hrowi].
  destruct (Hrows i rowi Hrowi) as (n & Hn & _ & Hzero).
  rewrite Hi in Hn. injection Hn as Hn.
  destruct (iter_stamp_flags desc_columns G obj rowi n) as (Hfi & _).
  rewrite <- Hn in Hfi.
  rewrite Hzero in Hn by (by rewrite <- Hfi). simpl in Hn. subst rowi.
  apply head_filter_Some in Hh as [Hin1 Hf1].
  apply (label_unique df1); [done | by eapply list_elem_of_lookup_2 | done | congruence].
Qed.

Lemma merge_with_content (f f' : Folder) (self obj : DbRecord) (res : option DbRecord)
    (new : list Row) :
  attributes obj = [] →
  NoDup (labels' f self) →
  merge' f self obj = (f', Ok res) →
  dataframe f' = dataframe f ++ new →
  ∀ row, row ∈ new →
    ∃ ds, disk f' !! file row = Some ds ∧
      ∀ l k, key_columns !! l = Some k → ds !! k = uid_of_row row !! l.
Proof.
  intros Hattr Hnd Hm Hdf row Hin.
  pose proof Hm as Hm'.
  apply merge_with_Ok in Hm' as (_ & _ & _ & _ & Hdisk & df4 & Hdf4 & _).
  rewrite Hdf in Hdf4. apply app_inv_head in Hdf4 as ->.
  destruct (write_copies desc_columns (generation self) obj
              (zip (labels' f self) (file <$> data f self))
              (staged' f self) (disk f)) as [d' [df'|e]] eqn:Hw.
  - simpl in Hdisk. subst d'.
    pose proof (written_copies _ _ _ f self obj _ _ Hw) as (Hlen & _ & Hrows).
    assert (df' = df4) as ->.
    { rewrite _merge_with_unfold in Hm. cbn zeta in Hm. rewrite Hw in Hm.
      cbn [fst snd] in Hm.
      assert (dataframe f' = dataframe f ++ df') as Hdf'.
      { destruct (path f); destruct (data f self); by injection Hm as <-. }
      rewrite Hdf in Hdf'. by apply app_inv_head in Hdf'. }
    apply (write_copies_content _ _ _ _ _ _ _ Hattr) with (row' := row) in Hw;
      try done.
    + by rewrite fst_todo.
    + by rewrite file_staged_copies.
    + rewrite fst_todo. apply list_elem_of_lookup in Hin as [i Hi].
      assert (i < length (staged' f self)) as Hlt.
      { rewrite length_staged_copies, <- Hlen. by eapply lookup_lt_Some. }
      apply lookup_lt_is_Some in Hlt as [row3 H3].
      destruct (Hrows i row3 H3) as (n & Hn & _).
      rewrite Hi in Hn. injection Hn as ->.
      destruct (iter_stamp_flags desc_columns (generation self) obj row3 n) as (-> & _).
      rewrite <- (file_staged_copies generate_uid new_file_name desc_columns).
      apply list_elem_of_fmap_2. by eapply list_elem_of_lookup_2.
  - exfalso. rewrite _merge_with_unfold in Hm. cbn zeta in Hm. rewrite Hw in Hm.
    destruct (path f); destruct (data f self); done.
Qed.

Lemma rekey_column_values (k : string) (c : nat) (df : list Row) (r0 : Row) :
  r0 ∈ (rekey_column generate_uid k (c, df)).2 →
  ∃ j row, c ≤ j < (rekey_column generate_uid k (c, df)).1 ∧
    row ∈ df ∧ r0 = set_col k (generate_uid j) row.
Proof.
  rewrite rekey_column_spec. cbn zeta.
  destruct (length (unique (get_col k <$> df))) as [|m'] eqn:Hm; cbn [fst snd].
  - apply length_zero_iff_nil, unique_nil, fmap_nil_inv in Hm. subst df.
    by intros ?%elem_of_nil.
  - intros (row & -> & Hin)%list_elem_of_fmap.
    exists (c + m'), row. split; [lia | done].
Qed.

(** The identifiers between the source's generation and the series
    level are drawn by the re-keying loop. *)
Lemma rekeyed_levels (f : Folder) (self : DbRecord) (l : nat) (r0 : Row) :
  1 ≤ generation self →
  generation self ≤ l < 3 →
  r0 ∈ (rekeyed' f self).2 →
  ∃ j, uid_count f ≤ j < (rekeyed' f self).1 ∧
    uid_of_row r0 !! l = Some (generate_uid j).
Proof.
  intros HG Hl. unfold rekeyed.
  set (df0 := zip_with set_file (labels' f self) (data f self)).
  destruct (generation self) as [|[|[|G]]] eqn:EG; try lia.
  - simpl. set (st1 := rekey_column generate_uid "StudyInstanceUID" (uid_count f, df0)).
    intros Hin.
    assert (st1 = (st1.1, st1.2)) as Hst by by destruct st1.
    rewrite Hst in Hin.
    apply rekey_column_values in Hin as (j2 & row1 & Hj2 & Hin1 & ->).
    rewrite <- Hst in Hj2.
    apply rekey_column_values in Hin1 as (j1 & row & Hj1 & _ & ->).
    fold st1 in Hj1.
    assert (l = 1 ∨ l = 2) as [-> | ->] by lia.
    + exists j1. split; [lia | done].
    + exists j2. split; [lia | done].
  - simpl. intros Hin.
    apply rekey_column_values in Hin as (j & row & Hj & _ & ->).
    assert (l = 2) as -> by lia.
    exists j. split; [lia | done].
Qed.

(** The writing loop ends normally when the UID tuple fits the columns
    to fill, the labels of the copies are pairwise distinct, every source
    file is on disk and every label is the label of a copy. *)
Lemma write_copies_succeeds (G : nat) (obj : DbRecord) (todo : list (string * string))
    (df : list Row) (d : gmap string Dataset) :
  length (take G (_columns desc_columns)) = length (UID obj) →
  NoDup (file <$> df) →
  (∀ src, src ∈ todo.*2 → is_Some (d !! src)) →
  (∀ p, p ∈ todo.*1 → p ∈ file <$> df) →
  ∃ d' df', write_copies desc_columns G obj todo df d = (d', Ok df').
Proof.
  intros Hlen. revert df d.
  induction todo as [|[p src] todo IH]; intros df d Hnd Hsrc Hlab.
  { by eexists _, _. }
  cbn [write_copies]. rewrite decide_True by done.
  destruct (Hsrc src ltac:(by left)) as [ds ->].
  set (df1 := loc_set [p] (set_cols (take G (_columns desc_columns)) (UID obj)) df).
  assert (file <$> df1 = file <$> df) as Hf1.
  { unfold df1. apply loc_set_labels, file_set_cols. }
  assert (p ∈ file <$> df1) as Hp by (rewrite Hf1; apply Hlab; by left).
  apply list_elem_of_fmap in Hp as (row & -> & Hin).
  rewrite (filter_label_own df1 row) by (by rewrite ?Hf1).
  rewrite stamp_attributes_spec. cbn [fst snd].
  assert (∀ r, file (stamp_cached desc_columns (attributes obj) r) = file r) as Hst.
  { intros r. by apply (stamp_cached_preserves desc_columns (λ r', file r' = file r)). }
  apply IH.
  - by rewrite loc_set_labels, Hf1.
  - intros src' Hs'. apply lookup_insert_is_Some'. right. apply Hsrc. by right.
  - intros p' Hp'. rewrite loc_set_labels, Hf1 by done. apply Hlab. by right.
Qed.

Lemma merge_with_succeeds (f : Folder) (self obj : DbRecord) (root : string) :
  path f = Some root →
  generation self ≤ 4 →
  generation obj = generation self →
  NoDup (labels' f self) →
  (∀ row, row ∈ data f self → is_Some (disk f !! file row)) →
  ∃ f', merge' f self obj = (f', Ok (Some obj)).
Proof.
  intros Hp HG Hobj Hnd Hdisk. rewrite _merge_with_unfold, Hp.
  destruct (write_copies_succeeds (generation self) obj
              (zip (labels' f self) (file <$> data f self)) (staged' f self) (disk f))
    as (d' & df' & Hw).
  - rewrite length_take. unfold _columns, generation in *.
    rewrite length_app. simpl. lia.
  - by rewrite file_staged_copies.
  - rewrite snd_zip by (by rewrite length_copy_labels, length_fmap).
    intros src (row & -> & Hin)%list_elem_of_fmap. by apply Hdisk.
  - rewrite fst_todo, file_staged_copies. done.
  - cbn zeta. rewrite Hw. cbn [fst snd]. destruct (data f self); by eexists.
Qed.

(** [copy_to] returns the copy when the folder has a root path, the
    labels drawn for the copies are pairwise distinct and the files of the
    source rows are on disk. *)
Lemma copy_to_succeeds (f : Folder) (self ancestor : DbRecord) (root : string) :
  path f = Some root →
  1 ≤ generation self ≤ 4 →
  generation ancestor < generation self →
  NoDup (copy_labels new_file_name f self) →
  (∀ row, row ∈ data f self → is_Some (disk f !! file row)) →
  ∃ f1, copy_to' f self ancestor
        = (f1, Ok (Some (copy_record generate_uid f self ancestor))).
Proof.
  intros Hp HG Ha Hnd Hdisk. rewrite copy_to_unfold by lia.
  apply (merge_with_succeeds _ _ _ root); [done | lia | | done | done].
  unfold generation in *. simpl. rewrite length_app, length_fmap, length_seq.
  unfold generation. lia.
Qed.

End Content.

(** C1. [copy_to] of a record of generation G (1 to 4) below a record of
    a higher level, in a folder with a root path where the files of the
    source rows are on disk, and with pairwise distinct labels drawn for
    the copies: the call returns the copy, and the index grows by one row
    per source row, staged created; on every new row the identifiers at
    the levels of the destination are the destination's, the identifiers
    from the destination's generation up to G are the fresh components of
    the copy's UID (for a Series below a Study: one new SeriesInstanceUID),
    every identifier from the destination's generation on was drawn from
    the generator during the call, below an Instance each row has a
    SOPInstanceUID of its own, and the file written for the row carries
    the row's four identifiers. *)
Theorem copy_to_rekeys
    (generate_uid new_file_name : nat → string) (desc_columns : list string)
    (f : Folder) (self ancestor : DbRecord) (root : string) :
  path f = Some root →
  1 ≤ generation self ≤ 4 →
  generation ancestor < generation self →
  NoDup (copy_labels new_file_name f self) →
  (∀ row, row ∈ data f self → is_Some (disk f !! file row)) →
  ∃ f1 new,
    copy_to generate_uid new_file_name desc_columns f self ancestor
    = (f1, Ok (Some (copy_record generate_uid f self ancestor))) ∧
    dataframe f1 = dataframe f ++ new ∧
    length new = length (data f self) ∧
    ∀ i row, new !! i = Some row →
      created row = true ∧ removed row = false ∧
      (∀ l u, UID ancestor !! l = Some u → uid_of_row row !! l = Some u) ∧
      (∀ l, generation ancestor ≤ l < generation self →
         uid_of_row row !! l
         = Some (generate_uid (uid_count f + (l - generation ancestor)))) ∧
      (∀ l, generation ancestor ≤ l < 4 →
         ∃ j, uid_count f ≤ j < uid_count f1 ∧
           uid_of_row row !! l = Some (generate_uid j)) ∧
      (generation self ≤ 3 →
         SOPInstanceUID row = generate_uid (uid_count f1 - length new + i)) ∧
      ∃ ds, disk f1 !! file row = Some ds ∧
        ∀ l k, key_columns !! l = Some k → ds !! k = uid_of_row row !! l.
Proof.
  intros Hp HG Ha Hnd Hdisk.
  destruct (copy_to_succeeds generate_uid new_file_name desc_columns f self ancestor root)
    as [f1 Hc]; [done..|].
  pose proof Hc as Hc'.
  apply copy_to_new_rows in Hc' as (_ & Hc1 & Hcount & new & Hdf & Hlen & Hrows); [|done..].
  set (fi := after_init f self ancestor) in *.
  set (c1 := (rekeyed generate_uid new_file_name desc_columns fi self).1) in *.
  exists f1, new. split; [done|]. split; [done|]. split; [done|].
  intros i row Hi.
  destruct (Hrows i row Hi) as (Hfile & Hcr & Hrm & Hdest & Hfresh & row3 & H3 & Hkeep).
  assert (i < length (data f self)) as Hlt by (rewrite <- Hlen; by eapply lookup_lt_Some).
  destruct (staged_copies_lookup _ _ _ fi self i row3 H3)
    as (_ & _ & _ & Hsop3 & r0 & Hr0 & Hrow3).
  fold c1 in Hsop3, Hrow3.
  assert (generation self ≤ 3 → SOPInstanceUID row = generate_uid (c1 + i)) as Hsop.
  { intros H3'. specialize (Hkeep 3 H3'). simpl in Hkeep. injection Hkeep as ->.
    exact Hsop3. }
  split; [done|]. split; [done|]. split; [done|]. split; [done|].
  split; [|split].
  - intros l Hl. destruct (decide (l < generation self)) as [Hlg|Hlg].
    + exists (uid_count f + (l - generation ancestor)).
      split; [lia | apply Hfresh; lia].
    + destruct (decide (l = 3)) as [->|Hl3].
      * exists (c1 + i). split; [lia|]. simpl. f_equal. apply Hsop. lia.
      * destruct (rekeyed_levels generate_uid new_file_name desc_columns fi self l r0)
          as (j & Hj & Hv); [lia | lia | by eapply list_elem_of_lookup_2 |].
        fold c1 in Hj. simpl in Hj.
        exists j. split; [lia|]. rewrite Hkeep by lia. rewrite <- Hv, Hrow3.
        destruct l as [|[|[|l]]]; try done; lia.
  - intros H3'. rewrite (Hsop H3'). f_equal. lia.
  - rewrite copy_to_unfold in Hc by lia.
    apply (merge_with_content generate_uid new_file_name desc_columns fi f1 self
             (copy_record generate_uid f self ancestor)
             (Some (copy_record generate_uid f self ancestor)) new); try done.
    by eapply list_elem_of_lookup_2.
Qed.

(** ** move_to *)

(** [remove] on an index made of rows with pairwise distinct labels
    followed by rows that the record does not select and whose labels are
    new: the former are staged, the latter are left alone. *)
Lemma remove_old_rows (f : Folder) (r : DbRecord) (root : string) (old new : list Row) :
  path f = Some root →
  dataframe f = old ++ new →
  NoDup (file <$> old) →
  (∀ row, row ∈ new → ¬ in_scope r row) →
  (∀ row, row ∈ new → file row ∉ file <$> old) →
  remove f r = (set_dataframe ((stage_removal r <$> old) ++ new) f, Ok tt).
Proof.
  intros Hp Hdf Hnd Hout Hlab. unfold remove.
  rewrite Hp, (data_selection f r root Hp), Hdf, filter_app.
  rewrite (filter_none _ new) by (intros row Hin [_ Hs]; by apply (Hout row)).
  rewrite app_nil_r.
  set (labels := file <$> filter (λ row, removed row = false ∧ in_scope r row) old).
  assert (loc_set labels (set_removed true) (old ++ new)
          = (stage_removal r <$> old) ++ new) as Hloc.
  { unfold loc_set. rewrite fmap_app. f_equal.
    - apply (loc_set_selection (λ row, removed row = false ∧ in_scope r row) _ _ Hnd).
    - rewrite <- (list_fmap_id new) at 2. apply fmap_ext_in. intros row Hin.
      rewrite decide_False; [done|]. intros Hl. apply (Hlab row Hin).
      apply list_elem_of_fmap in Hl as (row' & -> & [_ Hin']%list_elem_of_filter).
      by apply list_elem_of_fmap_2. }
  destruct labels as [|l ls] eqn:E; [|by rewrite Hloc].
  f_equal. unfold set_dataframe. rewrite <- Hloc, <- Hdf. simpl.
  unfold loc_set.
  rewrite (fmap_ext_in _ id)
    by (intros row _; by rewrite decide_False by apply not_elem_of_nil).
  rewrite list_fmap_id. symmetry. apply folder_eta.
Qed.

(** C7. For a record of generation 1 to 4 moved below a record of a
    higher level, in a folder with a root path, pairwise distinct file
    labels and the files of the source rows on disk, and with oracles that
    issue pairwise distinct labels for the copies and neither a label nor
    an identifier of the index: [copy_to] and
    [move_to] both return the same copy; [move_to] appends the very rows
    that [copy_to] appends, leaves the disk as [copy_to] leaves it, and
    stages the removal of the source record's rows; the file of every row
    of the index is on disk as before. *)
Theorem move_to_copies_then_stages
    (generate_uid new_file_name : nat → string) (desc_columns : list string)
    (f : Folder) (self ancestor : DbRecord) (root : string) :
  path f = Some root →
  1 ≤ generation self ≤ 4 →
  generation ancestor < generation self →
  NoDup (file <$> dataframe f) →
  NoDup (copy_labels new_file_name f self) →
  (∀ row, row ∈ data f self → is_Some (disk f !! file row)) →
  (∀ k row, file_count f ≤ k → row ∈ dataframe f → file row ≠ new_file_name k) →
  (∀ j row, uid_count f ≤ j → row ∈ dataframe f → generate_uid j ∉ uid_of_row row) →
  ∃ f1 f2 new copy,
    copy_to generate_uid new_file_name desc_columns f self ancestor = (f1, Ok copy) ∧
    move_to generate_uid new_file_name desc_columns f self ancestor = (f2, Ok copy) ∧
    dataframe f1 = dataframe f ++ new ∧
    dataframe f2 = (stage_removal self <$> dataframe f) ++ new ∧
    disk f2 = disk f1 ∧
    (∀ row, row ∈ dataframe f → disk f2 !! file row = disk f !! file row).
Proof.
  intros Hp HG Ha Hnd Hnew Hsrc Hfile Huid.
  destruct (copy_to_succeeds generate_uid new_file_name desc_columns f self ancestor root)
    as [f1 Hc]; [done..|].
  pose proof Hc as Hc'.
  apply copy_to_new_rows in Hc' as (Hp1 & _ & _ & new & Hdf & Hlen & Hrows); [|done..].
  exists f1, (set_dataframe ((stage_removal self <$> dataframe f) ++ new) f1), new,
         (Some (copy_record generate_uid f self ancestor)).
  split; [done|].
  assert (remove f1 self
          = (set_dataframe ((stage_removal self <$> dataframe f) ++ new) f1, Ok tt)) as Hrm.
  { apply (remove_old_rows f1 self root (dataframe f) new); [congruence | done | done | |].
    - intros row Hin Hs. apply list_elem_of_lookup in Hin as [i Hi].
      destruct (Hrows i row Hi) as (_ & _ & _ & _ & Hfresh & _).
      apply in_scope_own_column in Hs; [|done].
      rewrite (Hfresh (generation self - 1)) in Hs by lia.
      assert (length (data f self) ≠ 0) as Hne
        by (apply lookup_lt_Some in Hi; lia).
      destruct (data f self) as [|row0 rows] eqn:Hd; [done|].
      assert (row0 ∈ data f self) as Hin0 by (rewrite Hd; by left).
      rewrite (data_selection f self root Hp) in Hin0.
      apply list_elem_of_filter in Hin0 as [[_ Hs0] Hin0].
      apply in_scope_own_column in Hs0; [|done].
      apply (Huid (uid_count f + (generation self - 1 - generation ancestor)) row0);
        [lia | done |].
      apply list_elem_of_lookup. exists (generation self - 1). congruence.
    - intros row Hin (row' & Heq & Hin')%list_elem_of_fmap.
      apply list_elem_of_lookup in Hin as [i Hi].
      destruct (Hrows i row Hi) as (Hf & _).
      apply (Hfile (file_count f + i) row'); [lia | done | congruence]. }
  split; [|split; [done|split; [done|split; [done|]]]].
  - unfold move_to. rewrite Hc. cbn [fst snd]. by rewrite Hrm.
  - intros row Hin. simpl.
    rewrite copy_to_unfold in Hc by lia.
    pose proof (merge_with_disk_other generate_uid new_file_name desc_columns
                  (after_init f self ancestor) self
                  (copy_record generate_uid f self ancestor) (file row)) as Hd.
    rewrite Hc in Hd. apply Hd.
    intros (k & Heq & [Hk _]%elem_of_seq)%list_elem_of_fmap.
    by apply (Hfile k row).
Qed.

(** * The properties at work on the small database *)

Lemma demo_uid_inj (i j : nat) : demo_uid i = demo_uid j → i = j.
Proof.
  unfold demo_uid. intros H. apply (inj (String.app _)) in H. by apply (inj pretty) in H.
Qed.

Lemma demo_uid_not_short (j : nat) (s : string) :
  String.length s < 26 → demo_uid j ≠ s.
Proof.
  intros Hlen Heq. rewrite <- Heq in Hlen. unfold demo_uid in Hlen.
  simpl in Hlen. lia.
Qed.

Lemma demo_file_not_short (k : nat) (s : string) :
  String.length s < 8 → s ≠ demo_file k.
Proof.
  intros Hlen Heq. rewrite Heq in Hlen. unfold demo_file in Hlen.
  simpl in Hlen. lia.
Qed.

Lemma demo_uid_fresh (j : nat) (row : Row) :
  row ∈ dataframe demo → demo_uid j ∉ uid_of_row row.
Proof.
  intros Hin Hu.
  assert (∀ s, s ∈ uid_of_row row → String.length s < 26) as Hshort.
  { intros s Hs. simpl in Hin.
    repeat (apply elem_of_cons in Hin as [->|Hin];
            [simpl in Hs;
             repeat (apply elem_of_cons in Hs as [->|Hs]; [simpl; lia|]);
             by apply elem_of_nil in Hs|]).
    by apply elem_of_nil in Hin. }
  by apply (demo_uid_not_short j (demo_uid j)); [apply Hshort|].
Qed.

Lemma demo_file_fresh (k : nat) (row : Row) :
  row ∈ dataframe demo → file row ≠ demo_file k.
Proof.
  intros Hin. apply demo_file_not_short. simpl in Hin.
  repeat (apply elem_of_cons in Hin as [->|Hin]; [simpl; lia|]).
  by apply elem_of_nil in Hin.
Qed.

(** Copying the series of the demo database below the study of another
    patient. *)
Lemma copy_to_rekeys_witness :
  ∃ f1 new,
    copy_to demo_uid demo_file [] demo series study2
    = (f1, Ok (Some (mkRecord ["P2"; "ST2"; demo_uid 0] []))) ∧
    dataframe f1 = dataframe demo ++ new ∧
    length new = 2 ∧
    ∀ i row, new !! i = Some row →
      PatientID row = "P2" ∧ StudyInstanceUID row = "ST2" ∧
      SeriesInstanceUID row = demo_uid 0 ∧ SOPInstanceUID row = demo_uid (1 + i).
Proof.
  destruct (copy_to_rekeys demo_uid demo_file [] demo series study2 "/data")
    as (f1 & new & Hc & Hdf & Hlen & Hrows).
  - reflexivity.
  - vm_compute. lia.
  - vm_compute. lia.
  - by_evaluation.
  - refine (proj1 (Forall_forall (λ row, is_Some (disk demo !! file row)) _) _).
    by_evaluation.
  - exists f1, new. split; [exact Hc|]. split; [exact Hdf|]. split; [exact Hlen|].
    intros i row Hi.
    destruct (Hrows i row Hi) as (_ & _ & Hdest & Hfresh & _ & Hsop & _).
    pose proof (Hdest 0 "P2" eq_refl) as H0. pose proof (Hdest 1 "ST2" eq_refl) as H1.
    pose proof (Hfresh 2 ltac:(vm_compute; lia)) as H2.
    specialize (Hsop ltac:(vm_compute; lia)). rewrite Hlen in Hsop.
    assert (uid_count f1 = 3) as Hcnt.
    { transitivity (uid_count (copy_to demo_uid demo_file [] demo series study2).1).
      - rewrite Hc. reflexivity.
      - vm_compute. reflexivity. }
    rewrite Hcnt in Hsop.
    simpl in H0, H1, H2. injection H0 as ->. injection H1 as ->. injection H2 as ->.
    rewrite Hsop. repeat split; reflexivity.
Defined.

(** Copying the patient of the demo database below the database.  The
    source rows carry the study ["ST1"], the series ["SE1"] and the
    instances ["I1"] and ["I2"]; the call returns the copy, and the two
    rows it appends carry identifiers of the generator at every level:
    no Study, Series or Instance identifier of a source row is kept. *)
Lemma patient_copy_keeps_no_identifier :
  data demo patient = [row_a; row_b] ∧
  NoDup (copy_labels demo_file demo patient) ∧
  (copy_to demo_uid demo_file [] demo patient database).2
  = Ok (Some (mkRecord [demo_uid 0] [])) ∧
  dataframe (copy_to demo_uid demo_file [] demo patient database).1
  = [row_a; row_b;
     mkRow (demo_file 0) (demo_uid 0) (demo_uid 1) (demo_uid 2) (demo_uid 3) ∅ false true;
     mkRow (demo_file 1) (demo_uid 0) (demo_uid 1) (demo_uid 2) (demo_uid 4) ∅ false true] ∧
  ∀ row src,
    row ∈ drop 2 (dataframe (copy_to demo_uid demo_file [] demo patient database).1) →
    src ∈ data demo patient →
    StudyInstanceUID row ≠ StudyInstanceUID src ∧
    SeriesInstanceUID row ≠ SeriesInstanceUID src ∧
    SOPInstanceUID row ≠ SOPInstanceUID src.
Proof.
  split; [vm_compute; reflexivity|]. split; [by_evaluation|].
  split; [vm_compute; reflexivity|]. split; [vm_compute; reflexivity|].
  intros row src Hrow Hsrc. revert src Hsrc. apply Forall_forall.
  revert row Hrow. apply Forall_forall. by_evaluation.
Qed.

Lemma save_commits_staged_witness :
  ∃ f', save demo_mixed series = (f', Ok tt) ∧
    dataframe f' = [row_a; set_created false row_c; row_d] ∧
    disk f' = disk demo_mixed.
Proof.
  destruct (save_commits_staged demo_mixed series "/data") as (f' & Hs & Hdf & _).
  - reflexivity.
  - by_evaluation.
  - exists f'. split; [exact Hs|]. split; [rewrite Hdf; vm_compute; reflexivity|].
    injection Hs as <-. vm_compute. reflexivity.
Defined.

Lemma remove_restore_committed_witness :
  ∃ f1, remove demo series = (f1, Ok tt) ∧ restore f1 series = (demo, Ok series).
Proof.
  apply (remove_restore_committed demo series "/data").
  - reflexivity.
  - by_evaluation.
  - apply (proj1 (Forall_forall
                    (λ row, in_scope series row → created row = false ∧ removed row = false)
                    (dataframe demo))).
    by_evaluation.
Defined.

(** A staged-created row is dropped, with its file, by the [restore] that
    follows the [remove]: the folder is not the one before the [remove]. *)
Lemma remove_restore_drops_created :
  remove demo_staged series
    = (set_dataframe [set_removed true row_a; set_removed true row_c] demo_staged, Ok tt) ∧
  dataframe (restore (remove demo_staged series).1 series).1 = [row_a] ∧
  disk (restore (remove demo_staged series).1 series).1 !! "c.dcm" = None ∧
  (restore (remove demo_staged series).1 series).1 ≠ demo_staged.
Proof.
  split; [vm_compute; reflexivity|]. split; [vm_compute; reflexivity|].
  split; [vm_compute; reflexivity|].
  intros H. apply (f_equal (λ f, length (dataframe f))) in H. vm_compute in H.
  discriminate H.
Qed.

Lemma staging_exclusive_reachable_witness :
  staging_exclusive
    (save (remove (copy_to demo_uid demo_file [] demo series study2).1 series).1 patient).1.
Proof.
  apply (staging_exclusive_reachable demo_uid demo_file [] demo).
  - unfold staging_exclusive. by_evaluation.
  - apply reach_save. apply reach_remove.
    + apply reach_copy_to. apply reach_start.
    + unfold removal_guard.
      refine (proj1 (Forall_forall
                       (λ row, (file row ∈ file <$> data _ series) → created row = false)
                       _) _).
      by_evaluation.
Defined.

(** From the demo database, copying the series and removing the patient
    of the copy leaves rows that are staged created and staged removed. *)
Lemma created_then_removed :
  staging_exclusive demo ∧
  dataframe (remove (copy_to demo_uid demo_file [] demo series study2).1 patient2).1
  = [row_a; row_b;
     mkRow (demo_file 0) "P2" "ST2" (demo_uid 0) (demo_uid 1) ∅ true true;
     mkRow (demo_file 1) "P2" "ST2" (demo_uid 0) (demo_uid 2) ∅ true true] ∧
  ¬ staging_exclusive
      (remove (copy_to demo_uid demo_file [] demo series study2).1 patient2).1.
Proof.
  split; [unfold staging_exclusive; by_evaluation|].
  split; [vm_compute; reflexivity|].
  unfold staging_exclusive. refute_by_evaluation.
Qed.

Lemma remove_stages_every_row_witness :
  ∃ f', remove demo_staged series = (f', Ok tt) ∧
    dataframe f' = stage_removal series <$> dataframe demo_staged ∧
    disk f' = disk demo_staged.
Proof.
  destruct (remove_stages_every_row demo_staged series "/data")
    as (f' & Hr & Hdf & Hdisk & _).
  - reflexivity.
  - by_evaluation.
  - exists f'. split; [exact Hr|]. split; [exact Hdf | exact Hdisk].
Defined.

(** [remove] on a series with a staged-created row: the row stays in the
    index and is flagged removed. *)
Lemma remove_keeps_created_row :
  row_c ∈ dataframe demo_staged ∧ in_scope series row_c ∧ created row_c = true ∧
  dataframe (remove demo_staged series).1
  = [set_removed true row_a; set_removed true row_c] ∧
  length (dataframe (remove demo_staged series).1) = length (dataframe demo_staged).
Proof.
  split; [by_evaluation|]. split; [by_evaluation|]. split; [reflexivity|].
  split; vm_compute; reflexivity.
Qed.

Lemma demo_generator_fresh : generator_fresh demo_uid demo.
Proof.
  intros j row _ Hin Heq. apply (demo_uid_fresh j row Hin).
  rewrite <- Heq. simpl. do 3 right. by left.
Defined.

Lemma uid_uniqueness_witness :
  sop_unique
    (merge_with demo_uid demo_file []
       (copy_to demo_uid demo_file []
          (copy_to demo_uid demo_file [] demo series study2).1 instance_a series).1
       series (mkRecord ["P2"; "ST2"; "SE9"] [])).1 ∧
  tuples_unique
    (merge_with demo_uid demo_file []
       (copy_to demo_uid demo_file []
          (copy_to demo_uid demo_file [] demo series study2).1 instance_a series).1
       series (mkRecord ["P2"; "ST2"; "SE9"] [])).1.
Proof.
  apply (uid_uniqueness demo_uid demo_file [] demo).
  - exact demo_uid_inj.
  - exact demo_generator_fresh.
  - unfold sop_unique. by_evaluation.
  - apply run_merge_with; [|vm_compute; lia].
    apply run_copy_to; [|right; vm_compute; lia].
    apply run_copy_to; [|left; vm_compute; lia].
    apply run_start.
Defined.

(** Merging one instance with another stamps the whole UID of the target
    on the copy: two rows then carry the same four identifiers, with a
    generator that is injective and never issues an identifier of the
    index. *)
Lemma instance_merge_duplicates :
  (∀ i j, demo_uid i = demo_uid j → i = j) ∧
  (∀ j row, row ∈ dataframe demo → demo_uid j ∉ uid_of_row row) ∧
  tuples_unique demo ∧
  uid_of_row <$> dataframe (merge_with demo_uid demo_file [] demo instance_a instance_b).1
  = [["P1"; "ST1"; "SE1"; "I1"]; ["P1"; "ST1"; "SE1"; "I2"]; ["P1"; "ST1"; "SE1"; "I2"]] ∧
  ¬ tuples_unique (merge_with demo_uid demo_file [] demo instance_a instance_b).1.
Proof.
  split; [exact demo_uid_inj|]. split; [exact demo_uid_fresh|].
  split; [unfold tuples_unique; by_evaluation|].
  split; [vm_compute; reflexivity|].
  unfold tuples_unique. refute_by_evaluation.
Qed.

Lemma move_to_copies_then_stages_witness :
  ∃ f1 f2 new copy,
    copy_to demo_uid demo_file [] demo series study2 = (f1, Ok copy) ∧
    move_to demo_uid demo_file [] demo series study2 = (f2, Ok copy) ∧
    dataframe f1 = dataframe demo ++ new ∧
    dataframe f2 = [set_removed true row_a; set_removed true row_b] ++ new ∧
    disk f2 = disk f1 ∧
    disk f2 !! "a.dcm" = disk demo !! "a.dcm" ∧ disk f2 !! "b.dcm" = disk demo !! "b.dcm".
Proof.
  destruct (move_to_copies_then_stages demo_uid demo_file [] demo series study2 "/data")
    as (f1 & f2 & new & copy & Hc & Hmv & Hdf & Hdf2 & Hdisk & Hkeep).
  - reflexivity.
  - vm_compute. lia.
  - vm_compute. lia.
  - by_evaluation.
  - by_evaluation.
  - refine (proj1 (Forall_forall (λ row, is_Some (disk demo !! file row)) _) _).
    by_evaluation.
  - intros k row _ Hin. by apply demo_file_fresh.
  - intros j row _ Hin. by apply demo_uid_fresh.
  - exists f1, f2, new, copy. split; [exact Hc|]. split; [exact Hmv|]. split; [exact Hdf|].
    split; [exact Hdf2|]. split; [exact Hdisk|]. split.
    + apply (Hkeep row_a). by_evaluation.
    + apply (Hkeep row_b). by_evaluation.
Defined.

Lemma children_first_appearance_witness :
  ∃ (k : string) (ids : list (option string)) (kids : list DbRecord),
    key_columns !! 1 = Some k ∧ NoDup ids ∧ length kids = length ids ∧
    children [] (λ _ _, true) demo_mixed patient None
    = Ok (PyList (List.filter (λ _, true) kids)).
Proof.
  destruct (children_first_appearance [] (λ _ _, true) demo_mixed patient "/data")
    as (k & ids & kids & H).
  - reflexivity.
  - vm_compute. lia.
  - cbv zeta in H. destruct H as (Hk & Hnd & _ & _ & Hlen & _ & Hch).
    exists k, ids, kids. split; [exact Hk|]. split; [exact Hnd|]. split; [exact Hlen|].
    exact Hch.
Defined.

Lemma set_array_shape_guard_witness :
  ∃ e, set_array (λ f self _ _ _, (f, Ok self)) demo series [3; 128; 128] (Some [2])
         false false = (demo, Raise e).
Proof.
  apply set_array_shape_guard. vm_compute. lia.
Defined.

Lemma save_restore_frame_witness :
  let outside := λ row, uid_of_row row !! (generation series - 1) ≠ last (UID series) in
  filter outside (dataframe (save demo_mixed series).1) = filter outside (dataframe demo_mixed) ∧
  filter outside (dataframe (restore demo_mixed series).1)
  = filter outside (dataframe demo_mixed) ∧
  ∀ row, row ∈ dataframe demo_mixed → outside row →
    disk (save demo_mixed series).1 !! file row = disk demo_mixed !! file row ∧
    disk (restore demo_mixed series).1 !! file row = disk demo_mixed !! file row.
Proof.
  apply save_restore_frame.
  - vm_compute. lia.
  - by_evaluation.
Defined.

(** * Further properties: how staging operations compose *)

Lemma save_clean (f : Folder) (r : DbRecord) (root : string) :
  path f = Some root →
  NoDup (file <$> dataframe f) →
  scope_committed f r →
  save f r = (f, Ok tt).
Proof.
  intros Hp Hnd Hclean. rewrite (save_spec f r root Hp Hnd).
  rewrite filter_all by (intros row Hin [Hs Hr]; destruct (Hclean row Hin Hs); congruence).
  rewrite (filter_none (λ row, in_scope r row ∧ removed row = true))
    by (intros row Hin [Hs Hr]; destruct (Hclean row Hin Hs); congruence).
  rewrite (fmap_ext_in (commit_row r) id).
  - rewrite list_fmap_id. unfold delete_files. simpl. by rewrite folder_eta.
  - intros row Hin. unfold commit_row. rewrite decide_False; [done|].
    intros [Hs Hc]. destruct (Hclean row Hin Hs). congruence.
Qed.

Lemma restore_clean (f : Folder) (r : DbRecord) (root : string) :
  path f = Some root →
  NoDup (file <$> dataframe f) →
  scope_committed f r →
  restore f r = (f, Ok r).
Proof.
  intros Hp Hnd Hclean. rewrite (restore_spec f r root Hp Hnd).
  rewrite filter_all by (intros row Hin [Hs Hr]; destruct (Hclean row Hin Hs); congruence).
  rewrite (filter_none (λ row, in_scope r row ∧ created row = true))
    by (intros row Hin [Hs Hr]; destruct (Hclean row Hin Hs); congruence).
  rewrite (fmap_ext_in (rollback_row r) id).
  - rewrite list_fmap_id. unfold delete_files. simpl. by rewrite folder_eta.
  - intros row Hin. unfold rollback_row. rewrite decide_False; [done|].
    intros [Hs Hc]. destruct (Hclean row Hin Hs). congruence.
Qed.

Lemma NoDup_labels_fmap_filter (g : Row → Row) (P : Row → Prop)
    `{∀ row, Decision (P row)} (df : list Row) :
  (∀ row, file (g row) = file row) →
  NoDup (file <$> df) → NoDup (file <$> (g <$> filter P df)).
Proof.
  intros Hg Hnd. rewrite <- list_fmap_compose.
  rewrite (fmap_ext_in (file ∘ g) file) by (intros row _; apply Hg).
  induction df as [|row df IH]; [constructor|].
  rewrite fmap_cons in Hnd. apply NoDup_cons in Hnd as [Hrow Hnd].
  rewrite filter_cons. destruct (decide (P row)); [|by apply IH].
  rewrite fmap_cons. apply NoDup_cons. split; [|by apply IH].
  intros (row' & Heq & [_ Hin]%list_elem_of_filter)%list_elem_of_fmap.
  apply Hrow. rewrite Heq. by apply list_elem_of_fmap_2.
Qed.

Lemma saved_labels (f : Folder) (r : DbRecord) :
  NoDup (file <$> dataframe f) → NoDup (file <$> dataframe (save f r).1).
Proof.
  intros Hnd. destruct (save_state f r Hnd) as [-> | ->]; [done|]. simpl.
  apply NoDup_labels_fmap_filter; [|done].
  intros row. unfold commit_row. by case_decide.
Qed.

Lemma restored_labels (f : Folder) (r : DbRecord) :
  NoDup (file <$> dataframe f) → NoDup (file <$> dataframe (restore f r).1).
Proof.
  intros Hnd. destruct (restore_state f r Hnd) as [-> | ->]; [done|]. simpl.
  apply NoDup_labels_fmap_filter; [|done].
  intros row. unfold rollback_row. by case_decide.
Qed.

Lemma saved_path (f : Folder) (r : DbRecord) : path (save f r).1 = path f.
Proof.
  unfold save. repeat case_match; done.
Qed.

Lemma restored_path (f : Folder) (r : DbRecord) : path (restore f r).1 = path f.
Proof.
  unfold restore. repeat case_match; done.
Qed.

Lemma settled_after_save (f : Folder) (r : DbRecord) (root : string) :
  path f = Some root → NoDup (file <$> dataframe f) → scope_committed (save f r).1 r.
Proof.
  intros Hp Hnd. rewrite (save_spec f r root Hp Hnd). simpl.
  intros row' (row & -> & [Hn Hin]%list_elem_of_filter)%list_elem_of_fmap.
  unfold commit_row. destruct (decide (in_scope r row ∧ created row = true)) as [[Hs Hc]|Hd].
  - intros _. simpl. split; [done|]. destruct (removed row) eqn:Hr; [|done].
    exfalso. by apply Hn.
  - intros Hs. split.
    + destruct (created row) eqn:Hc; [|done]. exfalso. by apply Hd.
    + destruct (removed row) eqn:Hr; [|done]. exfalso. by apply Hn.
Qed.

Lemma settled_after_restore (f : Folder) (r : DbRecord) (root : string) :
  path f = Some root → NoDup (file <$> dataframe f) → scope_committed (restore f r).1 r.
Proof.
  intros Hp Hnd. rewrite (restore_spec f r root Hp Hnd). simpl.
  intros row' (row & -> & [Hn Hin]%list_elem_of_filter)%list_elem_of_fmap.
  unfold rollback_row. destruct (decide (in_scope r row ∧ removed row = true)) as [[Hs Hc]|Hd].
  - intros _. simpl. split; [|done]. destruct (created row) eqn:Hr; [|done].
    exfalso. by apply Hn.
  - intros Hs. split.
    + destruct (created row) eqn:Hr; [|done]. exfalso. by apply Hn.
    + destruct (removed row) eqn:Hc; [|done]. exfalso. by apply Hd.
Qed.

(** X1. After [save], and after [restore], on a folder with a root path
    and pairwise distinct file labels, no row in the record's scope carries
    a staging flag: the rows that were staged are either gone or
    committed. *)
Theorem scope_settled (f : Folder) (r : DbRecord) (root : string) :
  path f = Some root →
  NoDup (file <$> dataframe f) →
  scope_committed (save f r).1 r ∧ scope_committed (restore f r).1 r.
Proof.
  intros Hp Hnd. split.
  - by apply (settled_after_save f r root).
  - by apply (settled_after_restore f r root).
Qed.

(** X2. Once [save] or [restore] has run on a record (root path, pairwise
    distinct file labels), a further [save] or [restore] on the same record
    returns normally and changes nothing: a commit cannot be rolled back,
    a roll-back leaves nothing to commit, and both are idempotent. *)
Theorem staging_settles (f : Folder) (r : DbRecord) (root : string) :
  path f = Some root →
  NoDup (file <$> dataframe f) →
  restore (save f r).1 r = ((save f r).1, Ok r) ∧
  save (save f r).1 r = ((save f r).1, Ok tt) ∧
  save (restore f r).1 r = ((restore f r).1, Ok tt) ∧
  restore (restore f r).1 r = ((restore f r).1, Ok r).
Proof.
  intros Hp Hnd.
  pose proof (settled_after_save f r root Hp Hnd) as Hs.
  pose proof (settled_after_restore f r root Hp Hnd) as Hr.
  pose proof (saved_labels f r Hnd) as Hls.
  pose proof (restored_labels f r Hnd) as Hlr.
  assert (path (save f r).1 = Some root) as Hps by by rewrite saved_path.
  assert (path (restore f r).1 = Some root) as Hpr by by rewrite restored_path.
  split; [by apply (restore_clean _ _ root)|].
  split; [by apply (save_clean _ _ root)|].
  split; [by apply (save_clean _ _ root) | by apply (restore_clean _ _ root)].
Qed.

Lemma removed_scope (f : Folder) (r : DbRecord) (root : string) :
  path f = Some root →
  NoDup (file <$> dataframe f) →
  ∀ row, row ∈ dataframe (remove f r).1 → in_scope r row → removed row = true.
Proof.
  intros Hp Hnd. rewrite (remove_spec f r root Hp Hnd). simpl.
  intros row' (row & -> & Hin)%list_elem_of_fmap. unfold stage_removal.
  destruct (decide (removed row = false ∧ in_scope r row)) as [Hd|Hd]; [done|].
  intros Hs. destruct (removed row) eqn:Hr; [done|]. exfalso. by apply Hd.
Qed.

Lemma removed_labels (f : Folder) (r : DbRecord) (root : string) :
  path f = Some root →
  NoDup (file <$> dataframe f) →
  file <$> dataframe (remove f r).1 = file <$> dataframe f.
Proof.
  intros Hp Hnd. rewrite (remove_spec f r root Hp Hnd). simpl.
  rewrite <- list_fmap_compose. apply fmap_ext_in. intros row _. simpl.
  unfold stage_removal. by case_decide.
Qed.

(** X3. [remove] is idempotent: after [remove] on a record (root path,
    pairwise distinct file labels) the record has no current row left, and
    a second [remove] on it takes the early return and changes nothing. *)
Theorem remove_twice (f : Folder) (r : DbRecord) (root : string) :
  path f = Some root →
  NoDup (file <$> dataframe f) →
  data (remove f r).1 r = [] ∧
  remove (remove f r).1 r = ((remove f r).1, Ok tt).
Proof.
  intros Hp Hnd.
  assert (path (remove f r).1 = Some root) as Hp1
    by by rewrite (remove_spec f r root Hp Hnd).
  assert (data (remove f r).1 r = []) as Hdata.
  { rewrite (data_selection _ r root Hp1). apply filter_none.
    intros row Hin [Hr Hs]. rewrite (removed_scope f r root Hp Hnd row Hin Hs) in Hr.
    discriminate. }
  split; [done|]. unfold remove at 1. by rewrite Hdata, Hp1.
Qed.

(** X4. [remove] followed by [save] on the same record erases the record
    (root path, pairwise distinct file labels): every row of its scope is
    dropped from the index and its file is deleted from disk; the rows
    outside the scope stay as they are, and no other file is touched. *)
Theorem remove_then_save_erases (f : Folder) (r : DbRecord) (root : string) :
  path f = Some root →
  NoDup (file <$> dataframe f) →
  ∃ f2, save (remove f r).1 r = (f2, Ok tt) ∧
    dataframe f2 = filter (λ row, ¬ in_scope r row) (dataframe f) ∧
    (∀ row, row ∈ dataframe f → in_scope r row → disk f2 !! file row = None) ∧
    (∀ q, q ∉ file <$> filter (in_scope r) (dataframe f) → disk f2 !! q = disk f !! q).
Proof.
  intros Hp Hnd.
  pose proof (remove_spec f r root Hp Hnd) as Hrem.
  assert (path (remove f r).1 = Some root) as Hp1 by by rewrite Hrem.
  assert (NoDup (file <$> dataframe (remove f r).1)) as Hnd1
    by by rewrite (removed_labels f r root Hp Hnd).
  pose proof (removed_scope f r root Hp Hnd) as Hall.
  rewrite (save_spec _ r root Hp1 Hnd1). eexists. split; [done|]. simpl.
  assert (∀ row, in_scope r (stage_removal r row) ↔ in_scope r row) as Hsc.
  { intros row. unfold stage_removal. case_decide; [|done]. apply in_scope_set_removed. }
  assert (file <$> filter (λ row, in_scope r row ∧ removed row = true)
                     (dataframe (remove f r).1)
          = file <$> filter (in_scope r) (dataframe f)) as Hlabels.
  { rewrite (filter_ext_in _ (in_scope r))
      by (intros row Hin; split; [by intros [? _] | intros Hs; split; [done|by apply Hall]]).
    rewrite Hrem. simpl. clear -Hsc.
    induction (dataframe f) as [|row df IH]; [done|].
    rewrite fmap_cons, !filter_cons.
    destruct (decide (in_scope r (stage_removal r row))) as [Hs|Hs],
             (decide (in_scope r row)) as [Hs'|Hs'].
    - rewrite !fmap_cons, IH. f_equal. unfold stage_removal. by case_decide.
    - exfalso. by apply Hs', Hsc.
    - exfalso. by apply Hs, Hsc.
    - done. }
  split; [|split].
  - rewrite (filter_ext_in _ (λ row, ¬ in_scope r row))
      by (intros row Hin; split;
          [intros Hn Hs; apply Hn; split; [done|by apply Hall]
          |intros Hn [Hs _]; by apply Hn]).
    rewrite (fmap_ext_in (commit_row r) id).
    2:{ intros row [Hn _]%list_elem_of_filter. unfold commit_row.
        rewrite decide_False; [done|]. by intros [Hs _]. }
    rewrite list_fmap_id, Hrem. simpl. clear -Hsc.
    induction (dataframe f) as [|row df IH]; [done|].
    rewrite fmap_cons, !filter_cons.
    destruct (decide (¬ in_scope r (stage_removal r row))) as [Hs|Hs],
             (decide (¬ in_scope r row)) as [Hs'|Hs'].
    + rewrite IH. f_equal. unfold stage_removal. rewrite decide_False; [done|].
      by intros [_ ?].
    + exfalso. apply Hs'. intros Hin. by apply Hs, Hsc.
    + exfalso. apply Hs. intros Hin. by apply Hs', Hsc.
    + done.
  - intros row Hin Hs. rewrite Hlabels, lookup_delete_files, decide_True.
    + done.
    + apply list_elem_of_fmap_2. by apply list_elem_of_filter.
  - intros q Hq. rewrite Hlabels, lookup_delete_files, decide_False by done.
    by rewrite Hrem.
Qed.

(** ** Copies and moves that go wrong, and copies that are rolled back *)

Section CopyEdges.
Variable generate_uid : nat → string.
Variable new_file_name : nat → string.
Variable desc_columns : list string.

Local Abbreviation copy_to' := (copy_to generate_uid new_file_name desc_columns).
Local Abbreviation move_to' := (move_to generate_uid new_file_name desc_columns).
Local Abbreviation merge' := (_merge_with generate_uid new_file_name desc_columns).
Local Abbreviation labels' := (copy_labels new_file_name).
Local Abbreviation staged' := (staged_copies generate_uid new_file_name desc_columns).

Lemma in_scope_database (r : DbRecord) (row : Row) : generation r = 0 → in_scope r row.
Proof.
  unfold generation, in_scope. destruct (UID r); [done|]. simpl. lia.
Qed.

(** X5. [move_to] on the record of generation 0 copies nothing and
    returns [None], yet goes on to [remove]: with a root path and pairwise
    distinct file labels every row of the index ends up staged for
    removal, and nothing else changes. *)
Theorem database_move_to_stages_all (f : Folder) (self ancestor : DbRecord)
    (root : string) :
  generation self = 0 →
  path f = Some root →
  NoDup (file <$> dataframe f) →
  move_to' f self ancestor
  = (set_dataframe (set_removed true <$> dataframe f) f, Ok None).
Proof.
  intros HG Hp Hnd. unfold move_to, copy_to. rewrite decide_True by done.
  cbn [fst snd]. rewrite (remove_spec f self root Hp Hnd). cbn [fst snd].
  do 2 f_equal. apply fmap_ext_in. intros row _. unfold stage_removal.
  case_decide as Hd; [done|]. destruct row as [? ? ? ? ? ? rm ?]. simpl in *.
  destruct rm; [done|]. exfalso. apply Hd. split; [done|].
  by apply in_scope_database.
Qed.

Lemma write_copies_missing (G : nat) (obj : DbRecord) (todo : list (string * string))
    (df : list Row) (d : gmap string Dataset) :
  length (take G (_columns desc_columns)) = length (UID obj) →
  NoDup (file <$> df) →
  (∀ p, p ∈ todo.*1 → p ∈ file <$> df) →
  (∀ src, src ∈ todo.*2 → src ∉ todo.*1) →
  (∃ src, src ∈ todo.*2 ∧ d !! src = None) →
  (write_copies desc_columns G obj todo df d).2 = Raise FileNotFoundError.
Proof.
  intros Hlen. revert df d.
  induction todo as [|[p src] todo IH]; intros df d Hnd Hlab Hsep (src0 & Hin0 & Hnone).
  { by apply elem_of_nil in Hin0. }
  cbn [write_copies]. rewrite decide_True by done.
  destruct (d !! src) as [ds|] eqn:Hsrc; [|done].
  set (df1 := loc_set [p] (set_cols (take G (_columns desc_columns)) (UID obj)) df).
  assert (file <$> df1 = file <$> df) as Hf1.
  { unfold df1. apply loc_set_labels, file_set_cols. }
  assert (p ∈ file <$> df1) as Hp by (rewrite Hf1; apply Hlab; by left).
  apply list_elem_of_fmap in Hp as (row & -> & Hin).
  rewrite (filter_label_own df1 row) by (by rewrite ?Hf1).
  rewrite stamp_attributes_spec. cbn [fst snd].
  rewrite fmap_cons in Hin0. cbn [snd] in Hin0.
  apply elem_of_cons in Hin0 as [-> | Hin0]; [congruence|].
  assert (∀ r, file (stamp_cached desc_columns (attributes obj) r) = file r) as Hst.
  { intros r. by apply (stamp_cached_preserves desc_columns (λ r', file r' = file r)). }
  apply IH.
  - by rewrite loc_set_labels, Hf1.
  - intros p' Hp'. rewrite loc_set_labels, Hf1.
    + apply Hlab. by right.
    + intros r. by apply (stamp_cached_preserves desc_columns (λ r', file r' = file r)).
  - intros src' Hs' Hp'. apply (Hsep src'); [by right | by right].
  - exists src0. split; [done|]. rewrite lookup_insert_ne; [done|].
    intros Heq. apply (Hsep src0); [by right | rewrite <- Heq; by left].
Qed.

Lemma data_after_init (f : Folder) (self ancestor : DbRecord) :
  data (after_init f self ancestor) self = data f self.
Proof. reflexivity. Qed.

(** X6. When the file of a current row of the source is missing from
    disk, [copy_to] raises [FileNotFoundError] (source of generation 1 to
    4 copied below a higher level, root path, new labels pairwise distinct,
    no source file carrying one of the new labels).  The index is left as
    it was, and only files at the new labels can have been written. *)
Theorem copy_to_missing_file (f : Folder) (self ancestor : DbRecord)
    (root : string) (lost : Row) :
  path f = Some root →
  1 ≤ generation self ≤ 4 →
  generation ancestor < generation self →
  lost ∈ data f self →
  disk f !! file lost = None →
  NoDup (labels' f self) →
  (∀ row, row ∈ data f self → file row ∉ labels' f self) →
  ∃ f1, copy_to' f self ancestor = (f1, Raise FileNotFoundError) ∧
    dataframe f1 = dataframe f ∧
    ∀ q, q ∉ labels' f self → disk f1 !! q = disk f !! q.
Proof.
  intros Hp HG Ha Hlost Hnone Hndl Hsep.
  rewrite copy_to_unfold by lia.
  set (obj := copy_record generate_uid f self ancestor).
  set (fi := after_init f self ancestor).
  assert ((write_copies desc_columns (generation self) obj
             (zip (labels' fi self) (file <$> data fi self))
             (staged' fi self) (disk fi)).2 = Raise FileNotFoundError) as Hw.
  { apply write_copies_missing.
    - rewrite length_take. unfold obj, copy_record, _columns, generation in *.
      simpl. rewrite !length_app, length_fmap, length_seq. simpl. lia.
    - by rewrite file_staged_copies.
    - rewrite fst_todo, file_staged_copies. done.
    - rewrite fst_todo, snd_zip by (by rewrite length_copy_labels, length_fmap).
      intros src (row & -> & Hin)%list_elem_of_fmap. by apply Hsep.
    - exists (file lost). split; [|done].
      rewrite snd_zip by (by rewrite length_copy_labels, length_fmap).
      by apply list_elem_of_fmap_2. }
  destruct (merge' fi self obj) as [f1 res] eqn:Hm.
  assert (res = Raise FileNotFoundError) as ->.
  { rewrite _merge_with_unfold in Hm. unfold fi at 1 in Hm. simpl path in Hm.
    rewrite Hp in Hm. cbn zeta in Hm. rewrite Hw in Hm. by injection Hm as <- <-. }
  exists f1. split; [done|].
  destruct (merge_with_Raise generate_uid new_file_name desc_columns _ _ _ _ _ Hm)
    as (Hdf & _ & _).
  split; [done|]. intros q Hq.
  pose proof (merge_with_disk_other generate_uid new_file_name desc_columns
                fi self obj q Hq) as Hd.
  by rewrite Hm in Hd.
Qed.

Lemma new_rows_labels (f : Folder) (self : DbRecord) (new : list Row) :
  length new = length (data f self) →
  (∀ i row, new !! i = Some row → file row = new_file_name (file_count f + i)) →
  file <$> new = labels' f self.
Proof.
  intros Hlen Hrows. apply list_eq. intros i. unfold copy_labels.
  rewrite !list_lookup_fmap. destruct (new !! i) as [row|] eqn:Hi; simpl.
  - rewrite (Hrows i row Hi). apply lookup_lt_Some in Hi.
    rewrite lookup_seq_lt by lia. done.
  - apply lookup_ge_None in Hi. rewrite lookup_seq_ge by lia. done.
Qed.

(** X7. A copy that is rolled back leaves no trace.  On an index whose
    rows carry no staging flag (root path, pairwise distinct file labels,
    source files on disk, new labels pairwise distinct and used neither in
    the index nor on disk), [copy_to] followed by [restore] on the record
    of generation 0 returns the index and the disk to what they were
    before the copy. *)
Theorem copy_then_restore_database (f : Folder) (self ancestor db : DbRecord)
    (root : string) :
  path f = Some root →
  1 ≤ generation self ≤ 4 →
  generation ancestor < generation self →
  generation db = 0 →
  NoDup (file <$> dataframe f) →
  (∀ row, row ∈ dataframe f → created row = false ∧ removed row = false) →
  (∀ row, row ∈ data f self → is_Some (disk f !! file row)) →
  NoDup (labels' f self) →
  (∀ q, q ∈ labels' f self → (q ∉ file <$> dataframe f) ∧ disk f !! q = None) →
  ∃ f1 copy f2,
    copy_to' f self ancestor = (f1, Ok (Some copy)) ∧
    restore f1 db = (f2, Ok db) ∧
    dataframe f2 = dataframe f ∧ disk f2 = disk f.
Proof.
  intros Hp HG Ha Hdb Hnd Hclean Hdisk Hndl Hfresh.
  destruct (copy_to_succeeds generate_uid new_file_name desc_columns
              f self ancestor root Hp HG Ha Hndl Hdisk) as [f1 Hc].
  destruct (copy_to_new_rows generate_uid new_file_name desc_columns
              f f1 self ancestor _ HG Ha Hc)
    as (Hp1 & _ & _ & new & Hdf & Hlen & Hrows).
  assert (file <$> new = labels' f self) as Hlab.
  { apply new_rows_labels; [done|]. intros i row Hi. by destruct (Hrows i row Hi). }
  assert (NoDup (file <$> dataframe f1)) as Hnd1.
  { rewrite Hdf, fmap_app. apply NoDup_app. split; [done|]. split; [|by rewrite Hlab].
    intros q Hq Hq'. rewrite Hlab in Hq'. by destruct (Hfresh q Hq'). }
  assert (∀ row, row ∈ new → created row = true ∧ removed row = false) as Hnew.
  { intros row (i & Hi)%list_elem_of_lookup. by destruct (Hrows i row Hi) as (_ & ? & ? & _). }
  rewrite Hp in Hp1.
  exists f1, (copy_record generate_uid f self ancestor). eexists.
  split; [done|]. rewrite (restore_spec f1 db root Hp1 Hnd1). split; [done|]. simpl.
  split.
  - rewrite Hdf, filter_app.
    rewrite (filter_all _ (dataframe f))
      by (intros row Hin [_ Hcr]; destruct (Hclean row Hin); congruence).
    rewrite (filter_none _ new).
    2:{ intros row Hin Hn. apply Hn. split; [by apply in_scope_database|].
        by destruct (Hnew row Hin). }
    rewrite app_nil_r, (fmap_ext_in (rollback_row db) id), list_fmap_id; [done|].
    intros row Hin. unfold rollback_row. rewrite decide_False; [done|].
    intros [_ Hr]. destruct (Hclean row Hin). congruence.
  - apply map_eq. intros q. rewrite lookup_delete_files.
    assert (file <$> filter (λ row, in_scope db row ∧ created row = true) (dataframe f1)
            = labels' f self) as ->.
    { rewrite Hdf, filter_app.
      rewrite (filter_none _ (dataframe f))
        by (intros row Hin [_ Hcr]; destruct (Hclean row Hin); congruence).
      rewrite (filter_all _ new); [done|].
      intros row Hin. split; [by apply in_scope_database | by destruct (Hnew row Hin)]. }
    destruct (decide (q ∈ labels' f self)) as [Hq|Hq].
    + symmetry. by destruct (Hfresh q Hq).
    + rewrite copy_to_unfold in Hc by lia.
      pose proof (merge_with_disk_other generate_uid new_file_name desc_columns
                    (after_init f self ancestor) self
                    (copy_record generate_uid f self ancestor) q Hq) as Hd.
      by rewrite Hc in Hd.
Qed.

End CopyEdges.

(** ** Navigation: children by index, instances *)

Section Navigation.
Variable desc_columns : list string.

Local Abbreviation children' := (children desc_columns).
Local Abbreviation instances' := (instances desc_columns).

Lemma filter_true {A} (l : list A) : List.filter (λ _, true) l = l.
Proof. induction l as [|x l IH]; [done|]. simpl. by rewrite IH. Qed.

Lemma offspring_total (f : Folder) (self : DbRecord) (k : string) :
  key_columns !! generation self = Some k →
  length (offspring f self) = length (unique (get_col k <$> data f self)) ∧
  ∀ i v, unique (get_col k <$> data f self) !! i = Some v →
    ∃ row, head (filter (λ row, get_col k row = v) (data f self)) = Some row ∧
      offspring f self !! i = Some (object row (generation self + 1)).
Proof.
  intros Hk. unfold offspring. rewrite Hk.
  set (F := λ rec : option string,
              (λ row, object row (generation self + 1)) <$>
                head (filter (λ row, get_col k row = rec) (data f self))).
  assert (∀ v, v ∈ unique (get_col k <$> data f self) → is_Some (F v)) as Htot.
  { intros v (row & -> & Hin)%elem_of_unique%list_elem_of_fmap. unfold F.
    destruct (head_filter_is_Some (λ x, get_col k x = get_col k row) _ row Hin eq_refl)
      as [row' ->]. by eexists. }
  destruct (omap_total F _ Htot) as [Hlen Hlook]. split; [done|].
  intros i v Hi. destruct (Hlook i v Hi) as (o & Ho & HF). unfold F in HF.
  destruct (head (filter (λ row, get_col k row = v) (data f self))) as [row|]; [|done].
  injection HF as <-. by exists row.
Qed.

Lemma offspring_rows (f : Folder) (self : DbRecord) (o : DbRecord) :
  o ∈ offspring f self →
  ∃ row, row ∈ data f self ∧ o = object row (generation self + 1).
Proof.
  unfold offspring. destruct (key_columns !! generation self) as [k|]; [|by intros ?%elem_of_nil].
  intros (v & _ & Hv)%list_elem_of_omap.
  destruct (head (filter (λ row, get_col k row = v) (data f self))) as [row|] eqn:Hh; [|done].
  injection Hv as <-. apply head_filter_Some in Hh as [Hin _]. by exists row.
Qed.

Lemma offspring_cover (f : Folder) (self : DbRecord) (k : string) (row : Row) :
  key_columns !! generation self = Some k →
  row ∈ data f self →
  ∃ o, o ∈ offspring f self ∧ generation o = generation self + 1 ∧
       last (UID o) = get_col k row.
Proof.
  intros Hk Hin. destruct (offspring_total f self k Hk) as [_ Hlook].
  assert (get_col k row ∈ unique (get_col k <$> data f self)) as Hv.
  { apply elem_of_unique. by apply list_elem_of_fmap_2. }
  apply list_elem_of_lookup in Hv as [i Hi].
  destruct (Hlook i _ Hi) as (row' & Hh & Ho).
  apply head_filter_Some in Hh as [_ Hsame].
  destruct (object_own_column row' _ k Hk) as [Hgen Hlast].
  exists (object row' (generation self + 1)).
  split; [by apply list_elem_of_lookup_2 in Ho|]. split; [done|]. by rewrite Hlast.
Qed.

Lemma children_list (matches : Folder → DbRecord → bool) (f : Folder) (self : DbRecord) :
  generation self ≤ 3 →
  children' matches f self None = Ok (PyList (List.filter (matches f) (offspring f self))).
Proof.
  intros HG.
  assert (∃ k, key_columns !! generation self = Some k) as [k Hk].
  { apply lookup_lt_is_Some. simpl. lia. }
  unfold children, offspring. rewrite decide_False by lia. rewrite Hk.
  unfold records. replace (generation self + 1) with (S (generation self)) at 1 by lia.
  destruct (data f self) as [|row0 rows0] eqn:Erows; [done|].
  rewrite (last_columns desc_columns _ k Hk). done.
Qed.

Lemma children_at (matches : Folder → DbRecord → bool) (f : Folder) (self : DbRecord)
    (i : nat) :
  generation self ≤ 3 →
  children' matches f self (Some i)
  = match data f self with
    | [] => Ok PyNone
    | _ :: _ =>
        match offspring f self !! i with
        | Some o => if matches f o then Ok (PyObj o) else Raise IndexError
        | None => Raise IndexError
        end
    end.
Proof.
  intros HG.
  assert (∃ k, key_columns !! generation self = Some k) as [k Hk].
  { apply lookup_lt_is_Some. simpl. lia. }
  destruct (offspring_total f self k Hk) as [Hlen Hlook].
  unfold children. rewrite decide_False by lia.
  unfold records. replace (generation self + 1) with (S (generation self)) at 1 by lia.
  destruct (data f self) as [|row0 rows0] eqn:Erows; [done|].
  rewrite (last_columns desc_columns _ k Hk).
  destruct (unique (get_col k <$> row0 :: rows0) !! i) as [v|] eqn:Hi.
  - destruct (Hlook i v Hi) as (row & Hh & ->). cbn [omap list_omap].
    rewrite Hh. cbn [fmap option_fmap option_map]. unfold _filter. cbn [List.filter].
    by destruct (matches f (object row (generation self + 1))).
  - apply lookup_ge_None in Hi. rewrite <- Hlen in Hi.
    apply lookup_ge_None in Hi. by rewrite Hi.
Qed.

(** X8. [children(index=i, **kwargs)] on a record of generation at most 3
    selects among the children before the keyword filter is applied: it
    returns the i-th entry of the unfiltered [children()] if that record
    passes the filter, raises [IndexError] if it does not or if [i] is
    beyond the end, and returns [None] when the record has no current
    row. *)
Theorem children_by_index (matches : Folder → DbRecord → bool)
    (f : Folder) (self : DbRecord) (i : nat) :
  generation self ≤ 3 →
  ∃ kids,
    children' (λ _ _, true) f self None = Ok (PyList kids) ∧
    children' matches f self (Some i)
    = match data f self with
      | [] => Ok PyNone
      | _ :: _ =>
          match kids !! i with
          | Some o => if matches f o then Ok (PyObj o) else Raise IndexError
          | None => Raise IndexError
          end
      end.
Proof.
  intros HG. exists (offspring f self). split.
  - by rewrite children_list, filter_true.
  - by apply children_at.
Qed.

Lemma elem_of_concat {A} (ls : list (list A)) (x : A) :
  x ∈ concat ls ↔ ∃ l, x ∈ l ∧ l ∈ ls.
Proof.
  induction ls as [|l ls IH]; simpl.
  - split; [by intros ?%elem_of_nil | by intros (l & _ & ?%elem_of_nil)].
  - rewrite elem_of_app, IH. split.
    + intros [Hx | (l' & Hx & Hl')]; [exists l; split; [done | by left]|].
      exists l'. split; [done | by right].
    + intros (l' & Hx & [-> | Hl']%elem_of_cons); [by left|]. right. by exists l'.
Qed.

Lemma for_each_total {A B} (g : A → option (result B)) (P : A → B → Prop) (l : list A) :
  (∀ x, x ∈ l → ∃ b, g x = Some (Ok b) ∧ P x b) →
  ∃ bs, for_each g l = Some (Ok bs) ∧ Forall2 P l bs.
Proof.
  induction l as [|x l IH]; intros Hall.
  { exists []. split; [done | constructor]. }
  destruct (Hall x ltac:(by left)) as (b & Hb & HP).
  destruct IH as (bs & Hbs & HF). { intros y Hy. apply Hall. by right. }
  exists (b :: bs). simpl. rewrite Hb, Hbs. split; [done|]. by constructor.
Qed.

Lemma in_scope_offspring (self : DbRecord) (k : string) (o : DbRecord) (row : Row) :
  key_columns !! generation self = Some k →
  generation o = generation self + 1 →
  last (UID o) = get_col k row →
  in_scope o row.
Proof.
  intros Hk Hgen Hlast. unfold in_scope, key. rewrite Hlast, Hgen.
  assert (last (take (generation self + 1) key_columns) = Some k) as ->.
  { revert Hk. generalize (generation self). intros g.
    destruct g as [|[|[|[|g]]]]; simpl; intros [= <-]; done. }
  destruct (get_col k row); done.
Qed.

Lemma get_col_key (row : Row) (l : nat) (k : string) :
  key_columns !! l = Some k → get_col k row = uid_of_row row !! l.
Proof. destruct l as [|[|[|[|l]]]]; simpl; intros [= <-]; done. Qed.

(** The walks down the tree, [instances], [studies] and [series], run
    the same recursion to different levels: [base] is the generation at
    which the walk returns the children. *)
Section Walk.
Variable matches : Folder → DbRecord → bool.
Variable f : Folder.
Variable root : string.
Hypothesis Hp : path f = Some root.
Variable base : nat.
Hypothesis Hbase : base ≤ 3.
Variable walk : nat → DbRecord → option nat → option (result pyvalue).
Hypothesis walk_base : ∀ fuel self index,
  generation self = base →
  walk (S fuel) self index = Some (children' matches f self index).
Hypothesis walk_step : ∀ fuel self index,
  generation self < base →
  walk (S fuel) self index
  = gather (λ child, walk fuel child None) (all_children desc_columns f self) index.

Lemma walk_total (fuel : nat) (self : DbRecord) :
  generation self ≤ base →
  base + 1 - generation self ≤ fuel →
  ∃ l, walk fuel self None = Some (Ok (PyList l)) ∧
    (∀ o, o ∈ l →
       matches f o = true ∧
       ∃ row, row ∈ dataframe f ∧ removed row = false ∧ o = object row (base + 1)) ∧
    (∀ row, row ∈ data f self →
       ∃ o, generation o = base + 1 ∧ last (UID o) = uid_of_row row !! base ∧
            (matches f o = true → o ∈ l)).
Proof.
  revert self. induction fuel as [|fuel IH]; intros self HG Hfuel; [lia|].
  assert (∃ k, key_columns !! generation self = Some k) as [k Hk].
  { apply lookup_lt_is_Some. simpl. lia. }
  destruct (decide (generation self = base)) as [Hb|Hb].
  - rewrite walk_base, children_list by lia.
    exists (List.filter (matches f) (offspring f self)). split; [done|]. split.
    + intros o [Hin Hm]%list_elem_of_In%filter_In. apply list_elem_of_In in Hin.
      apply offspring_rows in Hin as (row & Hrow & ->).
      rewrite (data_selection f self root Hp) in Hrow.
      apply list_elem_of_filter in Hrow as [[Hr _] Hrow].
      split; [done|]. exists row. by rewrite Hb.
    + intros row Hrow.
      destruct (offspring_cover f self k row Hk Hrow) as (o & Ho & Hgen & Hlast).
      exists o. rewrite <- Hb. split; [done|].
      split; [by rewrite Hlast, (get_col_key row _ k Hk)|]. intros Hm.
      apply list_elem_of_In, filter_In. split; [by apply list_elem_of_In | done].
  - rewrite walk_step by lia. unfold all_children, gather.
    rewrite children_list, filter_true by lia.
    destruct (for_each_total
                (λ child,
                   match walk fuel child None with
                   | Some (Ok (PyList inst)) => Some (Ok inst)
                   | Some (Ok PyNone) => Some (Raise TypeError)
                   | Some (Ok (PyObj _)) => None
                   | Some (Raise e) => Some (Raise e)
                   | None => None
                   end)
                (λ child inst, walk fuel child None = Some (Ok (PyList inst)))
                (offspring f self)) as (found & -> & HF).
    { intros child (row & _ & ->)%offspring_rows.
      destruct (object_own_column row _ k Hk) as [Hgen _].
      destruct (IH (object row (generation self + 1))) as (l & Hl & _); [lia..|].
      exists l. by rewrite Hl. }
    exists (concat found). split; [done|]. split.
    + intros o (inst & Ho & Hinst)%elem_of_concat.
      apply list_elem_of_lookup in Hinst as [i Hi].
      destruct (Forall2_lookup_r _ _ _ _ _ HF Hi) as (child & Hc & Hrun).
      apply list_elem_of_lookup_2, offspring_rows in Hc as (row & _ & ->).
      destruct (object_own_column row _ k Hk) as [Hgen _].
      destruct (IH (object row (generation self + 1))) as (l & Hl & Hsound & _); [lia..|].
      rewrite Hl in Hrun. injection Hrun as <-. by apply Hsound.
    + intros row Hrow.
      destruct (offspring_cover f self k row Hk Hrow) as (child & Hc & Hgen & Hlast).
      destruct (IH child) as (l & Hl & _ & Hcover); [lia..|].
      destruct (Hcover row) as (o & Hgo & Ho & Hin).
      { rewrite (data_selection f child root Hp).
        rewrite (data_selection f self root Hp) in Hrow.
        apply list_elem_of_filter in Hrow as [[Hr _] Hrow].
        apply list_elem_of_filter. split; [|done]. split; [done|].
        by apply (in_scope_offspring self k). }
      exists o. split; [done|]. split; [done|]. intros Hm. apply elem_of_concat.
      apply list_elem_of_lookup in Hc as [i Hi].
      destruct (Forall2_lookup_l _ _ _ _ _ HF Hi) as (inst & Hinst & Hrun).
      rewrite Hl in Hrun. injection Hrun as <-.
      exists l. split; [by apply Hin | by apply list_elem_of_lookup_2 in Hinst].
Qed.

Lemma walk_index (fuel i : nat) (self : DbRecord) :
  generation self < base →
  base + 1 - generation self ≤ fuel →
  ∃ l, walk fuel self None = Some (Ok (PyList l)) ∧
    walk fuel self (Some i)
    = Some (Ok (match l !! i with Some o => PyObj o | None => PyNone end)).
Proof.
  intros HG Hfuel. destruct (walk_total fuel self) as (l & Hl & _); [lia..|].
  exists l. split; [done|].
  destruct fuel as [|fuel]; [lia|]. rewrite walk_step in * by done.
  unfold gather in *.
  destruct (all_children desc_columns f self) as [[|kids|]|]; try done.
  destruct (for_each _ kids) as [[found|]|]; try done.
  injection Hl as <-. by destruct (concat found !! i).
Qed.

Lemma filter_concat {A} (p : A → bool) (ls : list (list A)) :
  List.filter p (concat ls) = concat (List.filter p <$> ls).
Proof.
  induction ls as [|l ls IH]; [done|]. simpl. by rewrite List.filter_app, IH.
Qed.

Lemma for_each_Forall2 {A B} (g : A → option (result B)) (l : list A) (bs : list B) :
  Forall2 (λ x b, g x = Some (Ok b)) l bs → for_each g l = Some (Ok bs).
Proof.
  induction 1 as [|x b l bs Hx _ IH]; [done|]. simpl. by rewrite Hx, IH.
Qed.

(** The walk without keywords runs the same recursion; the keyword filter
    of the walk with keywords acts at the level of the entries only. *)
Variable walk_all : nat → DbRecord → option nat → option (result pyvalue).
Hypothesis walk_all_base : ∀ fuel self index,
  generation self = base →
  walk_all (S fuel) self index = Some (children' (λ _ _, true) f self index).
Hypothesis walk_all_step : ∀ fuel self index,
  generation self < base →
  walk_all (S fuel) self index
  = gather (λ child, walk_all fuel child None) (all_children desc_columns f self) index.

Lemma walk_filtered (fuel : nat) (self : DbRecord) :
  generation self ≤ base →
  base + 1 - generation self ≤ fuel →
  ∃ l, walk_all fuel self None = Some (Ok (PyList l)) ∧
    walk fuel self None = Some (Ok (PyList (List.filter (matches f) l))) ∧
    (∀ o, o ∈ l →
       ∃ row, row ∈ dataframe f ∧ removed row = false ∧ o = object row (base + 1)) ∧
    (∀ row, row ∈ data f self →
       ∃ o, o ∈ l ∧ generation o = base + 1 ∧ last (UID o) = uid_of_row row !! base).
Proof.
  revert self. induction fuel as [|fuel IH]; intros self HG Hfuel; [lia|].
  assert (∃ k, key_columns !! generation self = Some k) as [k Hk].
  { apply lookup_lt_is_Some. simpl. lia. }
  destruct (decide (generation self = base)) as [Hb|Hb].
  - rewrite walk_base, walk_all_base, !children_list, filter_true by lia.
    exists (offspring f self). split; [done|]. split; [done|]. split.
    + intros o (row & Hrow & ->)%offspring_rows.
      rewrite (data_selection f self root Hp) in Hrow.
      apply list_elem_of_filter in Hrow as [[Hr _] Hrow].
      exists row. by rewrite Hb.
    + intros row Hrow.
      destruct (offspring_cover f self k row Hk Hrow) as (o & Ho & Hgen & Hlast).
      exists o. rewrite <- Hb. split; [done|]. split; [done|].
      by rewrite Hlast, (get_col_key row _ k Hk).
  - rewrite walk_step, walk_all_step by lia. unfold all_children, gather.
    rewrite children_list, filter_true by lia.
    destruct (for_each_total
                (λ child,
                   match walk_all fuel child None with
                   | Some (Ok (PyList inst)) => Some (Ok inst)
                   | Some (Ok PyNone) => Some (Raise TypeError)
                   | Some (Ok (PyObj _)) => None
                   | Some (Raise e) => Some (Raise e)
                   | None => None
                   end)
                (λ child inst,
                   walk_all fuel child None = Some (Ok (PyList inst)) ∧
                   walk fuel child None
                   = Some (Ok (PyList (List.filter (matches f) inst))))
                (offspring f self)) as (found & -> & HF).
    { intros child (row & _ & ->)%offspring_rows.
      destruct (object_own_column row _ k Hk) as [Hgen _].
      destruct (IH (object row (generation self + 1))) as (l & Hl & Hl' & _); [lia..|].
      exists l. by rewrite Hl. }
    rewrite (for_each_Forall2 _ _ (List.filter (matches f) <$> found)).
    2:{ apply Forall2_fmap_r. eapply Forall2_impl; [exact HF|].
        intros child inst [_ Hrun]. simpl. by rewrite Hrun. }
    exists (concat found). split; [done|]. split; [by rewrite filter_concat|]. split.
    + intros o (inst & Ho & Hinst)%elem_of_concat.
      apply list_elem_of_lookup in Hinst as [i Hi].
      destruct (Forall2_lookup_r _ _ _ _ _ HF Hi) as (child & Hc & Hrun & _).
      apply list_elem_of_lookup_2, offspring_rows in Hc as (row & _ & ->).
      destruct (object_own_column row _ k Hk) as [Hgen _].
      destruct (IH (object row (generation self + 1))) as (l & Hl & _ & Hsound & _); [lia..|].
      rewrite Hl in Hrun. injection Hrun as <-. by apply Hsound.
    + intros row Hrow.
      destruct (offspring_cover f self k row Hk Hrow) as (child & Hc & Hgen & Hlast).
      destruct (IH child) as (l & Hl & _ & _ & Hcover); [lia..|].
      destruct (Hcover row) as (o & Hin & Hgo & Ho).
      { rewrite (data_selection f child root Hp).
        rewrite (data_selection f self root Hp) in Hrow.
        apply list_elem_of_filter in Hrow as [[Hr _] Hrow].
        apply list_elem_of_filter. split; [|done]. split; [done|].
        by apply (in_scope_offspring self k). }
      exists o. split; [|done]. apply elem_of_concat.
      apply list_elem_of_lookup in Hc as [i Hi].
      destruct (Forall2_lookup_l _ _ _ _ _ HF Hi) as (inst & Hinst & Hrun & _).
      rewrite Hl in Hrun. injection Hrun as <-.
      exists l. split; [done | by apply list_elem_of_lookup_2 in Hinst].
Qed.

End Walk.

Lemma instances_base (matches : Folder → DbRecord → bool) (f : Folder)
    (fuel : nat) (self : DbRecord) (index : option nat) :
  generation self = 3 →
  instances' (S fuel) matches f self index = Some (children' matches f self index).
Proof.
  intros Hr. cbn [instances]. rewrite decide_False by lia. by rewrite decide_True.
Qed.

Lemma instances_step (matches : Folder → DbRecord → bool) (f : Folder)
    (fuel : nat) (self : DbRecord) (index : option nat) :
  generation self < 3 →
  instances' (S fuel) matches f self index
  = gather (λ child, instances' fuel matches f child None)
           (all_children desc_columns f self) index.
Proof. intros Hr. cbn [instances]. by rewrite !decide_False by lia. Qed.

(** X9. [instances()] on a record of generation at most 3 (root path)
    returns a list once the recursion is given the depth of the tree
    below the record.  Without keywords, every entry of the list is the
    Instance record of a row that is not staged for removal, and every
    current row of the record is reached: the list holds an Instance
    record whose last identifier is the row's SOPInstanceUID.  With
    keywords, the call returns the entries of that list that pass the
    keyword filter, in the same order. *)
Theorem instances_reach_every_row (matches : Folder → DbRecord → bool)
    (f : Folder) (self : DbRecord) (root : string) (fuel : nat) :
  path f = Some root →
  generation self ≤ 3 →
  4 - generation self ≤ fuel →
  ∃ l, instances' fuel (λ _ _, true) f self None = Some (Ok (PyList l)) ∧
    instances' fuel matches f self None
    = Some (Ok (PyList (List.filter (matches f) l))) ∧
    (∀ o, o ∈ l →
       generation o = 4 ∧
       ∃ row, row ∈ dataframe f ∧ removed row = false ∧ UID o = uid_of_row row) ∧
    (∀ row, row ∈ data f self →
       ∃ o, o ∈ l ∧ generation o = 4 ∧ last (UID o) = Some (SOPInstanceUID row)).
Proof.
  intros Hp HG Hfuel.
  destruct (walk_filtered matches f root Hp 3 ltac:(lia)
              (λ fuel self index, instances' fuel matches f self index)
              (instances_base matches f) (instances_step matches f)
              (λ fuel self index, instances' fuel (λ _ _, true) f self index)
              (instances_base (λ _ _, true) f) (instances_step (λ _ _, true) f)
              fuel self HG ltac:(lia)) as (l & Hl & Hl' & Hs & Hc).
  exists l. split; [done|]. split; [done|]. split.
  - intros o Ho. destruct (Hs o Ho) as (row & Hin & Hr & ->).
    split; [done|]. by exists row.
  - intros row Hrow. destruct (Hc row Hrow) as (o & Hin & Hgen & Hlast). by exists o.
Qed.

(** X10. Above the series level an index beyond the end is not an
    error: on a record of generation at most 2 (root path),
    [instances(index=i)] returns the i-th entry of [instances()], and
    [None] when there is no such entry. *)
Theorem instances_by_index (matches : Folder → DbRecord → bool)
    (f : Folder) (self : DbRecord) (root : string) (fuel i : nat) :
  path f = Some root →
  generation self ≤ 2 →
  4 - generation self ≤ fuel →
  ∃ l, instances' fuel matches f self None = Some (Ok (PyList l)) ∧
    instances' fuel matches f self (Some i)
    = Some (Ok (match l !! i with Some o => PyObj o | None => PyNone end)).
Proof.
  intros Hp HG Hfuel.
  apply (walk_index matches f root Hp 3 ltac:(lia)
           (λ fuel self index, instances' fuel matches f self index)); [| |lia|lia].
  - intros n r index Hr. cbn [instances]. rewrite decide_False by lia.
    by rewrite decide_True.
  - intros n r index Hr. cbn [instances]. by rewrite !decide_False by lia.
Qed.

Section Levels.
Variable dicm_parent : Folder → DbRecord → DbRecord.

Local Abbreviation patients' := (Nav.patients desc_columns dicm_parent).
Local Abbreviation studies' := (Nav.studies desc_columns dicm_parent).
Local Abbreviation series' := (Nav.series desc_columns dicm_parent).

Lemma series_base (matches : Folder → DbRecord → bool) (f : Folder)
    (fuel : nat) (self : DbRecord) (index : option nat) :
  generation self = 2 →
  series' (S fuel) matches f self index = Some (children' matches f self index).
Proof.
  intros Hr. cbn [Nav.series]. rewrite !decide_False by lia. by rewrite decide_True.
Qed.

Lemma series_step (matches : Folder → DbRecord → bool) (f : Folder)
    (fuel : nat) (self : DbRecord) (index : option nat) :
  generation self < 2 →
  series' (S fuel) matches f self index
  = gather (λ child, series' fuel matches f child None)
           (all_children desc_columns f self) index.
Proof. intros Hr. cbn [Nav.series]. by rewrite !decide_False by lia. Qed.

Lemma studies_base (matches : Folder → DbRecord → bool) (f : Folder)
    (fuel : nat) (self : DbRecord) (index : option nat) :
  generation self = 1 →
  studies' (S fuel) matches f self index = Some (children' matches f self index).
Proof.
  intros Hr. cbn [Nav.studies]. rewrite !decide_False by lia. by rewrite decide_True.
Qed.

Lemma studies_step (matches : Folder → DbRecord → bool) (f : Folder)
    (fuel : nat) (self : DbRecord) (index : option nat) :
  generation self < 1 →
  studies' (S fuel) matches f self index
  = gather (λ child, studies' fuel matches f child None)
           (all_children desc_columns f self) index.
Proof. intros Hr. cbn [Nav.studies]. by rewrite !decide_False by lia. Qed.

(** X11. [series()] on a database, patient or study, and [studies()]
    on a database or patient (root path), return a list once the
    recursion is given the depth of the tree down to that level.  Without
    keywords, every entry of the list is the Series, or Study, record of a
    row that is not staged for removal, and for every current row of the
    record the list holds a Series, or Study, record whose last identifier
    is the row's SeriesInstanceUID, or StudyInstanceUID.  With keywords,
    the call returns the entries of that list that pass the keyword
    filter, in the same order. *)
Theorem series_and_studies_reach_every_row (matches : Folder → DbRecord → bool)
    (f : Folder) (self : DbRecord) (root : string) (fuel : nat) :
  path f = Some root →
  (generation self ≤ 2 → 3 - generation self ≤ fuel →
   ∃ l, series' fuel (λ _ _, true) f self None = Some (Ok (PyList l)) ∧
     series' fuel matches f self None
     = Some (Ok (PyList (List.filter (matches f) l))) ∧
     (∀ o, o ∈ l →
        ∃ row, row ∈ dataframe f ∧ removed row = false ∧ o = object row 3) ∧
     (∀ row, row ∈ data f self →
        ∃ o, o ∈ l ∧ generation o = 3 ∧
             last (UID o) = Some (SeriesInstanceUID row))) ∧
  (generation self ≤ 1 → 2 - generation self ≤ fuel →
   ∃ l, studies' fuel (λ _ _, true) f self None = Some (Ok (PyList l)) ∧
     studies' fuel matches f self None
     = Some (Ok (PyList (List.filter (matches f) l))) ∧
     (∀ o, o ∈ l →
        ∃ row, row ∈ dataframe f ∧ removed row = false ∧ o = object row 2) ∧
     (∀ row, row ∈ data f self →
        ∃ o, o ∈ l ∧ generation o = 2 ∧
             last (UID o) = Some (StudyInstanceUID row))).
Proof.
  intros Hp. split; intros HG Hfuel.
  - exact (walk_filtered matches f root Hp 2 ltac:(lia)
             (λ fuel self index, series' fuel matches f self index)
             (series_base matches f) (series_step matches f)
             (λ fuel self index, series' fuel (λ _ _, true) f self index)
             (series_base (λ _ _, true) f) (series_step (λ _ _, true) f)
             fuel self HG ltac:(lia)).
  - exact (walk_filtered matches f root Hp 1 ltac:(lia)
             (λ fuel self index, studies' fuel matches f self index)
             (studies_base matches f) (studies_step matches f)
             (λ fuel self index, studies' fuel (λ _ _, true) f self index)
             (studies_base (λ _ _, true) f) (studies_step (λ _ _, true) f)
             fuel self HG ltac:(lia)).
Qed.

(** X12. [patients()] returns the children of the record not only on
    the database but also on a Study, where the parent is looked up and
    then dropped: on a record of generation 0 or 2 the call gives what
    [children()] gives, records one level below the record, so that on a
    Study the entries are Series records. *)
Theorem patients_are_children (matches : Folder → DbRecord → bool)
    (f : Folder) (self : DbRecord) (index : option nat) :
  generation self = 0 ∨ generation self = 2 →
  patients' matches f self index = children' matches f self index ∧
  ∃ kids, patients' matches f self None = Ok (PyList kids) ∧
    ∀ o, o ∈ kids → generation o = generation self + 1.
Proof.
  intros HG. assert (generation self ≤ 3) as H3 by lia.
  assert (∀ index, patients' matches f self index = children' matches f self index) as Heq.
  { intros ix. unfold Nav.patients. by rewrite !decide_False by lia. }
  split; [done|]. rewrite Heq, children_list by done. eexists. split; [done|].
  intros o [Hin _]%list_elem_of_In%filter_In. apply list_elem_of_In in Hin.
  apply offspring_rows in Hin as (row & _ & ->).
  assert (∃ k, key_columns !! generation self = Some k) as [k Hk].
  { apply lookup_lt_is_Some. simpl. lia. }
  by destruct (object_own_column row _ k Hk).
Qed.

End Levels.

End Navigation.

(** ** Reading records into memory *)

Section Reading.
Variable desc_columns : list string.

Local Abbreviation read' := (read desc_columns).

Lemma unique_aux_NoDup {A} `{EqDecision A} (seen l : list A) :
  NoDup l → (∀ x, x ∈ l → x ∉ seen) → unique_aux seen l = l.
Proof.
  revert seen. induction l as [|x l IH]; intros seen Hnd Hseen; [done|].
  apply NoDup_cons in Hnd as [Hx Hnd]. simpl.
  rewrite decide_False by (apply Hseen; by left). f_equal. apply IH; [done|].
  intros y Hy [-> | Hs]%elem_of_cons; [done|]. apply (Hseen y); [by right | done].
Qed.

Lemma unique_NoDup {A} `{EqDecision A} (l : list A) : NoDup l → unique l = l.
Proof. intros Hnd. apply unique_aux_NoDup; [done|]. intros x _. apply not_elem_of_nil. Qed.

Lemma filter_NoDup_own {A B} `{EqDecision B} (g : A → B) (l : list A) (x : A) :
  NoDup (g <$> l) → x ∈ l → filter (λ y, g y = g x) l = [x].
Proof.
  intros Hnd Hin. induction l as [|z l IH]; [by apply elem_of_nil in Hin|].
  rewrite fmap_cons in Hnd. apply NoDup_cons in Hnd as [Hz Hnd].
  rewrite filter_cons. apply elem_of_cons in Hin as [-> | Hin].
  - rewrite decide_True by done. f_equal. apply filter_none.
    intros y Hy Heq. apply Hz. rewrite <- Heq. by apply list_elem_of_fmap_2.
  - rewrite decide_False; [by apply IH|].
    intros Heq. apply Hz. rewrite Heq. by apply list_elem_of_fmap_2.
Qed.

Lemma NoDup_fmap_filter {A B} (g : A → B) (P : A → Prop) `{∀ x, Decision (P x)}
    (l : list A) :
  NoDup (g <$> l) → NoDup (g <$> filter P l).
Proof.
  induction l as [|x l IH]; [done|]. rewrite fmap_cons. intros [Hx Hnd]%NoDup_cons.
  rewrite filter_cons. destruct (decide (P x)); [|by apply IH].
  rewrite fmap_cons. apply NoDup_cons. split; [|by apply IH].
  intros (y & Heq & [_ Hy]%list_elem_of_filter)%list_elem_of_fmap.
  apply Hx. rewrite Heq. by apply list_elem_of_fmap_2.
Qed.

Lemma for_each_fmap {A B C} (g : A → option (result B)) (k : C → A) (h : C → B)
    (l : list C) :
  (∀ x, x ∈ l → g (k x) = Some (Ok (h x))) →
  for_each g (k <$> l) = Some (Ok (h <$> l)).
Proof.
  induction l as [|x l IH]; intros Hall; [done|]. rewrite !fmap_cons. simpl.
  rewrite (Hall x) by by left. rewrite IH; [done|]. intros y Hy. apply Hall. by right.
Qed.

Lemma omap_head_own {A B C} `{EqDecision B} (g : A → B) (k : A → C) (rows l : list A) :
  (∀ x, x ∈ l → head (filter (λ y, g y = g x) rows) = Some x) →
  omap (λ v, k <$> head (filter (λ y, g y = v) rows)) (g <$> l) = k <$> l.
Proof.
  induction l as [|x l IH]; intros Hh; [done|].
  rewrite !fmap_cons. cbn [omap list_omap]. rewrite Hh by by left.
  cbn [fmap option_fmap option_map]. f_equal. apply IH. intros y Hy. apply Hh. by right.
Qed.

(** With one current row per SOPInstanceUID, the children of a series
    are its current rows, one Instance record each. *)
Lemma series_offspring (f : Folder) (self : DbRecord) :
  generation self = 3 →
  NoDup (SOPInstanceUID <$> data f self) →
  offspring f self = (λ row, object row 4) <$> data f self.
Proof.
  intros HG Hnd. unfold offspring. rewrite HG. cbn [lookup list_lookup key_columns].
  assert (NoDup (get_col "SOPInstanceUID" <$> data f self)) as Hnd'.
  { rewrite (fmap_ext_in (get_col "SOPInstanceUID") (Some ∘ SOPInstanceUID))
      by done.
    rewrite list_fmap_compose. by apply (NoDup_fmap_2 Some). }
  rewrite (unique_NoDup _ Hnd').
  apply omap_head_own. intros row Hin.
  by rewrite (filter_NoDup_own (get_col "SOPInstanceUID") _ row Hnd' Hin).
Qed.

Lemma instance_data (f : Folder) (root : string) (row : Row) :
  path f = Some root →
  NoDup (SOPInstanceUID <$> filter (λ row, removed row = false) (dataframe f)) →
  row ∈ dataframe f → removed row = false →
  data f (object row 4) = [row].
Proof.
  intros Hp Hnd Hin Hr. unfold data. rewrite Hp. simpl.
  rewrite (filter_ext_in _ (λ r, SOPInstanceUID r = SOPInstanceUID row))
    by (intros r _; change (get_col "SOPInstanceUID" r) with (Some (SOPInstanceUID r));
        split; congruence).
  apply filter_NoDup_own; [done|]. by apply list_elem_of_filter.
Qed.

(** X13. [read()] on a Series (root path, no two current rows sharing a
    SOPInstanceUID) returns the empty DataSet when the series has no
    current row, and otherwise a list with one DataSet per current row, in
    the order of the index: the content of the row's file, or an empty
    DataSet where the file cannot be read.  No exception comes out. *)
Theorem read_series (f : Folder) (self : DbRecord) (root : string) (fuel : nat) :
  path f = Some root →
  generation self = 3 →
  NoDup (SOPInstanceUID <$> filter (λ row, removed row = false) (dataframe f)) →
  2 ≤ fuel →
  read' fuel f self
  = Some (Ok match data f self with
             | [] => DsNone None
             | rows =>
                 DsList None
                   ((λ row, match disk f !! file row with
                            | Some ds => DsInstance (Some self) ds
                            | None => DsNone (Some self)
                            end) <$> rows)
             end).
Proof.
  intros Hp HG Hnd Hfuel.
  destruct fuel as [|[|fuel]]; [lia..|].
  assert (NoDup (SOPInstanceUID <$> data f self)) as Hnd'.
  { rewrite (data_selection f self root Hp), <- filter_filter_and.
    by apply NoDup_fmap_filter. }
  cbn [read]. rewrite decide_False by lia.
  unfold all_children. rewrite children_list, filter_true by lia.
  rewrite (series_offspring f self HG Hnd').
  set (load := λ row, match disk f !! file row with
                      | Some ds => DsInstance None ds
                      | None => DsNone None
                      end).
  rewrite (for_each_fmap (read' (S fuel) f) (λ row, object row 4) load).
  - destruct (data f self) as [|row rows]; [done|].
    rewrite !fmap_cons. do 3 f_equal. f_equal.
    + unfold load. by destruct (disk f !! file row).
    + rewrite <- list_fmap_compose. apply fmap_ext_in. intros r _. simpl.
      unfold load. by destruct (disk f !! file r).
  - intros row Hin. cbn [read]. rewrite decide_True by done. f_equal.
    rewrite (data_selection f self root Hp) in Hin.
    apply list_elem_of_filter in Hin as [[Hr _] Hin].
    unfold _read_instance. rewrite Hp, (instance_data f root row Hp Hnd Hin Hr).
    unfold load. by destruct (disk f !! file row).
Qed.

Lemma dataset_generation_set_parent (p : DbRecord) (d : DataSet) :
  dataset_generation (set_parent p d) = dataset_generation d.
Proof. by destruct d. Qed.

Lemma read_total (f : Folder) (root : string) (fuel : nat) (self : DbRecord) :
  path f = Some root →
  generation self ≤ 4 →
  5 - generation self ≤ fuel →
  ∃ d, read' fuel f self = Some (Ok d) ∧
    (data f self ≠ [] →
     (∀ row, row ∈ dataframe f → removed row = false → is_Some (disk f !! file row)) →
     dataset_generation d = Ok (Some (Z.of_nat (generation self)))).
Proof.
  intros Hp. revert self. induction fuel as [|fuel IH]; intros self HG Hfuel; [lia|].
  cbn [read]. destruct (decide (generation self = 4)) as [H4|H4].
  - unfold _read_instance. rewrite Hp.
    pose proof (data_selection f self root Hp) as Hdata.
    destruct (data f self) as [|row rows] eqn:Hrows.
    + eexists. split; [done|]. by intros [].
    + assert (row ∈ dataframe f ∧ removed row = false) as [Hin Hr].
      { assert (row ∈ row :: rows) as Hrow by by left.
        rewrite Hdata in Hrow. apply list_elem_of_filter in Hrow. tauto. }
      destruct (disk f !! file row) as [ds|] eqn:Hds.
      * eexists. split; [done|]. intros _ _. simpl. by rewrite H4.
      * eexists. split; [done|]. intros _ Hdisk.
        destruct (Hdisk row Hin Hr) as [ds Hsome]. congruence.
  - assert (∃ k, key_columns !! generation self = Some k) as [k Hk].
    { apply lookup_lt_is_Some. simpl. lia. }
    unfold all_children. rewrite children_list, filter_true by lia.
    destruct (for_each_total (read' fuel f)
                (λ child d,
                   (∀ row, row ∈ dataframe f → removed row = false →
                           is_Some (disk f !! file row)) →
                   dataset_generation d = Ok (Some (Z.of_nat (generation self + 1))))
                (offspring f self)) as (datasets & Hrun & HF).
    { intros child Hchild.
      destruct (offspring_rows f self child Hchild) as (row & Hrow & ->).
      destruct (object_own_column row _ k Hk) as [Hgen Hlast].
      destruct (IH (object row (generation self + 1))) as (d & Hd & Hg); [lia..|].
      exists d. split; [done|]. intros Hdisk. rewrite <- Hgen. apply Hg; [|done].
      assert (row ∈ data f (object row (generation self + 1))) as Hown.
      { rewrite (data_selection f _ root Hp).
        rewrite (data_selection f self root Hp) in Hrow.
        apply list_elem_of_filter in Hrow as [[Hr _] Hrow].
        apply list_elem_of_filter. split; [|done]. split; [done|].
        by apply (in_scope_offspring self k). }
      intros Hnil. rewrite Hnil in Hown. by apply elem_of_nil in Hown. }
    rewrite Hrun.
    destruct (offspring f self) as [|kid kids] eqn:Hkids.
    + eexists. split; [done|]. intros Hne _.
      destruct (data f self) as [|row rows] eqn:Hrows; [done|].
      destruct (offspring_cover f self k row Hk) as (o & Ho & _).
      { rewrite Hrows. by left. }
      rewrite Hkids in Ho. by apply elem_of_nil in Ho.
    + eexists. split; [done|]. intros _ Hdisk.
      apply Forall2_cons_inv_l in HF as (d & ds & Hd & _ & ->).
      rewrite fmap_cons. cbn [dataset_generation].
      rewrite dataset_generation_set_parent, (Hd Hdisk). do 2 f_equal. lia.
Qed.

(** X14. [read()] never raises on a record of generation at most 4 in a
    folder with a root path: it returns a DataSet once the recursion is
    given the depth of the tree below the record, whatever is missing on
    disk.  When the record has a current row and the file of every
    current row of the index is on disk, the DataSet reports the
    generation of the record it was read from. *)
Theorem read_keeps_generation (f : Folder) (self : DbRecord) (root : string)
    (fuel : nat) :
  path f = Some root →
  generation self ≤ 4 →
  5 - generation self ≤ fuel →
  ∃ d, read' fuel f self = Some (Ok d) ∧
    (data f self ≠ [] →
     (∀ row, row ∈ dataframe f → removed row = false → is_Some (disk f !! file row)) →
     dataset_generation d = Ok (Some (Z.of_nat (generation self)))).
Proof. apply read_total. Qed.

End Reading.

(** ** What a copy does to the levels below the source *)

Section Collapse.
Variable generate_uid : nat → string.
Variable new_file_name : nat → string.
Variable desc_columns : list string.

Local Abbreviation copy_to' := (copy_to generate_uid new_file_name desc_columns).
Local Abbreviation merge_with' := (merge_with generate_uid new_file_name desc_columns).
Local Abbreviation merge' := (_merge_with generate_uid new_file_name desc_columns).
Local Abbreviation rekeyed' := (rekeyed generate_uid new_file_name desc_columns).
Local Abbreviation staged' := (staged_copies generate_uid new_file_name desc_columns).
Local Abbreviation labels' := (copy_labels new_file_name).

Lemma rekey_column_common (k : string) (c : nat) (df : list Row) :
  ∃ u, ∀ r0, r0 ∈ (rekey_column generate_uid k (c, df)).2 →
    ∃ row, row ∈ df ∧ r0 = set_col k u row.
Proof.
  rewrite rekey_column_spec. cbn zeta.
  destruct (length (unique (get_col k <$> df))) as [|m'] eqn:Hm; cbn [fst snd].
  - apply length_zero_iff_nil, unique_nil, fmap_nil_inv in Hm. subst df.
    exists k. by intros r0 ?%elem_of_nil.
  - exists (generate_uid (c + m')).
    intros r0 (row & -> & Hin)%list_elem_of_fmap. by exists row.
Qed.

Lemma rekeyed_agree (f : Folder) (self : DbRecord) (l : nat) (r0 r0' : Row) :
  1 ≤ generation self →
  generation self ≤ l < 3 →
  r0 ∈ (rekeyed' f self).2 → r0' ∈ (rekeyed' f self).2 →
  uid_of_row r0 !! l = uid_of_row r0' !! l.
Proof.
  intros HG Hl. unfold rekeyed.
  set (df0 := zip_with set_file (labels' f self) (data f self)).
  destruct (generation self) as [|[|[|G]]] eqn:EG; try lia.
  - simpl. set (st1 := rekey_column generate_uid "StudyInstanceUID" (uid_count f, df0)).
    assert (st1 = (st1.1, st1.2)) as Hst by by destruct st1.
    rewrite Hst.
    destruct (rekey_column_common "SeriesInstanceUID" st1.1 st1.2) as [u2 H2].
    destruct (rekey_column_common "StudyInstanceUID" (uid_count f) df0) as [u1 H1].
    fold st1 in H1.
    intros (row1 & Hin1 & ->)%H2 (row1' & Hin1' & ->)%H2.
    apply H1 in Hin1 as (row & _ & ->). apply H1 in Hin1' as (row' & _ & ->).
    assert (l = 1 ∨ l = 2) as [-> | ->] by lia; done.
  - simpl. destruct (rekey_column_common "SeriesInstanceUID" (uid_count f) df0) as [u H].
    intros (row & _ & ->)%H (row' & _ & ->)%H.
    assert (l = 2) as -> by lia. done.
Qed.

(** X15. All the rows that one [copy_to] adds (source of generation 1 to
    4, copied below a higher level) carry the same PatientID, the same
    StudyInstanceUID and the same SeriesInstanceUID: the re-keying loop
    writes each new UID on every copied row, so the copies of a Patient or
    a Study end up in one single series, however many studies or series
    the source had. *)
Theorem copy_to_single_series (f f1 : Folder) (self ancestor : DbRecord)
    (copy : option DbRecord) :
  1 ≤ generation self ≤ 4 →
  generation ancestor < generation self →
  copy_to' f self ancestor = (f1, Ok copy) →
  ∃ new, dataframe f1 = dataframe f ++ new ∧
    length new = length (data f self) ∧
    ∀ row row', row ∈ new → row' ∈ new →
      PatientID row = PatientID row' ∧
      StudyInstanceUID row = StudyInstanceUID row' ∧
      SeriesInstanceUID row = SeriesInstanceUID row'.
Proof.
  intros HG Ha Hc.
  destruct (copy_to_new_rows generate_uid new_file_name desc_columns
              f f1 self ancestor copy HG Ha Hc)
    as (_ & _ & _ & new & Hdf & Hlen & Hrows).
  exists new. split; [done|]. split; [done|].
  assert (∀ row row' l, row ∈ new → row' ∈ new → l < 3 →
            uid_of_row row !! l = uid_of_row row' !! l) as Hagree.
  { intros row row' l [i Hi]%list_elem_of_lookup [j Hj]%list_elem_of_lookup Hl.
    destruct (Hrows i row Hi) as (_ & _ & _ & Hdest & Hfresh & row3 & H3 & Hkeep).
    destruct (Hrows j row' Hj) as (_ & _ & _ & Hdest' & Hfresh' & row3' & H3' & Hkeep').
    destruct (decide (l < generation ancestor)) as [Hla|Hla].
    - destruct (lookup_lt_is_Some_2 (UID ancestor) l Hla) as [u Hu].
      by rewrite (Hdest l u Hu), (Hdest' l u Hu).
    - destruct (decide (l < generation self)) as [Hls|Hls].
      + rewrite Hfresh, Hfresh' by lia. done.
      + rewrite Hkeep, Hkeep' by lia.
        destruct (staged_copies_lookup generate_uid new_file_name desc_columns
                    _ self i row3 H3) as (_ & _ & _ & _ & r0 & Hr0 & ->).
        destruct (staged_copies_lookup generate_uid new_file_name desc_columns
                    _ self j row3' H3') as (_ & _ & _ & _ & r0' & Hr0' & ->).
        apply list_elem_of_lookup_2 in Hr0, Hr0'.
        pose proof (rekeyed_agree _ self l r0 r0' ltac:(lia) ltac:(lia) Hr0 Hr0') as Hl3.
        destruct l as [|[|[|l]]]; try lia; exact Hl3. }
  intros row row' Hin Hin'.
  pose proof (Hagree row row' 0 Hin Hin' ltac:(lia)) as H0.
  pose proof (Hagree row row' 1 Hin Hin' ltac:(lia)) as H1.
  pose proof (Hagree row row' 2 Hin Hin' ltac:(lia)) as H2.
  simpl in H0, H1, H2. by simplify_eq.
Qed.

Lemma set_tags_other (attrs : list (string * string)) (ds : Dataset) (k : string) :
  k ∉ attrs.*1 → foldl (λ d kv, _set_tags d kv.1 kv.2) ds attrs !! k = ds !! k.
Proof.
  revert ds. induction attrs as [|[k' v'] attrs IH]; intros ds Hk; [done|].
  rewrite fmap_cons in Hk. apply not_elem_of_cons in Hk as [Hne Hk].
  simpl. rewrite IH by done. unfold _set_tags. by apply lookup_insert_ne.
Qed.

Lemma set_tags_bound (attrs : list (string * string)) (ds : Dataset) (k v : string) :
  NoDup attrs.*1 → (k, v) ∈ attrs →
  foldl (λ d kv, _set_tags d kv.1 kv.2) ds attrs !! k = Some v.
Proof.
  revert ds. induction attrs as [|[k' v'] attrs IH]; intros ds Hnd Hin.
  { by apply elem_of_nil in Hin. }
  rewrite fmap_cons in Hnd. apply NoDup_cons in Hnd as [Hk' Hnd]. simpl in *.
  apply elem_of_cons in Hin as [[= -> ->] | Hin].
  - rewrite set_tags_other by done. unfold _set_tags. apply lookup_insert_eq.
  - by apply IH.
Qed.

Lemma stamp_cached_other (attrs : list (string * string)) (row : Row) (k : string) :
  k ∉ attrs.*1 → cached (stamp_cached desc_columns attrs row) !! k = cached row !! k.
Proof.
  unfold stamp_cached. revert row.
  induction attrs as [|[k' v'] attrs IH]; intros row Hk; [done|].
  rewrite fmap_cons in Hk. apply not_elem_of_cons in Hk as [Hne Hk].
  simpl. rewrite IH by done. case_decide; [|done]. simpl. by apply lookup_insert_ne.
Qed.

Lemma stamp_cached_bound (attrs : list (string * string)) (row : Row) (k v : string) :
  NoDup attrs.*1 → (k, v) ∈ attrs → k ∈ desc_columns →
  cached (stamp_cached desc_columns attrs row) !! k = Some v.
Proof.
  intros Hnd Hin Hk. revert row Hnd Hin.
  induction attrs as [|[k' v'] attrs IH]; intros row Hnd Hin.
  { by apply elem_of_nil in Hin. }
  rewrite fmap_cons in Hnd. apply NoDup_cons in Hnd as [Hk' Hnd]. simpl in Hk'.
  apply elem_of_cons in Hin as [[= <- <-] | Hin].
  - pose proof (stamp_cached_other attrs
                  (if decide (k ∈ drop 4 (_columns desc_columns))
                   then set_cached k v row else row) k Hk') as Ho.
    unfold stamp_cached in *. cbn [foldl fst snd]. rewrite Ho.
    rewrite decide_True by done. simpl. apply lookup_insert_eq.
  - unfold stamp_cached in *. cbn [foldl]. by apply IH.
Qed.

Lemma write_copies_attrs (G : nat) (obj : DbRecord) (todo : list (string * string))
    (df df' : list Row) (d d' : gmap string Dataset) (p : string) :
  write_copies desc_columns G obj todo df d = (d', Ok df') →
  p ∈ todo.*1 →
  ∃ ds0 uid,
    d' !! p = Some (foldl (λ d kv, _set_tags d kv.1 kv.2)
                          (_initialize ds0 uid) (attributes obj)).
Proof.
  revert df d. induction todo as [|[q src] todo IH]; intros df d Hw Hp.
  { by apply elem_of_nil in Hp. }
  cbn [write_copies] in Hw.
  destruct (decide (length (take G (_columns desc_columns)) = length (UID obj)))
    as [Hlen|Hlen]; [|done].
  destruct (d !! src) as [ds0|]; [|done].
  set (df1 := loc_set [q] (set_cols (take G (_columns desc_columns)) (UID obj)) df) in *.
  destruct (filter (λ row, file row = q) df1) as [|row1 [|row2 others]] eqn:Hsel;
    [done| |done].
  rewrite stamp_attributes_spec in Hw. cbn [fst snd] in Hw.
  destruct (decide (p ∈ todo.*1)) as [Hrest|Hrest]; [by apply (IH _ _ Hw)|].
  rewrite fmap_cons in Hp. apply elem_of_cons in Hp as [-> | Hp]; [|done].
  epose proof (write_copies_disk_other desc_columns G obj todo _ _ _ Hrest) as Hd.
  rewrite Hw in Hd. simpl in Hd. rewrite lookup_insert_eq in Hd.
  by exists ds0, (uid_of_row row1).
Qed.

(** X16. [merge_with] folds the pending attributes of the target into
    what it writes.  For each attribute of the target (distinct keywords,
    as in a dictionary), each row the merge adds has a file on disk that
    carries the attribute's value under its keyword, also when the keyword
    is one of the four identifiers; and the row caches the value when the
    keyword is a descriptive column of the index. *)
Theorem merge_with_stamps_attributes (f f' : Folder) (self obj : DbRecord)
    (res : option DbRecord) (new : list Row) :
  NoDup (attributes obj).*1 →
  merge_with' f self obj = (f', Ok res) →
  dataframe f' = dataframe f ++ new →
  ∀ row k v, row ∈ new → (k, v) ∈ attributes obj →
    (∃ ds, disk f' !! file row = Some ds ∧ ds !! k = Some v) ∧
    (k ∈ desc_columns → cached row !! k = Some v).
Proof.
  intros Hnd Hm Hdf row k v Hin Hkv. unfold merge_with in Hm.
  destruct (decide (generation self = 0)) as [H0|H0].
  { injection Hm as <- <-. rewrite <- (app_nil_r (dataframe f)) in Hdf at 1.
    apply app_inv_head in Hdf. subst new. by apply elem_of_nil in Hin. }
  pose proof Hm as Hm'.
  apply merge_with_Ok in Hm' as (_ & _ & _ & _ & Hdisk & df4 & Hdf4 & Hlen & _ & Hrows).
  rewrite Hdf in Hdf4. apply app_inv_head in Hdf4 as <-.
  apply list_elem_of_lookup in Hin as [i Hi].
  assert (i < length (staged' f self)) as Hlt.
  { rewrite length_staged_copies, <- Hlen. by eapply lookup_lt_Some. }
  apply lookup_lt_is_Some in Hlt as [row3 H3].
  destruct (Hrows i row3 H3) as (n & Hn & Hn1).
  rewrite Hi in Hn. injection Hn as ->.
  split.
  - destruct (write_copies desc_columns (generation self) obj
                (zip (labels' f self) (file <$> data f self))
                (staged' f self) (disk f)) as [d' [df'|e]] eqn:Hw.
    + simpl in Hdisk. subst d'.
      destruct (write_copies_attrs _ _ _ _ _ _ _
                  (file (Nat.iter n (stamp desc_columns (generation self) obj) row3)) Hw)
        as (ds0 & uid & Hfile).
      * destruct (iter_stamp_flags desc_columns (generation self) obj row3 n) as (-> & _).
        rewrite fst_todo, <- (file_staged_copies generate_uid new_file_name desc_columns).
        apply list_elem_of_fmap_2. by eapply list_elem_of_lookup_2.
      * eexists. split; [exact Hfile|]. by apply set_tags_bound.
    + exfalso. rewrite _merge_with_unfold in Hm. cbn zeta in Hm. rewrite Hw in Hm.
      destruct (path f); destruct (data f self); done.
  - intros Hk. destruct n as [|n]; [lia|]. simpl. unfold stamp at 1.
    by apply stamp_cached_bound.
Qed.

(** X17. The constructor of a record pads the UID it is given with
    identifiers drawn from the generator until the requested generation
    is reached, and never truncates it: the given UID stays as a prefix,
    the generation of the record is the larger of the requested one and
    the length given, and the index and the disk are not touched. *)
Theorem init_pads_uid (f : Folder) (uid : list string) (gen : nat)
    (attrs : list (string * string)) :
  let r := (init generate_uid f uid gen attrs).2 in
  let f' := (init generate_uid f uid gen attrs).1 in
  UID r = uid ++ (generate_uid <$> seq (uid_count f) (gen - length uid)) ∧
  generation r = gen `max` length uid ∧
  attributes r = attrs ∧
  uid_count f' = uid_count f + (gen - length uid) ∧
  dataframe f' = dataframe f ∧ disk f' = disk f ∧ path f' = path f.
Proof.
  rewrite init_spec. cbn [fst snd]. unfold generation. simpl.
  rewrite length_app, length_fmap, length_seq. repeat split; lia.
Qed.

End Collapse.

(** ** The identifiers and attributes a record stamps on a dataset *)

(** X18. [_copy_attributes_to] leaves on the dataset every pending
    attribute of the record (distinct keywords) under its keyword; for a
    record of generation at most 4, its UID components under the
    identifier keywords of its levels, except where an attribute with the
    same keyword overrides them; and every other data element as it was.
    A record of generation above 4 stamps no identifier at all. *)
Theorem copy_attributes_tags (self : DbRecord) (ds : Dataset) :
  NoDup (attributes self).*1 →
  (∀ k v, (k, v) ∈ attributes self → _copy_attributes_to self ds !! k = Some v) ∧
  (∀ l k, generation self ≤ 4 → key_columns !! l = Some k → l < generation self →
     k ∉ (attributes self).*1 → _copy_attributes_to self ds !! k = UID self !! l) ∧
  (∀ k, k ∉ (attributes self).*1 → (generation self ≤ 4 → k ∉ key self) →
     _copy_attributes_to self ds !! k = ds !! k).
Proof.
  intros Hnd. unfold _copy_attributes_to. split; [|split].
  - intros k v Hkv. by apply set_tags_bound.
  - intros l k HG Hk Hl Hno. rewrite set_tags_other by done.
    unfold generation in *.
    destruct (UID self) as [|a [|b [|c [|d [|e t]]]]]; simpl in *; try lia;
      destruct l as [|[|[|[|l]]]]; simpl in *; try lia; injection Hk as <-;
      by simplify_map_eq.
  - intros k Hno Hkey. rewrite set_tags_other by done.
    unfold key, generation in *.
    destruct (UID self) as [|a [|b [|c [|d [|e t]]]]]; simpl in *; try done;
      specialize (Hkey ltac:(lia));
      repeat (apply not_elem_of_cons in Hkey as [? Hkey]);
      by simplify_map_eq.
Qed.

(** ** Creating a series from any level *)

Section NewSeries.
Variable dicm_new_child :
  Folder → DbRecord → list (string * string) → Folder * DbRecord.
Variable dicm_parent : Folder → DbRecord → DbRecord.

Local Abbreviation new_series' := (new_series dicm_new_child dicm_parent).

(** X19. Provided [new_child] returns a record one level below its
    parent, under the parent's UID, and [parent] returns the record one
    level up, [new_series] on a record of generation 0 to 4 returns a
    record of generation 3 once the recursion is given three steps: below
    the record itself for a database, patient or study, and in the study
    of the record for a series or an instance. *)
Theorem new_series_is_a_series (f : Folder) (self : DbRecord)
    (attrs : list (string * string)) (fuel : nat) :
  (∀ f r a, ∃ u, UID (dicm_new_child f r a).2 = UID r ++ [u]) →
  (∀ f r, UID (dicm_parent f r) = take (generation r - 1) (UID r)) →
  generation self ≤ 4 →
  3 ≤ fuel →
  ∃ f' s, new_series' fuel f self attrs = Some (f', Some s) ∧
    generation s = 3 ∧
    take (generation self `min` 2) (UID s) = take 2 (UID self).
Proof.
  intros Hchild Hparent HG Hfuel.
  destruct fuel as [|[|[|fuel]]]; [lia..|].
  unfold generation in *.
  destruct (UID self) as [|a [|b [|c [|d [|e t]]]]] eqn:HU; simpl in HG; try lia.
  - cbn [new_series]. unfold generation. rewrite HU. simpl.
    destruct (Hchild f self []) as [u1 H1]. rewrite HU in H1. simpl in H1.
    set (c1 := dicm_new_child f self []) in *. rewrite H1. simpl.
    destruct (Hchild c1.1 c1.2 []) as [u2 H2]. rewrite H1 in H2. simpl in H2.
    set (c2 := dicm_new_child c1.1 c1.2 []) in *. rewrite H2. simpl.
    destruct (Hchild c2.1 c2.2 attrs) as [u3 H3]. rewrite H2 in H3. simpl in H3.
    eexists _, _. split; [done|]. by rewrite H3.
  - cbn [new_series]. unfold generation. rewrite HU. simpl.
    destruct (Hchild f self []) as [u2 H2]. rewrite HU in H2. simpl in H2.
    set (c2 := dicm_new_child f self []) in *. rewrite H2. simpl.
    destruct (Hchild c2.1 c2.2 attrs) as [u3 H3]. rewrite H2 in H3. simpl in H3.
    eexists _, _. split; [done|]. by rewrite H3.
  - cbn [new_series]. unfold generation. rewrite HU. simpl.
    destruct (Hchild f self attrs) as [u3 H3]. rewrite HU in H3. simpl in H3.
    eexists _, _. split; [done|]. by rewrite H3.
  - cbn [new_series]. unfold generation, new_sibling, generation. rewrite HU. simpl.
    pose proof (Hparent f self) as Hp. unfold generation in Hp. rewrite HU in Hp.
    simpl in Hp.
    destruct (Hchild f (dicm_parent f self) attrs) as [u3 H3]. rewrite Hp in H3.
    simpl in H3. eexists _, _. split; [done|]. by rewrite H3.
  - cbn [new_series]. unfold generation, new_pibling, new_sibling, generation.
    rewrite HU. simpl.
    pose proof (Hparent f self) as Hp. unfold generation in Hp. rewrite HU in Hp.
    simpl in Hp. rewrite Hp. simpl.
    pose proof (Hparent f (dicm_parent f self)) as Hpp. unfold generation in Hpp.
    rewrite Hp in Hpp. simpl in Hpp.
    destruct (Hchild f (dicm_parent f (dicm_parent f self)) attrs) as [u3 H3].
    rewrite Hpp in H3. simpl in H3. eexists _, _. split; [done|]. by rewrite H3.
Qed.

End NewSeries.

(** ** Undoing a move *)

Section Undo.
Variable generate_uid : nat → string.
Variable new_file_name : nat → string.
Variable desc_columns : list string.

Local Abbreviation copy_to' := (copy_to generate_uid new_file_name desc_columns).
Local Abbreviation move_to' := (move_to generate_uid new_file_name desc_columns).
Local Abbreviation labels' := (copy_labels new_file_name).

(** X20. A move that is rolled back leaves no trace.  On an index whose
    rows carry no staging flag (root path, pairwise distinct file labels,
    source files on disk, new labels pairwise distinct and used neither in
    the index nor on disk), [move_to] followed by [restore] on the record
    of generation 0 drops the copies with their files and clears the
    removal of the source: the index and the disk are what they were
    before the move. *)
Theorem move_then_restore_database (f : Folder) (self ancestor db : DbRecord)
    (root : string) :
  path f = Some root →
  1 ≤ generation self ≤ 4 →
  generation ancestor < generation self →
  generation db = 0 →
  NoDup (file <$> dataframe f) →
  (∀ row, row ∈ dataframe f → created row = false ∧ removed row = false) →
  (∀ row, row ∈ data f self → is_Some (disk f !! file row)) →
  NoDup (labels' f self) →
  (∀ q, q ∈ labels' f self → (q ∉ file <$> dataframe f) ∧ disk f !! q = None) →
  ∃ f2 copy f3,
    move_to' f self ancestor = (f2, Ok (Some copy)) ∧
    restore f2 db = (f3, Ok db) ∧
    dataframe f3 = dataframe f ∧ disk f3 = disk f.
Proof.
  intros Hp HG Ha Hdb Hnd Hclean Hdisk Hndl Hfresh.
  destruct (copy_to_succeeds generate_uid new_file_name desc_columns
              f self ancestor root Hp HG Ha Hndl Hdisk) as [f1 Hc].
  destruct (copy_to_new_rows generate_uid new_file_name desc_columns
              f f1 self ancestor _ HG Ha Hc)
    as (Hp1 & _ & _ & new & Hdf & Hlen & Hrows).
  assert (file <$> new = labels' f self) as Hlab.
  { apply new_rows_labels; [done|]. intros i row Hi. by destruct (Hrows i row Hi). }
  assert (NoDup (file <$> dataframe f1)) as Hnd1.
  { rewrite Hdf, fmap_app. apply NoDup_app. split; [done|]. split; [|by rewrite Hlab].
    intros q Hq Hq'. rewrite Hlab in Hq'. by destruct (Hfresh q Hq'). }
  assert (∀ row, row ∈ new → created row = true ∧ removed row = false) as Hnew.
  { intros row (i & Hi)%list_elem_of_lookup. by destruct (Hrows i row Hi) as (_ & ? & ? & _). }
  rewrite Hp in Hp1.
  pose proof (remove_spec f1 self root Hp1 Hnd1) as Hrem.
  set (f2 := set_dataframe (stage_removal self <$> dataframe f1) f1) in *.
  assert (∀ row, file (stage_removal self row) = file row ∧
                 created (stage_removal self row) = created row) as Hst.
  { intros row. unfold stage_removal. by case_decide. }
  assert (NoDup (file <$> dataframe f2)) as Hnd2.
  { unfold f2. simpl. rewrite <- list_fmap_compose.
    rewrite (fmap_ext_in (file ∘ stage_removal self) file); [done|].
    intros row _. apply Hst. }
  exists f2, (copy_record generate_uid f self ancestor). eexists. split.
  { unfold move_to. rewrite Hc. cbn [fst snd]. by rewrite Hrem. }
  rewrite (restore_spec f2 db root Hp1 Hnd2). split; [done|]. simpl. split.
  - rewrite Hdf, fmap_app, filter_app.
    rewrite (filter_all _ (stage_removal self <$> dataframe f)).
    2:{ intros row' (row & -> & Hin)%list_elem_of_fmap [_ Hcr].
        destruct (Hst row) as [_ Hc']. destruct (Hclean row Hin). congruence. }
    rewrite (filter_none _ (stage_removal self <$> new)).
    2:{ intros row' (row & -> & Hin)%list_elem_of_fmap Hn. apply Hn.
        split; [by apply in_scope_database|].
        destruct (Hst row) as [_ ->]. by destruct (Hnew row Hin). }
    rewrite app_nil_r, <- list_fmap_compose.
    rewrite (fmap_ext_in (rollback_row db ∘ stage_removal self) id), list_fmap_id; [done|].
    intros row Hin. destruct (Hclean row Hin) as [_ Hr]. simpl.
    unfold stage_removal. destruct (decide (removed row = false ∧ in_scope self row)).
    + unfold rollback_row. rewrite decide_True.
      * destruct row. simpl in *. by subst.
      * split; [by apply in_scope_database | done].
    + unfold rollback_row. rewrite decide_False; [done|]. intros [_ ?]. congruence.
  - apply map_eq. intros q. rewrite lookup_delete_files.
    assert (file <$> filter (λ row, in_scope db row ∧ created row = true)
                       (stage_removal self <$> dataframe f1)
            = labels' f self) as ->.
    { rewrite Hdf, fmap_app, filter_app.
      rewrite (filter_none _ (stage_removal self <$> dataframe f)).
      2:{ intros row' (row & -> & Hin)%list_elem_of_fmap [_ Hcr].
          destruct (Hst row) as [_ Hc']. destruct (Hclean row Hin). congruence. }
      rewrite (filter_all _ (stage_removal self <$> new)).
      2:{ intros row' (row & -> & Hin)%list_elem_of_fmap.
          split; [by apply in_scope_database|].
          destruct (Hst row) as [_ ->]. by destruct (Hnew row Hin). }
      simpl. rewrite <- list_fmap_compose, <- Hlab. apply fmap_ext_in.
      intros row _. apply Hst. }
    destruct (decide (q ∈ labels' f self)) as [Hq|Hq].
    + symmetry. by destruct (Hfresh q Hq).
    + rewrite copy_to_unfold in Hc by lia.
      pose proof (merge_with_disk_other generate_uid new_file_name desc_columns
                    (after_init f self ancestor) self
                    (copy_record generate_uid f self ancestor) q Hq) as Hd.
      by rewrite Hc in Hd.
Qed.

End Undo.

(** ** The pixel layout of arrays *)

Lemma moveaxis_last_0_snoc (shape : list nat) (d : nat) :
  moveaxis_last_0 (shape ++ [d]) = Ok (d :: shape).
Proof. unfold moveaxis_last_0. by rewrite last_snoc, removelast_last. Qed.

(** X21. The layouts of [array] and [set_array] are inverse to each
    other.  The shape that [array] returns for a stacked array, with
    [pixels_first] or without, is taken back by the first step of
    [set_array] under the same flag to the shape the array was stacked in,
    and conversely. *)
Theorem pixel_layout_round_trip (pixels_first : bool) (shape shape' : list nat) :
  (pixels_first_layout pixels_first shape = Ok shape' →
   pixels_last pixels_first shape' = Ok shape) ∧
  (pixels_last pixels_first shape = Ok shape' →
   pixels_first_layout pixels_first shape' = Ok shape).
Proof.
  destruct pixels_first; simpl; [|by split; intros [= ->]]. split.
  - intros H. induction shape as [|d0 t0 _] using rev_ind; [done|].
    rewrite moveaxis_last_0_snoc in H.
    induction t0 as [|d1 t1 _] using rev_ind.
    + simpl in H. injection H as <-. done.
    + rewrite app_comm_cons, moveaxis_last_0_snoc in H. injection H as <-.
      simpl. by rewrite <- !app_assoc.
  - intros H. destruct shape as [|d0 [|d1 t]]; simpl in H; [done| |].
    + injection H as <-. done.
    + injection H as <-. rewrite moveaxis_last_0_snoc.
      by rewrite app_comm_cons, moveaxis_last_0_snoc.
Qed.

(** ** A copy in the same parent *)

Section Sibling.
Variable generate_uid : nat → string.
Variable new_file_name : nat → string.
Variable desc_columns : list string.
Variable dicm_parent : Folder → DbRecord → DbRecord.

Local Abbreviation copy' := (copy generate_uid new_file_name desc_columns dicm_parent).

(** X22. Provided [parent] returns the record one level up, [copy] on a
    record of generation 1 to 4 (root path, source files on disk, new
    labels pairwise distinct) returns a sibling: a record of the same
    generation whose UID is that of the parent followed by one identifier
    drawn from the generator.  The index grows by one row per current row
    of the source, and every new row carries the identifiers of the parent
    and, at the level of the record, the new identifier. *)
Theorem copy_is_a_sibling (f : Folder) (self : DbRecord) (root : string) :
  UID (dicm_parent f self) = take (generation self - 1) (UID self) →
  path f = Some root →
  1 ≤ generation self ≤ 4 →
  NoDup (copy_labels new_file_name f self) →
  (∀ row, row ∈ data f self → is_Some (disk f !! file row)) →
  ∃ f1 sibling new,
    copy' f self = (f1, Ok (Some sibling)) ∧
    UID sibling = take (generation self - 1) (UID self) ++ [generate_uid (uid_count f)] ∧
    generation sibling = generation self ∧
    dataframe f1 = dataframe f ++ new ∧
    length new = length (data f self) ∧
    ∀ row l, row ∈ new → l < generation self → uid_of_row row !! l = UID sibling !! l.
Proof.
  intros Hparent Hp HG Hndl Hdisk.
  assert (generation (dicm_parent f self) = generation self - 1) as Hgen.
  { unfold generation in *. rewrite Hparent, length_take. lia. }
  destruct (copy_to_succeeds generate_uid new_file_name desc_columns
              f self (dicm_parent f self) root Hp HG ltac:(lia) Hndl Hdisk) as [f1 Hc].
  destruct (copy_to_new_rows generate_uid new_file_name desc_columns
              f f1 self (dicm_parent f self) _ HG ltac:(lia) Hc)
    as (_ & _ & _ & new & Hdf & Hlen & Hrows).
  assert (UID (copy_record generate_uid f self (dicm_parent f self))
          = take (generation self - 1) (UID self) ++ [generate_uid (uid_count f)]) as HU.
  { unfold copy_record. simpl. rewrite Hgen, Hparent.
    by replace (generation self - (generation self - 1)) with 1 by lia. }
  exists f1, (copy_record generate_uid f self (dicm_parent f self)), new.
  split; [done|]. split; [done|].
  split. { unfold generation in *. rewrite HU, length_app, length_take. simpl. lia. }
  split; [done|]. split; [done|].
  intros row l [i Hi]%list_elem_of_lookup Hl.
  destruct (Hrows i row Hi) as (_ & _ & _ & Hdest & Hfresh & _).
  rewrite HU. destruct (decide (l < generation self - 1)) as [Hlt|Hge].
  - assert (l < length (UID (dicm_parent f self))) as Hlen' by (fold (generation (dicm_parent f self)); lia).
    destruct (lookup_lt_is_Some_2 _ _ Hlen') as [u Hu].
    rewrite (Hdest l u Hu). rewrite lookup_app_l by (rewrite <- Hparent; done).
    by rewrite <- Hparent.
  - assert (l = generation self - 1) as -> by lia.
    rewrite Hfresh by lia. rewrite Hgen.
    replace (generation self - 1 - (generation self - 1)) with 0 by lia.
    rewrite Nat.add_0_r. symmetry. apply list_lookup_middle.
    rewrite length_take. unfold generation. lia.
Qed.

End Sibling.

(** ** What every session keeps *)

Section SessionInvariants.
Variable generate_uid : nat → string.
Variable new_file_name : nat → string.
Variable desc_columns : list string.

Local Abbreviation copy_to' := (copy_to generate_uid new_file_name desc_columns).
Local Abbreviation move_to' := (move_to generate_uid new_file_name desc_columns).
Local Abbreviation merge_with' := (merge_with generate_uid new_file_name desc_columns).
Local Abbreviation merge' := (_merge_with generate_uid new_file_name desc_columns).
Local Abbreviation labels' := (copy_labels new_file_name).
Local Abbreviation staged' := (staged_copies generate_uid new_file_name desc_columns).
Local Abbreviation session' := (session generate_uid new_file_name desc_columns).


Lemma remove_file_count (f : Folder) (r : DbRecord) :
  file_count (remove f r).1 = file_count f.
Proof. unfold remove. repeat case_match; done. Qed.

Lemma remove_labels (f : Folder) (r : DbRecord) :
  file <$> dataframe (remove f r).1 = file <$> dataframe f.
Proof.
  unfold remove. repeat case_match; try done. simpl. by apply loc_set_labels.
Qed.



(** The rows of the index after [_merge_with]: those it had, and on
    success one row per label drawn, each with its file written. *)
Lemma merge_outcome (f : Folder) (self obj : DbRecord) :
  (dataframe (merge' f self obj).1 = dataframe f ∨
   ∃ new, dataframe (merge' f self obj).1 = dataframe f ++ new ∧
     file <$> new = labels' f self ∧
     ∀ row, row ∈ new → is_Some (disk (merge' f self obj).1 !! file row)) ∧
  (file_count (merge' f self obj).1 = file_count f ∨
   file_count (merge' f self obj).1 = file_count f + length (data f self)).
Proof.
  destruct (merge' f self obj) as [f' [res|e]] eqn:Hm; cbn [fst].
  - pose proof Hm as Hm'.
    apply merge_with_Ok in Hm' as (_ & _ & _ & Hfc & Hdisk & df4 & Hdf & Hlen & _ & Hrows).
    split; [|by right]. right. exists df4. split; [done|].
    assert (file <$> df4 = labels' f self) as Hlab.
    { rewrite <- (file_staged_copies generate_uid new_file_name desc_columns).
      apply list_eq. intros i. rewrite !list_lookup_fmap.
      destruct (staged' f self !! i) as [row3|] eqn:H3.
      - destruct (Hrows i row3 H3) as (n & -> & _). simpl.
        by destruct (iter_stamp_flags desc_columns (generation self) obj row3 n) as (-> & _).
      - apply lookup_ge_None in H3. rewrite length_staged_copies, <- Hlen in H3.
        apply lookup_ge_None in H3. by rewrite H3. }
    split; [done|]. intros row Hin.
    assert (file row ∈ labels' f self) as Hl.
    { rewrite <- Hlab. by apply list_elem_of_fmap_2. }
    destruct (write_copies desc_columns (generation self) obj
                (zip (labels' f self) (file <$> data f self))
                (staged' f self) (disk f)) as [d' [df'|e]] eqn:Hw.
    + simpl in Hdisk. subst d'. rewrite <- fst_todo in Hl.
      destruct (write_copies_attrs desc_columns _ _ _ _ _ _ _ (file row) Hw Hl)
        as (ds0 & uid & ->). by eexists.
    + exfalso. rewrite _merge_with_unfold in Hm. cbn zeta in Hm. rewrite Hw in Hm.
      destruct (path f); destruct (data f self); done.
  - apply merge_with_Raise in Hm as Hm'. destruct Hm' as (Hdf & _ & _).
    split; [by left|]. rewrite _merge_with_unfold in Hm.
    destruct (path f); destruct (data f self); cbn zeta in Hm;
      try (injection Hm as <- _; by left);
      destruct (write_copies _ _ _ _ _ _) as [d' [df4|e']]; cbn [fst snd] in Hm;
      try done; injection Hm as <- _; simpl; by right.
Qed.


Lemma init_keeps (f : Folder) (uid : list string) (gen : nat) (attrs : list (string * string)) :
  dataframe (init generate_uid f uid gen attrs).1 = dataframe f ∧
  disk (init generate_uid f uid gen attrs).1 = disk f ∧
  file_count (init generate_uid f uid gen attrs).1 = file_count f.
Proof. by rewrite init_spec. Qed.






Hypothesis new_file_name_inj : ∀ i j, new_file_name i = new_file_name j → i = j.

Lemma labels_fresh_sub (f f' : Folder) :
  labels_fresh new_file_name f →
  NoDup (file <$> dataframe f') →
  (∀ row, row ∈ dataframe f' → file row ∈ file <$> dataframe f) →
  file_count f ≤ file_count f' →
  labels_fresh new_file_name f'.
Proof.
  intros [_ Hfresh] Hnd Hsub Hfc. split; [done|].
  intros k row Hk Hin. pose proof (Hsub row Hin) as Hrow.
  apply list_elem_of_fmap in Hrow as (row0 & -> & Hin0).
  apply Hfresh; [lia | done].
Qed.

Lemma merge_keeps_labels (f : Folder) (self obj : DbRecord) :
  labels_fresh new_file_name f → labels_fresh new_file_name (merge' f self obj).1.
Proof.
  intros [Hnd Hfresh].
  destruct (merge_outcome f self obj) as [[Hdf | (new & Hdf & Hlab & _)] Hfc].
  - split; [by rewrite Hdf|]. intros k row Hk Hin. rewrite Hdf in Hin.
    apply Hfresh; [|done]. destruct Hfc as [Hfc|Hfc]; rewrite Hfc in Hk; lia.
  - assert (file_count (merge' f self obj).1 = file_count f + length (data f self)) as Hfc'.
    { destruct (merge' f self obj) as [f' [res|e]] eqn:Hm; cbn [fst] in *.
      - by apply merge_with_Ok in Hm as (_ & _ & _ & ? & _).
      - apply merge_with_Raise in Hm as (Hdf' & _ & _). rewrite Hdf' in Hdf.
        rewrite <- (app_nil_r (dataframe f)) in Hdf at 1. apply app_inv_head in Hdf.
        subst new. symmetry in Hlab. unfold copy_labels in Hlab.
        apply fmap_nil_inv in Hlab.
        destruct Hfc as [-> | ->]; [|done].
        destruct (length (data f self)); [lia | done]. }
    split.
    + rewrite Hdf, fmap_app. apply NoDup_app. split; [done|]. split.
      * intros q (row & -> & Hin)%list_elem_of_fmap. rewrite Hlab.
        intros (k & Hk & Hseq)%list_elem_of_fmap. apply elem_of_seq in Hseq.
        apply (Hfresh k row); [lia | done | done].
      * rewrite Hlab. unfold copy_labels. apply NoDup_fmap_2; [|apply NoDup_seq].
        intros i j. apply new_file_name_inj.
    + intros k row Hk Hin. rewrite Hfc' in Hk. rewrite Hdf in Hin.
      apply elem_of_app in Hin as [Hin | Hin]; [apply Hfresh; [lia | done]|].
      assert (file row ∈ labels' f self) as (j & -> & Hj%elem_of_seq)%list_elem_of_fmap.
      { rewrite <- Hlab. by apply list_elem_of_fmap_2. }
      intros Heq%new_file_name_inj. lia.
Qed.

Lemma copy_to_keeps_labels (f : Folder) (self ancestor : DbRecord) :
  labels_fresh new_file_name f → labels_fresh new_file_name (copy_to' f self ancestor).1.
Proof.
  intros Hf. unfold copy_to. case_decide; [done|]. apply merge_keeps_labels.
  unfold labels_fresh.
  by destruct (init_keeps f (UID ancestor) (generation self) []) as (-> & _ & ->).
Qed.

Lemma remove_keeps_labels (f : Folder) (r : DbRecord) :
  labels_fresh new_file_name f → labels_fresh new_file_name (remove f r).1.
Proof.
  intros Hf. apply (labels_fresh_sub f); [done| | |].
  - rewrite remove_labels. apply Hf.
  - intros row Hin. rewrite <- (remove_labels f r). by apply list_elem_of_fmap_2.
  - by rewrite remove_file_count.
Qed.

Lemma save_keeps_labels (f : Folder) (r : DbRecord) :
  labels_fresh new_file_name f → labels_fresh new_file_name (save f r).1.
Proof.
  intros Hf. apply (labels_fresh_sub f); [done| | |].
  - apply saved_labels, Hf.
  - intros row (row0 & Hin0 & Hrow)%save_rows. apply list_elem_of_fmap.
    exists row0. split; [by destruct Hrow as [-> | ->] | done].
  - unfold save. repeat case_match; done.
Qed.

Lemma restore_keeps_labels (f : Folder) (r : DbRecord) :
  labels_fresh new_file_name f → labels_fresh new_file_name (restore f r).1.
Proof.
  intros Hf. apply (labels_fresh_sub f); [done| | |].
  - apply restored_labels, Hf.
  - intros row (row0 & Hin0 & Hrow)%restore_rows. apply list_elem_of_fmap.
    exists row0. split; [by destruct Hrow as [-> | ->] | done].
  - unfold restore. repeat case_match; done.
Qed.

(** X24. The label discipline that the staging operations rely on is
    kept by every session.  If [new_file] never repeats a label, the file
    labels of the index are pairwise distinct and [new_file] will not
    issue a label that the index holds, then the same is true after any
    sequence of [copy_to], [merge_with], [move_to], [remove], [save] and
    [restore]. *)
Theorem labels_stay_distinct (f0 f : Folder) :
  labels_fresh new_file_name f0 → session' f0 f → labels_fresh new_file_name f.
Proof.
  intros H0 Hs. induction Hs as [|f self ancestor _ IH|f self obj _ IH
                                 |f self ancestor _ IH|f r _ IH|f r _ IH|f r _ IH].
  - done.
  - by apply copy_to_keeps_labels.
  - unfold merge_with. case_decide; [done|]. by apply merge_keeps_labels.
  - destruct (move_to_state generate_uid new_file_name desc_columns f self ancestor)
      as [-> | ->].
    + by apply copy_to_keeps_labels.
    + by apply remove_keeps_labels, copy_to_keeps_labels.
  - by apply remove_keeps_labels.
  - by apply save_keeps_labels.
  - by apply restore_keeps_labels.
Qed.

End SessionInvariants.

(** ** A move that is committed *)

Section CommittedMove.
Variable generate_uid : nat → string.
Variable new_file_name : nat → string.
Variable desc_columns : list string.

Local Abbreviation copy_to' := (copy_to generate_uid new_file_name desc_columns).
Local Abbreviation move_to' := (move_to generate_uid new_file_name desc_columns).
Local Abbreviation labels' := (copy_labels new_file_name).

Lemma staged_source_rows (self db : DbRecord) (df : list Row) :
  generation db = 0 →
  (∀ row, row ∈ df → removed row = false) →
  filter (λ row, in_scope db row ∧ removed row = true) (stage_removal self <$> df)
  = stage_removal self <$> filter (in_scope self) df.
Proof.
  intros Hdb. induction df as [|row df IH]; intros Hcl; [done|].
  specialize (IH (λ r Hr, Hcl r ltac:(by right))).
  pose proof (Hcl row ltac:(by left)) as Hr.
  pose proof (in_scope_database db) as Hall.
  rewrite fmap_cons, !filter_cons.
  destruct (decide (in_scope self row)) as [Hs|Hs].
  - assert (stage_removal self row = set_removed true row) as Hst.
    { unfold stage_removal. by rewrite decide_True. }
    rewrite fmap_cons, <- IH, Hst.
    destruct (decide (in_scope db (set_removed true row)
                      ∧ removed (set_removed true row) = true)) as [_|Hn]; [done|].
    exfalso. apply Hn. split; [by apply Hall | done].
  - assert (stage_removal self row = row) as ->.
    { unfold stage_removal. rewrite decide_False; [done | tauto]. }
    destruct (decide (in_scope db row ∧ removed row = true)) as [[_ ?]|_]; [congruence|].
    done.
Qed.

Lemma kept_rows (self db : DbRecord) (df : list Row) :
  generation db = 0 →
  (∀ row, row ∈ df → created row = false ∧ removed row = false) →
  commit_row db <$> filter (λ row, ¬ (in_scope db row ∧ removed row = true))
                           (stage_removal self <$> df)
  = filter (λ row, ¬ in_scope self row) df.
Proof.
  intros Hdb. induction df as [|row df IH]; intros Hcl; [done|].
  specialize (IH (λ r Hr, Hcl r ltac:(by right))).
  destruct (Hcl row ltac:(by left)) as [Hc Hr].
  pose proof (in_scope_database db) as Hall.
  rewrite fmap_cons, !filter_cons.
  destruct (decide (¬ in_scope self row)) as [Hs|Hs].
  - assert (stage_removal self row = row) as ->.
    { unfold stage_removal. rewrite decide_False; [done | tauto]. }
    destruct (decide (¬ (in_scope db row ∧ removed row = true))) as [_|Hn].
    + rewrite fmap_cons, IH. f_equal.
      unfold commit_row. rewrite decide_False; [done|]. intros [_ ?]. congruence.
    + exfalso. apply Hn. intros [_ ?]. congruence.
  - assert (in_scope self row) as Hin by (destruct (decide (in_scope self row)); tauto).
    assert (stage_removal self row = set_removed true row) as ->.
    { unfold stage_removal. by rewrite decide_True. }
    destruct (decide (¬ (in_scope db (set_removed true row)
                         ∧ removed (set_removed true row) = true))) as [Hn|_]; [|done].
    exfalso. apply Hn. split; [by apply Hall | done].
Qed.

(** X25. A move that is committed leaves the data at the destination
    only.  On an index whose rows carry no staging flag (root path,
    pairwise distinct file labels, source files on disk, new labels
    pairwise distinct and not used in the index, a generator that does
    not issue the last identifier of the source), [move_to] followed by
    [save] on the record of generation 0 drops every row of the source
    and deletes its file, keeps the copies as committed rows with their
    files on disk, and leaves all other rows and their files as they
    were. *)
Theorem move_then_save_database (f : Folder) (self ancestor db : DbRecord)
    (root : string) :
  path f = Some root →
  1 ≤ generation self ≤ 4 →
  generation ancestor < generation self →
  generation db = 0 →
  NoDup (file <$> dataframe f) →
  (∀ row, row ∈ dataframe f → created row = false ∧ removed row = false) →
  (∀ row, row ∈ data f self → is_Some (disk f !! file row)) →
  NoDup (labels' f self) →
  (∀ q, q ∈ labels' f self → q ∉ file <$> dataframe f) →
  (∀ j, uid_count f ≤ j → last (UID self) ≠ Some (generate_uid j)) →
  ∃ f2 copy f3 new,
    move_to' f self ancestor = (f2, Ok (Some copy)) ∧
    save f2 db = (f3, Ok tt) ∧
    dataframe f3 = filter (λ row, ¬ in_scope self row) (dataframe f) ++ new ∧
    length new = length (data f self) ∧
    (∀ row, row ∈ new →
       created row = false ∧ removed row = false ∧ is_Some (disk f3 !! file row)) ∧
    (∀ row, row ∈ dataframe f → in_scope self row → disk f3 !! file row = None) ∧
    (∀ row, row ∈ dataframe f → ¬ in_scope self row →
       disk f3 !! file row = disk f !! file row).
Proof.
  intros Hp HG Ha Hdb Hnd Hclean Hdisk Hndl Hfresh Hgen.
  destruct (copy_to_succeeds generate_uid new_file_name desc_columns
              f self ancestor root Hp HG Ha Hndl Hdisk) as [f1 Hc].
  destruct (copy_to_new_rows generate_uid new_file_name desc_columns
              f f1 self ancestor _ HG Ha Hc)
    as (Hp1 & _ & _ & new & Hdf & Hlen & Hrows).
  assert (file <$> new = labels' f self) as Hlab.
  { apply new_rows_labels; [done|]. intros i row Hi. by destruct (Hrows i row Hi). }
  assert (NoDup (file <$> dataframe f1)) as Hnd1.
  { rewrite Hdf, fmap_app. apply NoDup_app. split; [done|]. split; [|by rewrite Hlab].
    intros q Hq Hq'. rewrite Hlab in Hq'. by apply (Hfresh q Hq'). }
  assert (∀ row, row ∈ new →
            created row = true ∧ removed row = false ∧ ¬ in_scope self row) as Hnew.
  { intros row (i & Hi)%list_elem_of_lookup.
    destruct (Hrows i row Hi) as (_ & Hcr & Hrm & _ & Hlev & _).
    split; [done|]. split; [done|]. intros Hs.
    apply in_scope_own_column in Hs; [|done].
    rewrite Hlev in Hs by lia.
    eapply Hgen; [|symmetry; exact Hs]. lia. }
  assert (∀ row, row ∈ new → is_Some (disk f1 !! file row)) as Hwritten.
  { rewrite copy_to_unfold in Hc by lia.
    destruct (merge_outcome generate_uid new_file_name desc_columns
                (after_init f self ancestor) self
                (copy_record generate_uid f self ancestor))
      as [[Hsame | (new2 & Hdf2 & _ & Hw)] _]; rewrite Hc in *; cbn [fst] in *.
    - simpl in Hsame. rewrite Hdf in Hsame.
      rewrite <- (app_nil_r (dataframe f)) in Hsame at 2.
      apply app_inv_head in Hsame. subst new. by intros row ?%elem_of_nil.
    - simpl in Hdf2. rewrite Hdf in Hdf2. by apply app_inv_head in Hdf2 as <-. }
  rewrite Hp in Hp1.
  pose proof (remove_spec f1 self root Hp1 Hnd1) as Hrem.
  set (f2 := set_dataframe (stage_removal self <$> dataframe f1) f1) in *.
  assert (∀ row, file (stage_removal self row) = file row) as Hst.
  { intros row. unfold stage_removal. by case_decide. }
  assert (NoDup (file <$> dataframe f2)) as Hnd2.
  { unfold f2. simpl. rewrite <- list_fmap_compose.
    rewrite (fmap_ext_in (file ∘ stage_removal self) file); [done|].
    intros row _. apply Hst. }
  assert (stage_removal self <$> new = new) as Hnewfix.
  { rewrite <- (list_fmap_id new) at 2. apply fmap_ext_in. intros row Hin.
    unfold stage_removal. rewrite decide_False; [done|].
    intros [_ Hs]. by destruct (Hnew row Hin) as (_ & _ & Hn). }
  assert (file <$> filter (λ row, in_scope db row ∧ removed row = true) (dataframe f2)
          = file <$> filter (in_scope self) (dataframe f)) as Hgone.
  { unfold f2. simpl. rewrite Hdf, fmap_app, Hnewfix, filter_app.
    rewrite (filter_none _ new)
      by (intros row Hin [_ Hr]; destruct (Hnew row Hin) as (_ & ? & _); congruence).
    rewrite app_nil_r.
    rewrite (staged_source_rows self db _ Hdb) by (intros row Hin; by destruct (Hclean row Hin)).
    rewrite <- list_fmap_compose. apply fmap_ext_in. intros row _. apply Hst. }
  exists f2, (copy_record generate_uid f self ancestor). eexists.
  exists (set_created false <$> new). split.
  { unfold move_to. rewrite Hc. cbn [fst snd]. by rewrite Hrem. }
  rewrite (save_spec f2 db root Hp1 Hnd2). split; [done|]. cbn [dataframe disk].
  rewrite Hgone. split; [|split; [by rewrite length_fmap|split; [|split]]].
  - unfold f2. simpl. rewrite Hdf, fmap_app, Hnewfix, filter_app, fmap_app. f_equal.
    + by apply kept_rows.
    + rewrite filter_all
        by (intros row Hin [_ Hr]; destruct (Hnew row Hin) as (_ & ? & _); congruence).
      apply fmap_ext_in. intros row Hin. unfold commit_row.
      rewrite decide_True; [done|].
      split; [by apply in_scope_database | by destruct (Hnew row Hin)].
  - intros row' (row & -> & Hin)%list_elem_of_fmap.
    destruct (Hnew row Hin) as (_ & Hr & _). split; [done|]. split; [done|].
    rewrite lookup_delete_files, decide_False; [exact (Hwritten row Hin)|].
    intros (row0 & Heq & [_ Hin0]%list_elem_of_filter)%list_elem_of_fmap.
    apply (Hfresh (file row)).
    + rewrite <- Hlab. by apply list_elem_of_fmap_2.
    + simpl in Heq. rewrite Heq. by apply list_elem_of_fmap_2.
  - intros row Hin Hs. rewrite lookup_delete_files, decide_True; [done|].
    apply list_elem_of_fmap_2. by apply list_elem_of_filter.
  - intros row Hin Hs. rewrite lookup_delete_files, decide_False.
    + rewrite copy_to_unfold in Hc by lia.
      pose proof (merge_with_disk_other generate_uid new_file_name desc_columns
                    (after_init f self ancestor) self
                    (copy_record generate_uid f self ancestor) (file row)) as Hd.
      rewrite Hc in Hd. apply Hd. intros Hq. apply (Hfresh _ Hq).
      by apply list_elem_of_fmap_2.
    + intros Hq. apply Hs. by apply (label_in_filter (in_scope self) (dataframe f) row Hnd Hin).
Qed.

End CommittedMove.

(** * The further properties at work on the small database *)

Lemma scope_settled_witness :
  scope_committed (save demo_mixed series).1 series ∧
  scope_committed (restore demo_mixed series).1 series.
Proof. apply (scope_settled demo_mixed series "/data"); [reflexivity | by_evaluation]. Defined.

Lemma staging_settles_witness :
  restore (save demo_mixed series).1 series = ((save demo_mixed series).1, Ok series) ∧
  save (save demo_mixed series).1 series = ((save demo_mixed series).1, Ok tt) ∧
  save (restore demo_mixed series).1 series = ((restore demo_mixed series).1, Ok tt) ∧
  restore (restore demo_mixed series).1 series = ((restore demo_mixed series).1, Ok series).
Proof. apply (staging_settles demo_mixed series "/data"); [reflexivity | by_evaluation]. Defined.

Lemma remove_twice_witness :
  data (remove demo_staged series).1 series = [] ∧
  remove (remove demo_staged series).1 series = ((remove demo_staged series).1, Ok tt).
Proof. apply (remove_twice demo_staged series "/data"); [reflexivity | by_evaluation]. Defined.

Lemma remove_then_save_erases_witness :
  ∃ f2, save (remove demo_mixed series).1 series = (f2, Ok tt) ∧
    dataframe f2 = [row_d] ∧
    disk f2 !! "a.dcm" = None ∧ disk f2 !! "c.dcm" = None ∧
    disk f2 !! "d.dcm" = disk demo_mixed !! "d.dcm".
Proof.
  destruct (remove_then_save_erases demo_mixed series "/data")
    as (f2 & Hs & Hdf & Hgone & Hkept).
  - reflexivity.
  - by_evaluation.
  - exists f2. split; [exact Hs|]. split; [rewrite Hdf; vm_compute; reflexivity|].
    split; [apply (Hgone row_a); by_evaluation|].
    split; [apply (Hgone row_c); by_evaluation|].
    apply Hkept. by_evaluation.
Defined.

Lemma database_move_to_stages_all_witness :
  move_to demo_uid demo_file [] demo database study2
  = (set_dataframe [set_removed true row_a; set_removed true row_b] demo, Ok None).
Proof.
  apply (database_move_to_stages_all demo_uid demo_file [] demo database study2 "/data");
    [reflexivity | reflexivity | by_evaluation].
Defined.

Lemma copy_to_missing_file_witness :
  ∃ f1, copy_to demo_uid demo_file [] demo_lost series study2
        = (f1, Raise FileNotFoundError) ∧
    dataframe f1 = dataframe demo_lost ∧
    disk f1 !! "a.dcm" = disk demo_lost !! "a.dcm".
Proof.
  destruct (copy_to_missing_file demo_uid demo_file [] demo_lost series study2 "/data" row_b)
    as (f1 & Hc & Hdf & Hdisk).
  - reflexivity.
  - vm_compute. lia.
  - vm_compute. lia.
  - by_evaluation.
  - reflexivity.
  - by_evaluation.
  - refine (proj1 (Forall_forall
             (λ row, file row ∉ copy_labels demo_file demo_lost series) _) _).
    by_evaluation.
  - exists f1. split; [exact Hc|]. split; [exact Hdf|]. apply Hdisk. by_evaluation.
Defined.

Lemma copy_then_restore_database_witness :
  ∃ f1 copy f2,
    copy_to demo_uid demo_file [] demo series study2 = (f1, Ok (Some copy)) ∧
    restore f1 database = (f2, Ok database) ∧
    dataframe f2 = dataframe demo ∧ disk f2 = disk demo.
Proof.
  apply (copy_then_restore_database demo_uid demo_file [] demo series study2 database "/data").
  - reflexivity.
  - vm_compute. lia.
  - vm_compute. lia.
  - reflexivity.
  - by_evaluation.
  - refine (proj1 (Forall_forall (λ row, created row = false ∧ removed row = false) _) _).
    by_evaluation.
  - refine (proj1 (Forall_forall (λ row, is_Some (disk demo !! file row)) _) _).
    by_evaluation.
  - by_evaluation.
  - refine (proj1 (Forall_forall
             (λ q, (q ∉ file <$> dataframe demo) ∧ disk demo !! q = None) _) _).
    by_evaluation.
Defined.

Lemma children_by_index_witness :
  ∃ kids,
    children [] (λ _ _, true) demo series None = Ok (PyList kids) ∧
    children [] (λ _ o, bool_decide (last (UID o) = Some "I2")) demo series (Some 0)
    = match data demo series with
      | [] => Ok PyNone
      | _ :: _ =>
          match kids !! 0 with
          | Some o => if bool_decide (last (UID o) = Some "I2")
                      then Ok (PyObj o) else Raise IndexError
          | None => Raise IndexError
          end
      end.
Proof.
  apply (children_by_index [] (λ _ o, bool_decide (last (UID o) = Some "I2")) demo series 0).
  vm_compute. lia.
Defined.

Lemma instances_reach_every_row_witness :
  ∃ l, instances [] 3 (λ _ _, true) demo patient None = Some (Ok (PyList l)) ∧
    instances [] 3 (λ _ o, bool_decide (last (UID o) = Some "I2")) demo patient None
    = Some (Ok (PyList (List.filter (λ o, bool_decide (last (UID o) = Some "I2")) l))) ∧
    (∀ o, o ∈ l →
       generation o = 4 ∧
       ∃ row, row ∈ dataframe demo ∧ removed row = false ∧ UID o = uid_of_row row) ∧
    (∀ row, row ∈ data demo patient →
       ∃ o, o ∈ l ∧ generation o = 4 ∧ last (UID o) = Some (SOPInstanceUID row)).
Proof.
  apply (instances_reach_every_row []
           (λ _ o, bool_decide (last (UID o) = Some "I2")) demo patient "/data" 3).
  - reflexivity.
  - vm_compute. lia.
  - vm_compute. lia.
Defined.

Lemma instances_by_index_witness :
  ∃ l, instances [] 3 (λ _ _, true) demo patient None = Some (Ok (PyList l)) ∧
    instances [] 3 (λ _ _, true) demo patient (Some 5)
    = Some (Ok (match l !! 5 with Some o => PyObj o | None => PyNone end)).
Proof.
  apply (instances_by_index [] (λ _ _, true) demo patient "/data" 3 5).
  - reflexivity.
  - vm_compute. lia.
  - vm_compute. lia.
Defined.

Lemma read_series_witness :
  read [] 2 demo_lost series
  = Some (Ok (DsList None [DsInstance (Some series) (header "P1" "ST1" "SE1" "I1");
                           DsNone (Some series)])).
Proof.
  rewrite (read_series [] demo_lost series "/data" 2).
  - reflexivity.
  - reflexivity.
  - reflexivity.
  - by_evaluation.
  - lia.
Defined.

Lemma read_keeps_generation_witness :
  ∃ d, read [] 4 demo patient = Some (Ok d) ∧
    dataset_generation d = Ok (Some 1%Z).
Proof.
  destruct (read_keeps_generation [] demo patient "/data" 4) as (d & Hd & Hg).
  - reflexivity.
  - vm_compute. lia.
  - vm_compute. lia.
  - exists d. split; [exact Hd|]. apply Hg.
    + by_evaluation.
    + refine (proj1 (Forall_forall
               (λ row, removed row = false → is_Some (disk demo !! file row)) _) _).
      by_evaluation.
Defined.

Lemma copy_to_single_series_witness :
  ∃ f1 new,
    copy_to demo_uid demo_file [] demo_two_series study patient2
    = (f1, Ok (Some (copy_record demo_uid demo_two_series study patient2))) ∧
    dataframe f1 = dataframe demo_two_series ++ new ∧
    length new = 2 ∧
    ∀ row row', row ∈ new → row' ∈ new →
      PatientID row = PatientID row' ∧
      StudyInstanceUID row = StudyInstanceUID row' ∧
      SeriesInstanceUID row = SeriesInstanceUID row'.
Proof.
  destruct (copy_to_succeeds demo_uid demo_file [] demo_two_series study patient2 "/data")
    as [f1 Hc].
  - reflexivity.
  - vm_compute. lia.
  - vm_compute. lia.
  - by_evaluation.
  - refine (proj1 (Forall_forall (λ row, is_Some (disk demo_two_series !! file row)) _) _).
    by_evaluation.
  - destruct (copy_to_single_series demo_uid demo_file [] demo_two_series f1 study patient2
                (Some (copy_record demo_uid demo_two_series study patient2)))
      as (new & Hdf & Hlen & Hsame).
    + vm_compute. lia.
    + vm_compute. lia.
    + exact Hc.
    + exists f1, new. split; [exact Hc|]. split; [exact Hdf|]. split; [exact Hlen|].
      exact Hsame.
Defined.

Lemma merge_with_stamps_attributes_witness :
  ∃ f' new,
    merge_with demo_uid demo_file ["SeriesDescription"] demo series series_named
    = (f', Ok (Some series_named)) ∧
    dataframe f' = dataframe demo ++ new ∧
    length new = 2 ∧
    ∀ row, row ∈ new →
      (∃ ds, disk f' !! file row = Some ds ∧ ds !! "SeriesDescription" = Some "copy") ∧
      cached row !! "SeriesDescription" = Some "copy".
Proof.
  destruct (merge_with_succeeds demo_uid demo_file ["SeriesDescription"]
              demo series series_named "/data") as [f' Hm].
  - reflexivity.
  - vm_compute. lia.
  - reflexivity.
  - by_evaluation.
  - refine (proj1 (Forall_forall (λ row, is_Some (disk demo !! file row)) _) _).
    by_evaluation.
  - destruct (merge_with_Ok demo_uid demo_file ["SeriesDescription"]
                demo f' series series_named _ Hm)
      as (_ & _ & _ & _ & _ & new & Hdf & Hlen & _).
    exists f', new. split; [exact Hm|]. split; [exact Hdf|]. split; [exact Hlen|].
    intros row Hin.
    destruct (merge_with_stamps_attributes demo_uid demo_file ["SeriesDescription"]
                demo f' series series_named (Some series_named) new)
      with (row := row) (k := "SeriesDescription") (v := "copy") as [Hfile Hrow].
    + by_evaluation.
    + exact Hm.
    + exact Hdf.
    + exact Hin.
    + by_evaluation.
    + split; [exact Hfile|]. apply Hrow. by_evaluation.
Defined.

Lemma copy_attributes_tags_witness :
  _copy_attributes_to series_named (header "P1" "ST1" "SE1" "I1") !! "SeriesDescription"
  = Some "copy" ∧
  _copy_attributes_to series_named (header "P1" "ST1" "SE1" "I1") !! "SeriesInstanceUID"
  = Some "SE9" ∧
  _copy_attributes_to series_named (header "P1" "ST1" "SE1" "I1") !! "SOPInstanceUID"
  = Some "I1".
Proof.
  destruct (copy_attributes_tags series_named (header "P1" "ST1" "SE1" "I1"))
    as (Hattr & Hids & Hframe).
  - by_evaluation.
  - split; [apply Hattr; by_evaluation|]. split.
    + rewrite (Hids 2 "SeriesInstanceUID"); [reflexivity | vm_compute; lia | reflexivity
                                             | vm_compute; lia | by_evaluation].
    + rewrite Hframe; [reflexivity | by_evaluation | intros _; by_evaluation].
Defined.

Lemma demo_new_child_uid (f : Folder) (r : DbRecord) (a : list (string * string)) :
  ∃ u, UID (demo_new_child f r a).2 = UID r ++ [u].
Proof.
  exists (demo_uid (uid_count f)). unfold demo_new_child. rewrite init_spec. simpl.
  unfold generation. by replace (length (UID r) + 1 - length (UID r)) with 1 by lia.
Qed.

Lemma new_series_is_a_series_witness :
  ∃ f' s, new_series demo_new_child demo_parent 3 demo instance_a [] = Some (f', Some s) ∧
    generation s = 3 ∧ take 2 (UID s) = ["P1"; "ST1"].
Proof.
  destruct (new_series_is_a_series demo_new_child demo_parent demo instance_a [] 3)
    as (f' & s & Hs & Hgen & Hpre).
  - apply demo_new_child_uid.
  - reflexivity.
  - vm_compute. lia.
  - lia.
  - exists f', s. split; [exact Hs|]. split; [exact Hgen | exact Hpre].
Defined.

Lemma move_then_restore_database_witness :
  ∃ f2 copy f3,
    move_to demo_uid demo_file [] demo series study2 = (f2, Ok (Some copy)) ∧
    restore f2 database = (f3, Ok database) ∧
    dataframe f3 = dataframe demo ∧ disk f3 = disk demo.
Proof.
  apply (move_then_restore_database demo_uid demo_file [] demo series study2 database "/data").
  - reflexivity.
  - vm_compute. lia.
  - vm_compute. lia.
  - reflexivity.
  - by_evaluation.
  - refine (proj1 (Forall_forall (λ row, created row = false ∧ removed row = false) _) _).
    by_evaluation.
  - refine (proj1 (Forall_forall (λ row, is_Some (disk demo !! file row)) _) _).
    by_evaluation.
  - by_evaluation.
  - refine (proj1 (Forall_forall
             (λ q, (q ∉ file <$> dataframe demo) ∧ disk demo !! q = None) _) _).
    by_evaluation.
Defined.

Lemma pixel_layout_round_trip_witness :
  pixels_last true [128; 128; 10] = Ok [10; 128; 128] ∧
  pixels_first_layout true [10; 128; 128] = Ok [128; 128; 10].
Proof.
  split.
  - apply (proj1 (pixel_layout_round_trip true [10; 128; 128] [128; 128; 10])).
    reflexivity.
  - apply (proj2 (pixel_layout_round_trip true [128; 128; 10] [10; 128; 128])).
    reflexivity.
Defined.

Lemma copy_is_a_sibling_witness :
  ∃ f1 sibling new,
    copy demo_uid demo_file [] demo_parent demo series = (f1, Ok (Some sibling)) ∧
    UID sibling = ["P1"; "ST1"; demo_uid 0] ∧
    generation sibling = 3 ∧
    dataframe f1 = dataframe demo ++ new ∧
    length new = 2 ∧
    ∀ row l, row ∈ new → l < 3 → uid_of_row row !! l = UID sibling !! l.
Proof.
  apply (copy_is_a_sibling demo_uid demo_file [] demo_parent demo series "/data").
  - reflexivity.
  - reflexivity.
  - vm_compute. lia.
  - by_evaluation.
  - refine (proj1 (Forall_forall (λ row, is_Some (disk demo !! file row)) _) _).
    by_evaluation.
Defined.


Lemma copy_file_inj (i j : nat) : copy_file i = copy_file j → i = j.
Proof.
  unfold copy_file. intros H. apply (inj (String.app _)) in H. by apply (inj pretty) in H.
Qed.

Lemma copy_file_fresh (k : nat) (row : Row) :
  row ∈ dataframe demo → file row ≠ copy_file k.
Proof.
  simpl. intros Hin.
  repeat (apply elem_of_cons in Hin as [->|Hin]; [done|]).
  by apply elem_of_nil in Hin.
Qed.

Lemma labels_stay_distinct_witness :
  labels_fresh copy_file
    (restore (copy_to demo_uid copy_file [] demo series study2).1 series).1.
Proof.
  apply (labels_stay_distinct demo_uid copy_file [] copy_file_inj demo).
  - split; [by_evaluation|]. intros k row _. apply copy_file_fresh.
  - apply session_restore, session_copy_to, session_start.
Defined.

Lemma move_then_save_database_witness :
  ∃ f2 copy f3 new,
    move_to demo_uid demo_file [] demo series study2 = (f2, Ok (Some copy)) ∧
    save f2 database = (f3, Ok tt) ∧
    dataframe f3 = new ∧ length new = 2 ∧
    disk f3 !! "a.dcm" = None ∧ disk f3 !! "b.dcm" = None.
Proof.
  destruct (move_then_save_database demo_uid demo_file [] demo series study2 database "/data")
    as (f2 & copy & f3 & new & Hmv & Hsave & Hdf & Hlen & _ & Hgone & _).
  - reflexivity.
  - vm_compute. lia.
  - vm_compute. lia.
  - reflexivity.
  - by_evaluation.
  - refine (proj1 (Forall_forall (λ row, created row = false ∧ removed row = false) _) _).
    by_evaluation.
  - refine (proj1 (Forall_forall (λ row, is_Some (disk demo !! file row)) _) _).
    by_evaluation.
  - by_evaluation.
  - refine (proj1 (Forall_forall (λ q, q ∉ file <$> dataframe demo) _) _).
    by_evaluation.
  - intros j _ Heq. apply (demo_uid_not_short j "SE1"); [simpl; lia | by injection Heq].
  - exists f2, copy, f3, new. split; [exact Hmv|]. split; [exact Hsave|].
    split; [rewrite Hdf; reflexivity|]. split; [exact Hlen|].
    split; [apply (Hgone row_a); by_evaluation | apply (Hgone row_b); by_evaluation].
Defined.

Lemma series_and_studies_reach_every_row_witness :
  (∃ l, Nav.series [] demo_parent 2 (λ _ _, true) demo_two_series patient None
        = Some (Ok (PyList l)) ∧
     Nav.series [] demo_parent 2 (λ _ o, bool_decide (last (UID o) = Some "SE2"))
       demo_two_series patient None
     = Some (Ok (PyList (List.filter (λ o, bool_decide (last (UID o) = Some "SE2")) l))) ∧
     ∀ row, row ∈ data demo_two_series patient →
       ∃ o, o ∈ l ∧ generation o = 3 ∧ last (UID o) = Some (SeriesInstanceUID row)) ∧
  (∃ l, Nav.studies [] demo_parent 2 (λ _ _, true) demo_two_series database None
        = Some (Ok (PyList l)) ∧
     Nav.studies [] demo_parent 2 (λ _ o, bool_decide (last (UID o) = Some "SE2"))
       demo_two_series database None
     = Some (Ok (PyList (List.filter (λ o, bool_decide (last (UID o) = Some "SE2")) l))) ∧
     ∀ row, row ∈ data demo_two_series database →
       ∃ o, o ∈ l ∧ generation o = 2 ∧ last (UID o) = Some (StudyInstanceUID row)).
Proof.
  split.
  - destruct (series_and_studies_reach_every_row [] demo_parent
                (λ _ o, bool_decide (last (UID o) = Some "SE2"))
                demo_two_series patient "/data" 2) as [Hseries _]; [reflexivity|].
    destruct Hseries as (l & Hl & Hl' & _ & Hcover); [vm_compute; lia..|].
    exists l. split; [exact Hl|]. split; [exact Hl' | exact Hcover].
  - destruct (series_and_studies_reach_every_row [] demo_parent
                (λ _ o, bool_decide (last (UID o) = Some "SE2"))
                demo_two_series database "/data" 2) as [_ Hstudies]; [reflexivity|].
    destruct Hstudies as (l & Hl & Hl' & _ & Hcover); [vm_compute; lia..|].
    exists l. split; [exact Hl|]. split; [exact Hl' | exact Hcover].
Defined.

Lemma patients_are_children_witness :
  Nav.patients [] demo_parent (λ _ _, true) demo_two_series study None
  = children [] (λ _ _, true) demo_two_series study None ∧
  ∃ kids, Nav.patients [] demo_parent (λ _ _, true) demo_two_series study None
          = Ok (PyList kids) ∧
    ∀ o, o ∈ kids → generation o = 3.
Proof.
  apply (patients_are_children [] demo_parent (λ _ _, true) demo_two_series study None).
  right. reflexivity.
Defined.
